(** * Scientific calculator (script.js): expression engine and session state

    A shallow embedding of the calculator's engine: the sanitizer and
    evaluator of [evaluateExpression], the expression buffer operations,
    the history ledger and the event handlers that drive them.

    - JavaScript strings are modelled as [string]; a character is a code
      unit below 256.  Code units above 255 are outside the alphabet the
      sanitizer keeps and are dropped by its second [replace] like every
      other disallowed unit.
    - JavaScript Numbers are IEEE-754 binary64 values: Rocq's primitive
      [float].  [+ - * /] are the primitive operations; remainder, decimal
      parsing and decimal printing are computed exactly over [Z].
    - [Math.sin], [Math.cos], [Math.tan], [Math.log], [Math.log10] and the
      exponentiation operator are implementation-approximated in ECMAScript
      and are parameters of the development.
    - [new Function(...)(...)] is the host's ECMAScript engine: a parameter
      of [evaluateExpression].  The compiled code runs with the host's
      global object in scope, so on its way to a completion it may read the
      page and raise events on its elements, which the listeners of the
      page handle before the code goes on: an engine answers with a
      [reply], and the handlers are re-entered as deep as the stack
      allows.  A reference interpreter, [js_fragment], gives the semantics
      of the part of the language the calculator's expressions use; it is
      partial, and an engine [conforms] when it agrees with the interpreter
      wherever the interpreter is defined. *)

From Stdlib Require Import ZArith Lia Bool List Ascii String DecimalString.
From Stdlib Require Import Uint63 Floats.
Import ListNotations.

Local Open Scope string_scope.
Local Open Scope Z_scope.

(* ================================================================= *)
(** * Characters and strings *)

Module Str.

(** [s.slice(0, -1)]: [s] without its last character ("" stays ""). *)
Fixpoint slice_0_m1 (s : string) : string :=
  match s with
  | EmptyString => EmptyString
  | String c EmptyString => EmptyString
  | String c s' => String c (slice_0_m1 s')
  end.

(** [s.slice(-1)]: the last character of [s] as a string ("" for ""). *)
Fixpoint slice_m1 (s : string) : string :=
  match s with
  | EmptyString => EmptyString
  | String c EmptyString => String c EmptyString
  | String c s' => slice_m1 s'
  end.

(** [s.includes(t)]: [t] occurs in [s] as a substring.  The empty string
    occurs in every string. *)
Fixpoint includes (s t : string) : bool :=
  String.prefix t s
  || match s with
     | EmptyString => false
     | String _ s' => includes s' t
     end.

(** Keep the characters satisfying [p]. *)
Fixpoint filter (p : ascii -> bool) (s : string) : string :=
  match s with
  | EmptyString => EmptyString
  | String c s' => if p c then String c (filter p s') else filter p s'
  end.

Fixpoint forallb (p : ascii -> bool) (s : string) : bool :=
  match s with
  | EmptyString => true
  | String c s' => p c && forallb p s'
  end.

Fixpoint existsb (p : ascii -> bool) (s : string) : bool :=
  match s with
  | EmptyString => false
  | String c s' => p c || existsb p s'
  end.

Fixpoint rev_onto (s acc : string) : string :=
  match s with
  | EmptyString => acc
  | String c s' => rev_onto s' (String c acc)
  end.

Definition rev (s : string) : string := rev_onto s EmptyString.

Fixpoint drop_while (p : ascii -> bool) (s : string) : string :=
  match s with
  | EmptyString => EmptyString
  | String c s' => if p c then drop_while p s' else s
  end.

(** [n] copies of the character [c]. *)
Fixpoint repeat (c : ascii) (n : nat) : string :=
  match n with
  | O => EmptyString
  | S n' => String c (repeat c n')
  end.

Definition is_empty (s : string) : bool :=
  match s with EmptyString => true | _ => false end.

End Str.

Definition code (c : ascii) : N := N_of_ascii c.

Definition in_range (lo hi : ascii) (c : ascii) : bool :=
  (code lo <=? code c)%N && (code c <=? code hi)%N.

(** [\d] *)
Definition is_digit (c : ascii) : bool := in_range "0" "9" c.

(** [[A-Za-z]] *)
Definition is_letter (c : ascii) : bool :=
  in_range "A" "Z" c || in_range "a" "z" c.

(** [\s]: ECMAScript WhiteSpace and LineTerminator code units below 256:
    TAB, LF, VT, FF, CR, SP and NBSP. *)
Definition is_whitespace (c : ascii) : bool :=
  ((9 <=? code c)%N && (code c <=? 13)%N)
  || (code c =? 32)%N || (code c =? 160)%N.

(** [s.trim()] *)
Definition trim (s : string) : string :=
  Str.rev (Str.drop_while is_whitespace
             (Str.rev (Str.drop_while is_whitespace s))).

(** The characters of the string ["+-*/^"]. *)
Definition is_operator_char (c : ascii) : bool :=
  Str.existsb (Ascii.eqb c) "+-*/^".

(* ================================================================= *)
(** * Numbers: IEEE-754 binary64 *)

(** The Number value of a real is the binary64 value nearest to it, ties
    to even.  [SpecFloat]'s [binary_round] and [SFdiv] compute it for an
    integer scaled by a power of two and for a quotient of two integers. *)

Definition float_of_ratio (neg : bool) (p q : positive) : float :=
  SF2Prim (SFdiv prec emax (S754_finite neg p 0) (S754_finite false q 0)).

(** The Number value of [(-1)^neg * m * 10^e10]. *)
Definition float_of_decimal (neg : bool) (m : N) (e10 : Z) : float :=
  match m with
  | N0 => if neg then neg_zero else zero
  | Npos p =>
      if 0 <=? e10
      then SF2Prim (binary_round prec emax neg (p * Z.to_pos (10 ^ e10)) 0)
      else float_of_ratio neg p (Z.to_pos (10 ^ (- e10)))
  end.

(** [Number.isFinite(x)] for a value of type Number. *)
Definition Number_isFinite (x : float) : bool := PrimFloat.is_finite x.

(** [Math.PI], [Math.E] and [Math.LN10]: the Number values nearest to pi,
    e and ln 10. *)
Definition Math_PI : float := 0x1.921fb54442d18p+1%float.
Definition Math_E : float := 0x1.5bf0a8b145769p+1%float.
Definition Math_LN10 : float := 0x1.26bb1bbb55516p+1%float.

Definition float_of_nat (n : nat) : float :=
  float_of_decimal false (N.of_nat n) 0.

Definition f180 : float := Eval vm_compute in float_of_nat 180.
Definition ten_pow_21 : float := Eval vm_compute in float_of_decimal false 1 21.

(** The operator [%] on Numbers (Number::remainder): the result has the
    sign of the dividend and is exact. *)
Definition Number_remainder (n d : float) : float :=
  match Prim2SF n, Prim2SF d with
  | S754_nan, _ | _, S754_nan => nan
  | S754_infinity _, _ => nan
  | _, S754_infinity _ => n
  | _, S754_zero _ => nan
  | S754_zero _, _ => n
  | S754_finite sn mn en, S754_finite _ md ed =>
      let e := Z.min en ed in
      let r := (Zpos mn * 2 ^ (en - e)) mod (Zpos md * 2 ^ (ed - e)) in
      match r with
      | Zpos p => SF2Prim (binary_round prec emax sn p e)
      | _ => if sn then neg_zero else zero
      end
  end.

(** ** Decimal digits *)

Definition decimal_digits (n : N) : string :=
  NilZero.string_of_uint (N.to_uint n).

Definition digit_value (c : ascii) : N := (code c - code "0")%N.

(** The value of a string of decimal digits, most significant first. *)
Fixpoint digits_value_from (acc : N) (s : string) : N :=
  match s with
  | EmptyString => acc
  | String c s' => digits_value_from (10 * acc + digit_value c)%N s'
  end.

Definition digits_value (s : string) : N := digits_value_from 0%N s.

(** The longest prefix of [s] whose characters satisfy [p], and the rest. *)
Fixpoint span (p : ascii -> bool) (s : string) : string * string :=
  match s with
  | EmptyString => (EmptyString, EmptyString)
  | String c s' =>
      if p c then let (a, b) := span p s' in (String c a, b)
      else (EmptyString, s)
  end.

(** ** Number::toString (radix 10) *)

(** [decimal_exponent p q] is the [n] with [10^(n-1) <= p/q < 10^n]. *)
Fixpoint scale_up (fuel : nat) (p q : Z) (j : Z) : Z :=
  match fuel with
  | O => j
  | S fuel' => if q <=? p * 10 ^ j then j else scale_up fuel' p q (j + 1)
  end.

Definition decimal_exponent (p q : Z) : Z :=
  if q <=? p
  then Z.of_nat (String.length (decimal_digits (Z.to_N (p / q))))
  else 1 - scale_up 400 p q 1.

(** [x * 10^sh] as a fraction, for [x = p/q]. *)
Definition scale10 (p q sh : Z) : Z * Z :=
  if 0 <=? sh then (p * 10 ^ sh, q) else (p, q * 10 ^ (- sh)).

(** The [k]-digit candidates around [x = p/q]: the integers just below and
    just above [x * 10^(k-n)].  A candidate is kept when its Number value
    is [x]; of two kept candidates the one nearer to [x] wins, the even one
    on a tie. *)
Definition shortest_at (x : float) (p q n k : Z) : option Z :=
  let (a, b) := scale10 p q (k - n) in
  let lo := a / b in
  let hi := lo + 1 in
  let ok s := PrimFloat.eqb (float_of_decimal false (Z.to_N s) (n - k)) x in
  match ok lo, ok hi with
  | true, true =>
      match (2 * a) ?= ((2 * lo + 1) * b) with
      | Lt => Some lo
      | Gt => Some hi
      | Eq => Some (if Z.even lo then lo else hi)
      end
  | true, false => Some lo
  | false, true => Some hi
  | false, false => None
  end.

Fixpoint shortest_from (fuel : nat) (x : float) (p q n k : Z) : Z * Z :=
  match shortest_at x p q n k with
  | Some s => (s, k)
  | None =>
      match fuel with
      | O => (fst (scale10 p q (k - n)) / snd (scale10 p q (k - n)), k)
      | S fuel' => shortest_from fuel' x p q n (k + 1)
      end
  end.

(** The integers [n], [k], [s] of Number::toString for [x = m * 2^e > 0]:
    [k] is as small as possible with [s * 10^(n-k)] having Number value
    [x] and [10^(k-1) <= s < 10^k]. *)
Definition shortest (m : positive) (e : Z) : Z * Z * Z :=
  let x := SF2Prim (S754_finite false m e) in
  let p := Zpos m * 2 ^ Z.max e 0 in
  let q := 2 ^ Z.max (- e) 0 in
  let n := decimal_exponent p q in
  let (s, k) := shortest_from 16 x p q n 1 in
  if s =? 10 ^ k then (n + 1, k, 10 ^ (k - 1)) else (n, k, s).

Definition zeros (n : Z) : string := Str.repeat "0" (Z.to_nat n).

Definition format_number (n k s : Z) : string :=
  let digits := decimal_digits (Z.to_N s) in
  if (-5 <=? n) && (n <=? 21) then
    if k <=? n then digits ++ zeros (n - k)
    else if 0 <? n then
      String.substring 0 (Z.to_nat n) digits ++ "."
        ++ String.substring (Z.to_nat n) (Z.to_nat (k - n)) digits
    else "0." ++ zeros (- n) ++ digits
  else
    let e := n - 1 in
    let c := if e <? 0 then "-" else "+" in
    let d := decimal_digits (Z.to_N (Z.abs e)) in
    if k =? 1 then digits ++ "e" ++ c ++ d
    else String.substring 0 1 digits ++ "."
           ++ String.substring 1 (Z.to_nat (k - 1)) digits ++ "e" ++ c ++ d.

(** [String(x)] for a Number [x]. *)
Definition Number_toString (x : float) : string :=
  match Prim2SF x with
  | S754_nan => "NaN"
  | S754_zero _ => "0"
  | S754_infinity s => (if s then "-" else "") ++ "Infinity"
  | S754_finite s m e =>
      let '(n, k, d) := shortest m e in
      (if s then "-" else "") ++ format_number n k d
  end.

(** ** Number.prototype.toFixed *)

(** The integer [n] for which [n / 10^f - m * 2^e] is as close to zero as
    possible, the larger one if there are two. *)
Definition nearest_scaled (m : positive) (e : Z) (f : nat) : Z :=
  let t := Zpos m * 10 ^ Z.of_nat f in
  if 0 <=? e then t * 2 ^ e
  else (2 * t + 2 ^ (- e)) / 2 ^ (1 - e).

(** The digits of [n] with a decimal point before the last [f] of them,
    padded with zeros on the left to at least [f + 1] digits. *)
Definition fixed_digits (n : Z) (f : nat) : string :=
  let m := decimal_digits (Z.to_N n) in
  match f with
  | O => m
  | _ =>
      let k := String.length m in
      let m' := if (k <=? f)%nat then Str.repeat "0" (f + 1 - k) ++ m else m in
      let k' := String.length m' in
      String.substring 0 (k' - f) m' ++ "." ++ String.substring (k' - f) f m'
  end.

(** [x.toFixed(f)] *)
Definition toFixed (x : float) (f : nat) : string :=
  match Prim2SF x with
  | S754_finite s m e =>
      let sign := if s then "-" else "" in
      if PrimFloat.leb ten_pow_21 (PrimFloat.abs x)
      then sign ++ Number_toString (PrimFloat.abs x)
      else sign ++ fixed_digits (nearest_scaled m e f) f
  | S754_zero _ => fixed_digits 0 f
  | _ => Number_toString x
  end.

(** ** StringToNumber: [Number(s)] for a string [s] *)

(** A decimal literal at the start of [s]: digits with an optional
    fraction, or a fraction alone, then an exponent part when one is
    complete.  The result is the digit string read as an integer, the power
    of ten that scales it, and the text left over. *)
Definition scan_exponent (s : string) : Z * string :=
  match s with
  | String c r =>
      if Ascii.eqb c "e" || Ascii.eqb c "E" then
        let '(neg, r') :=
          match r with
          | String "+" t => (false, t)
          | String "-" t => (true, t)
          | _ => (false, r)
          end in
        let (d, rest) := span is_digit r' in
        if Str.is_empty d then (0, s)
        else ((if neg then - Z.of_N (digits_value d) else Z.of_N (digits_value d)),
              rest)
      else (0, s)
  | EmptyString => (0, s)
  end.

Definition scan_decimal (s : string) : option (N * Z * string) :=
  let (ip, r1) := span is_digit s in
  let '(fp, r2, dot) :=
    match r1 with
    | String "." t => let (fp, r2) := span is_digit t in (fp, r2, true)
    | _ => (EmptyString, r1, false)
    end in
  if Str.is_empty ip && Str.is_empty fp then None
  else
    let (ex, rest) := scan_exponent r2 in
    Some (digits_value (ip ++ fp), ex - Z.of_nat (String.length fp), rest).

Definition radix_digit (radix : N) (c : ascii) : option N :=
  let v :=
    if is_digit c then Some (digit_value c)
    else if in_range "a" "f" c then Some (code c - code "a" + 10)%N
    else if in_range "A" "F" c then Some (code c - code "A" + 10)%N
    else None in
  match v with
  | Some d => if (d <? radix)%N then Some d else None
  | None => None
  end.

Fixpoint radix_value (radix : N) (acc : N) (s : string) : option N :=
  match s with
  | EmptyString => Some acc
  | String c s' =>
      match radix_digit radix c with
      | Some d => radix_value radix (radix * acc + d)%N s'
      | None => None
      end
  end.

(** [0x], [0o] and [0b] literals. *)
Definition scan_non_decimal (s : string) : option (option N) :=
  match s with
  | String "0" (String c r) =>
      let radix :=
        if Ascii.eqb c "x" || Ascii.eqb c "X" then Some 16%N
        else if Ascii.eqb c "o" || Ascii.eqb c "O" then Some 8%N
        else if Ascii.eqb c "b" || Ascii.eqb c "B" then Some 2%N
        else None in
      match radix with
      | Some b =>
          Some (if Str.is_empty r then None else radix_value b 0%N r)
      | None => None
      end
  | _ => None
  end.

Definition StringToNumber (str : string) : float :=
  let s := trim str in
  if Str.is_empty s then zero
  else
    match scan_non_decimal s with
    | Some (Some v) => float_of_decimal false v 0
    | Some None => nan
    | None =>
        let '(neg, u) :=
          match s with
          | String "+" t => (false, t)
          | String "-" t => (true, t)
          | _ => (false, s)
          end in
        if String.eqb u "Infinity" then if neg then neg_infinity else infinity
        else
          match scan_decimal u with
          | Some (m, e10, EmptyString) => float_of_decimal neg m e10
          | _ => nan
          end
    end.

(* ================================================================= *)
(** * The sanitizer: the four [replace] passes of [evaluateExpression] *)

(** [.replace(/\s+/g, "")] *)
Definition remove_whitespace (s : string) : string :=
  Str.filter (fun c => negb (is_whitespace c)) s.

(** The class [[0-9+\-*/^().%A-Za-z]]. *)
Definition is_allowed (c : ascii) : bool :=
  is_digit c || Str.existsb (Ascii.eqb c) "+-*/^().%" || is_letter c.

(** [.replace(/[^0-9+\-*/^().%A-Za-z]/g, "")] *)
Definition remove_disallowed (s : string) : string := Str.filter is_allowed s.

(** [.replace(/\^/g, "**")] *)
Fixpoint replace_caret (s : string) : string :=
  match s with
  | EmptyString => EmptyString
  | String c s' =>
      if Ascii.eqb c "^" then "**" ++ replace_caret s'
      else String c (replace_caret s')
  end.

(** A match of [/(\d+(\.\d+)?)%/] anchored at the start of [s]: the
    captured literal [$1] and the text after the [%].  Both [\d+] are
    greedy, and giving back digits never helps, since the character after a
    shorter run of digits is a digit, which is neither [.] nor [%]; so the
    anchored match, when there is one, takes the whole digit runs. *)
Definition match_percent (s : string) : option (string * string) :=
  let (d1, r1) := span is_digit s in
  if Str.is_empty d1 then None
  else
    match r1 with
    | String "%" rest => Some (d1, rest)
    | String "." r2 =>
        let (d2, r3) := span is_digit r2 in
        if Str.is_empty d2 then None
        else
          match r3 with
          | String "%" rest => Some (d1 ++ "." ++ d2, rest)
          | _ => None
          end
    | _ => None
    end.

(** [.replace(/(\d+(\.\d+)?)%/g, "($1/100)")]: scan from the left; at a
    position where the pattern matches, emit the replacement and resume
    after the match, otherwise emit the character and move one position.
    [skip] counts the characters of the current match still to pass. *)
Fixpoint replace_percent_from (skip : nat) (s : string) : string :=
  match s with
  | EmptyString => EmptyString
  | String c s' =>
      match skip with
      | S k => replace_percent_from k s'
      | O =>
          match match_percent s with
          | Some (lit, _) =>
              "(" ++ lit ++ "/100)" ++ replace_percent_from (String.length lit) s'
          | None => String c (replace_percent_from 0 s')
          end
      end
  end.

Definition replace_percent (s : string) : string := replace_percent_from 0 s.

(** The text handed to the engine for a raw expression, when it is not
    empty. *)
Definition sanitize (rawExpr : string) : string :=
  replace_percent (replace_caret (remove_disallowed (remove_whitespace rawExpr))).

(* ================================================================= *)
(** * The ECMAScript engine *)

(** The values an expression of the calculator can denote.  [VNative f] is
    a function object whose call converts its first argument to a Number
    and applies [f]: the six closures [evaluateExpression] passes in are of
    this kind. *)
Inductive value : Type :=
  | VUndefined
  | VNull
  | VBoolean (b : bool)
  | VNumber (x : float)
  | VNative (f : float -> float).

(** The outcome of constructing and calling a function: a value, or an
    exception ([SyntaxError] from the constructor, or whatever the call
    throws).  [evaluateExpression] catches every exception alike. *)
Inductive completion : Type :=
  | Normal (v : value)
  | Throw.

(** ** The page the code runs in *)

Inductive angle_mode : Type := DEG | RAD.

(** An entry [{ expr, res }] of the [history] array. *)
Record history_item : Type := { expr : string; res : float }.

(** The state of the page: the variables of the closure, the two display
    elements, and the number of times the error animation was started. *)
Record state : Type := {
  expression : string;
  lastResult : option float;
  angleMode : angle_mode;
  history : list history_item;
  displayMain : string;
  displayExpression : string;
  errorAnimations : nat
}.

(** The events the page listens to: a click on a keypad button with the
    given [data-value], [data-func] and [data-action] ([None] for a
    missing attribute), a key press, a click on the [i]-th entry of the
    rendered ledger, on the button that clears the ledger, and on the
    angle toggle. *)
Inductive event : Type :=
  | KeypadClick (value func action : option string)
  | KeyDown (key : string)
  | HistoryItemClick (i : nat)
  | ClearHistoryClick
  | AngleToggleClick.

(** What a call of compiled code does.  The text it is compiled from is
    any text over the sanitizer's alphabet, letters, dots and parentheses
    included, so it can reach the document: it can read the page, change
    what the two display elements hold, and call [click()] on an element.
    The event is handled by the page's listeners, synchronously, and the
    code goes on in the state they leave.  The variables of the closure
    are out of its reach: it changes them only through the listeners. *)
Inductive reply : Type :=
  | Return (c : completion)
  | Write (main line : string) (k : state -> reply)
  | Raise (ev : event) (k : state -> reply).

(** [engine params body args st] is
    [new Function(...params, body)(...args)], called when the page is in
    state [st]. *)
Definition engine : Type :=
  list string -> string -> list value -> state -> reply.

Module JS.

Inductive punctuator : Type :=
  | LParen | RParen | Semicolon | Dot
  | Plus | Minus | Star | Slash | Percent | StarStar.

Inductive token : Type :=
  | TNumber (x : float)
  | TName (s : string)
  | TString (s : string)
  | TPunct (p : punctuator)
  | TSyntaxError
  | TUnsupported.

(** Reserved words (strict mode) other than the ones the interpreter
    gives a meaning to: [true], [false], [null], [this], [return]. *)
Definition unsupported_words : list string :=
  [ "break"; "case"; "catch"; "class"; "const"; "continue"; "debugger";
    "default"; "delete"; "do"; "else"; "enum"; "export"; "extends";
    "finally"; "for"; "function"; "if"; "import"; "in"; "instanceof";
    "new"; "super"; "switch"; "throw"; "try"; "typeof"; "var"; "void";
    "while"; "with"; "implements"; "interface"; "let"; "package";
    "private"; "protected"; "public"; "static"; "yield"; "await" ].

Definition mem_string (s : string) (l : list string) : bool :=
  List.existsb (String.eqb s) l.

Definition dquote : ascii := "034"%char.

Definition is_line_terminator (c : ascii) : bool :=
  (code c =? 10)%N || (code c =? 13)%N.

(** A character that may continue an identifier or start one, other than
    a letter or a digit: [$], [_], a backslash, or a code unit above 127
    that is not white space. *)
Definition is_other_identifier_char (c : ascii) : bool :=
  Ascii.eqb c "$" || Ascii.eqb c "_" || Ascii.eqb c "\"
  || ((128 <=? code c)%N && negb (is_whitespace c)).

Definition starts_with (p : ascii -> bool) (s : string) : bool :=
  match s with
  | String c _ => p c
  | EmptyString => false
  end.

(** The text after the first [*/] of [s], if there is one, and whether a
    line terminator was passed on the way. *)
Fixpoint after_block_comment (s : string) (lt : bool) : option (string * bool) :=
  match s with
  | EmptyString => None
  | String c s' =>
      match s' with
      | String "/" rest =>
          if Ascii.eqb c "*" then Some (rest, lt)
          else after_block_comment s' (lt || is_line_terminator c)
      | _ => after_block_comment s' (lt || is_line_terminator c)
      end
  end.

(** The decimal literal at the start of [s]: its token and the text after
    it.  An identifier character right after a literal is an error, except
    the suffix [n] of a BigInt literal. *)
Definition lex_decimal (s : string) : token * string :=
  match scan_decimal s with
  | Some (m, e10, rest) =>
      if starts_with is_other_identifier_char rest
      then (TUnsupported, EmptyString)
      else if starts_with is_letter rest
      then
        if starts_with (Ascii.eqb "n") rest
           && String.eqb (snd (span is_digit s)) rest
        then (TUnsupported, EmptyString)
        else (TSyntaxError, EmptyString)
      else (TNumber (float_of_decimal false m e10), rest)
  | None => (TSyntaxError, EmptyString)
  end.

(** A numeric literal at the start of [s] (which starts with a digit, or
    with a dot and a digit).  In strict mode code a literal [0] followed by
    a digit is an error; [0x], [0o] and [0b] literals are not modelled. *)
Definition lex_number (s : string) : token * string :=
  match s with
  | String "0" (String c _) =>
      if is_digit c then (TSyntaxError, EmptyString)
      else if Str.existsb (Ascii.eqb c) "xXoObB" then (TUnsupported, EmptyString)
      else lex_decimal s
  | _ => lex_decimal s
  end.

(** The token at the start of [s] (which starts with [c]) and the text
    after it; [None] for white space and comments. *)
Definition lex_one (c : ascii) (r : string) : option token * string :=
  let s := String c r in
  if is_line_terminator c then (Some TUnsupported, EmptyString)
  else if is_whitespace c then (None, r)
  else if is_digit c || (Ascii.eqb c "." && starts_with is_digit r)
  then let (t, rest) := lex_number s in (Some t, rest)
  else if is_letter c then
    let (name, rest) := span (fun x => is_letter x || is_digit x) s in
    if starts_with is_other_identifier_char rest
    then (Some TUnsupported, EmptyString)
    else if mem_string name unsupported_words
    then (Some TUnsupported, EmptyString)
    else (Some (TName name), rest)
  else if Ascii.eqb c dquote then
    let (body, rest) := span (fun x => negb (Ascii.eqb x dquote)) r in
    match rest with
    | String _ rest' =>
        if Str.existsb (fun x => Ascii.eqb x "\" || is_line_terminator x) body
        then (Some TUnsupported, EmptyString)
        else (Some (TString body), rest')
    | EmptyString => (Some TSyntaxError, EmptyString)
    end
  else if Ascii.eqb c "(" then (Some (TPunct LParen), r)
  else if Ascii.eqb c ")" then (Some (TPunct RParen), r)
  else if Ascii.eqb c ";" then (Some (TPunct Semicolon), r)
  else if Ascii.eqb c "%" then (Some (TPunct Percent), r)
  else if Ascii.eqb c "." then
    if String.prefix ".." r then (Some TUnsupported, EmptyString)
    else (Some (TPunct Dot), r)
  else if Ascii.eqb c "+" then
    if starts_with (Ascii.eqb "+") r then (Some TUnsupported, EmptyString)
    else (Some (TPunct Plus), r)
  else if Ascii.eqb c "-" then
    if starts_with (Ascii.eqb "-") r then (Some TUnsupported, EmptyString)
    else (Some (TPunct Minus), r)
  else if Ascii.eqb c "*" then
    match r with
    | String "*" r' => (Some (TPunct StarStar), r')
    | _ => (Some (TPunct Star), r)
    end
  else if Ascii.eqb c "/" then
    match r with
    | String "/" r' =>
        (None, Str.drop_while (fun x => negb (is_line_terminator x)) r')
    | String "*" r' =>
        match after_block_comment r' false with
        | Some (rest, false) => (None, rest)
        | Some (_, true) => (Some TUnsupported, EmptyString)
        | None => (Some TSyntaxError, EmptyString)
        end
    | _ => (Some (TPunct Slash), r)
    end
  else (Some TUnsupported, EmptyString).

Fixpoint lex (fuel : nat) (s : string) : list token :=
  match fuel with
  | O => [TUnsupported]
  | S fuel' =>
      match s with
      | EmptyString => []
      | String c r =>
          match lex_one c r with
          | (Some t, rest) => t :: lex fuel' rest
          | (None, rest) => lex fuel' rest
          end
      end
  end.

Definition tokens (s : string) : list token := lex (S (String.length s)) s.

End JS.

Module JSParse.
Import JS.

Inductive unop : Type := UPlus | UMinus.

Inductive binop : Type := Add | Sub | Mul | Div | Rem | Exp.

Inductive expr : Type :=
  | ENumber (x : float)
  | EName (n : string)
  | EUnary (op : unop) (e : expr)
  | EBinary (op : binop) (a b : expr)
  | ECall0 (f : expr)
  | ECall1 (f : expr) (arg : expr)
  | EMember (e : expr) (n : string).

Inductive parsed (A : Type) : Type :=
  | Parsed (a : A) (rest : list token)
  | SyntaxError
  | Unsupported.

Arguments Parsed {A} a rest.
Arguments SyntaxError {A}.
Arguments Unsupported {A}.

Definition and_then {A B : Type}
  (r : parsed A) (k : A -> list token -> parsed B) : parsed B :=
  match r with
  | Parsed a rest => k a rest
  | SyntaxError => SyntaxError
  | Unsupported => Unsupported
  end.

(** Expect a closing parenthesis after a parsed expression. *)
Definition close_paren {A : Type}
  (e : expr) (ts : list token) (k : expr -> list token -> parsed A) : parsed A :=
  match ts with
  | TPunct RParen :: rest => k e rest
  | _ => SyntaxError
  end.

(** Recursive descent over the expression grammar of ECMAScript, for the
    operators [+ - * / % **], unary [+] and [-], calls with at most one
    argument, member access and parentheses.  A unary expression may not
    be the left operand of [**]. *)
Fixpoint parse_additive (fuel : nat) (ts : list token) : parsed expr :=
  match fuel with
  | O => Unsupported
  | S f => and_then (parse_multiplicative f ts) (additive_tail f)
  end

with additive_tail (fuel : nat) (lhs : expr) (ts : list token) : parsed expr :=
  match fuel with
  | O => Unsupported
  | S f =>
      match ts with
      | TPunct Plus :: rest =>
          and_then (parse_multiplicative f rest)
            (fun r => additive_tail f (EBinary Add lhs r))
      | TPunct Minus :: rest =>
          and_then (parse_multiplicative f rest)
            (fun r => additive_tail f (EBinary Sub lhs r))
      | _ => Parsed lhs ts
      end
  end

with parse_multiplicative (fuel : nat) (ts : list token) : parsed expr :=
  match fuel with
  | O => Unsupported
  | S f => and_then (parse_exponentiation f ts) (multiplicative_tail f)
  end

with multiplicative_tail (fuel : nat) (lhs : expr) (ts : list token) : parsed expr :=
  match fuel with
  | O => Unsupported
  | S f =>
      match ts with
      | TPunct Star :: rest =>
          and_then (parse_exponentiation f rest)
            (fun r => multiplicative_tail f (EBinary Mul lhs r))
      | TPunct Slash :: rest =>
          and_then (parse_exponentiation f rest)
            (fun r => multiplicative_tail f (EBinary Div lhs r))
      | TPunct Percent :: rest =>
          and_then (parse_exponentiation f rest)
            (fun r => multiplicative_tail f (EBinary Rem lhs r))
      | _ => Parsed lhs ts
      end
  end

with parse_exponentiation (fuel : nat) (ts : list token) : parsed expr :=
  match fuel with
  | O => Unsupported
  | S f =>
      match ts with
      | TPunct Plus :: _ | TPunct Minus :: _ =>
          and_then (parse_unary f ts)
            (fun e rest =>
               match rest with
               | TPunct StarStar :: _ => SyntaxError
               | _ => Parsed e rest
               end)
      | _ =>
          and_then (parse_left_hand_side f ts)
            (fun e rest =>
               match rest with
               | TPunct StarStar :: rest' =>
                   and_then (parse_exponentiation f rest')
                     (fun r rest'' => Parsed (EBinary Exp e r) rest'')
               | _ => Parsed e rest
               end)
      end
  end

with parse_unary (fuel : nat) (ts : list token) : parsed expr :=
  match fuel with
  | O => Unsupported
  | S f =>
      match ts with
      | TPunct Plus :: rest =>
          and_then (parse_unary f rest)
            (fun e rest' => Parsed (EUnary UPlus e) rest')
      | TPunct Minus :: rest =>
          and_then (parse_unary f rest)
            (fun e rest' => Parsed (EUnary UMinus e) rest')
      | _ => parse_left_hand_side f ts
      end
  end

with parse_left_hand_side (fuel : nat) (ts : list token) : parsed expr :=
  match fuel with
  | O => Unsupported
  | S f => and_then (parse_primary f ts) (left_hand_side_tail f)
  end

with left_hand_side_tail (fuel : nat) (e : expr) (ts : list token) : parsed expr :=
  match fuel with
  | O => Unsupported
  | S f =>
      match ts with
      | TPunct Dot :: TName n :: rest => left_hand_side_tail f (EMember e n) rest
      | TPunct Dot :: _ => SyntaxError
      | TPunct LParen :: TPunct RParen :: rest =>
          left_hand_side_tail f (ECall0 e) rest
      | TPunct LParen :: rest =>
          and_then (parse_additive f rest)
            (fun a rest' =>
               close_paren a rest'
                 (fun a' => left_hand_side_tail f (ECall1 e a')))
      | _ => Parsed e ts
      end
  end

with parse_primary (fuel : nat) (ts : list token) : parsed expr :=
  match fuel with
  | O => Unsupported
  | S f =>
      match ts with
      | TNumber x :: rest => Parsed (ENumber x) rest
      | TName n :: rest =>
          if String.eqb n "return" then SyntaxError else Parsed (EName n) rest
      | TPunct LParen :: rest =>
          and_then (parse_additive f rest)
            (fun e rest' => close_paren e rest' (fun e' r => Parsed e' r))
      | TString _ :: _ => Unsupported
      | TPunct Slash :: _ => Unsupported
      | TUnsupported :: _ => Unsupported
      | _ => SyntaxError
      end
  end.

End JSParse.

Module JSEval.
Import JS JSParse.

(** ToNumber, for the values whose conversion does not run code of a
    function object. *)
Definition to_number (v : value) : option float :=
  match v with
  | VUndefined => Some nan
  | VNull => Some zero
  | VBoolean true => Some one
  | VBoolean false => Some zero
  | VNumber x => Some x
  | VNative _ => None
  end.

Definition environment : Type := list (string * value).

Fixpoint lookup (n : string) (env : environment) : option value :=
  match env with
  | [] => None
  | (k, v) :: env' => if String.eqb n k then Some v else lookup n env'
  end.

(** An identifier reference or a keyword literal.  The literals [true],
    [false], [null] and [this] come first (in a strict function called
    without a receiver [this] is [undefined]); then the parameters; then
    the value properties every global object has.  Any other name is a
    property of the host's global object, and is not modelled. *)
Definition resolve (env : environment) (n : string) : option value :=
  if String.eqb n "true" then Some (VBoolean true)
  else if String.eqb n "false" then Some (VBoolean false)
  else if String.eqb n "null" then Some VNull
  else if String.eqb n "this" then Some VUndefined
  else
    match lookup n env with
    | Some v => Some v
    | None =>
        if String.eqb n "undefined" then Some VUndefined
        else if String.eqb n "NaN" then Some (VNumber nan)
        else if String.eqb n "Infinity" then Some (VNumber infinity)
        else None
    end.

Section Eval.

(** The operator [**] on Numbers (Number::exponentiate). *)
Variable Number_exponentiate : float -> float -> float.

Definition apply_binop (op : binop) (x y : float) : float :=
  match op with
  | Add => PrimFloat.add x y
  | Sub => PrimFloat.sub x y
  | Mul => PrimFloat.mul x y
  | Div => PrimFloat.div x y
  | Rem => Number_remainder x y
  | Exp => Number_exponentiate x y
  end.

Definition apply_unop (op : unop) (x : float) : float :=
  match op with
  | UPlus => x
  | UMinus => PrimFloat.opp x
  end.

(** A call with one argument value ([undefined] when the argument list is
    empty): a [TypeError] unless the callee is a function. *)
Definition call (vf va : value) : option completion :=
  match vf with
  | VNative g =>
      match to_number va with
      | Some x => Some (Normal (VNumber (g x)))
      | None => None
      end
  | _ => Some Throw
  end.

(** Evaluation: [None] where the meaning is outside the model, otherwise
    the completion.  Operands are evaluated left to right before any
    conversion takes place. *)
Fixpoint eval (env : environment) (e : expr) : option completion :=
  match e with
  | ENumber x => Some (Normal (VNumber x))
  | EName n =>
      match resolve env n with
      | Some v => Some (Normal v)
      | None => None
      end
  | EUnary op a =>
      match eval env a with
      | Some (Normal v) =>
          match to_number v with
          | Some x => Some (Normal (VNumber (apply_unop op x)))
          | None => None
          end
      | r => r
      end
  | EBinary op a b =>
      match eval env a with
      | Some (Normal va) =>
          match eval env b with
          | Some (Normal vb) =>
              match to_number va, to_number vb with
              | Some x, Some y => Some (Normal (VNumber (apply_binop op x y)))
              | _, _ => None
              end
          | r => r
          end
      | r => r
      end
  | ECall0 f =>
      match eval env f with
      | Some (Normal vf) => call vf VUndefined
      | r => r
      end
  | ECall1 f a =>
      match eval env f with
      | Some (Normal vf) =>
          match eval env a with
          | Some (Normal va) => call vf va
          | r => r
          end
      | r => r
      end
  | EMember a _ =>
      match eval env a with
      | Some (Normal VUndefined) | Some (Normal VNull) => Some Throw
      | Some (Normal _) => None
      | r => r
      end
  end.

(** A formal parameter the model accepts: letters and digits, starting
    with a letter, and not a keyword. *)
Definition plain_identifier (n : string) : bool :=
  starts_with is_letter n
  && Str.forallb (fun c => is_letter c || is_digit c) n
  && negb (mem_string n unsupported_words)
  && negb (mem_string n ["true"; "false"; "null"; "this"; "return";
                         "eval"; "arguments"]).

Fixpoint distinct (l : list string) : bool :=
  match l with
  | [] => true
  | x :: l' => negb (mem_string x l') && distinct l'
  end.

(** The body of a function of the shape
    ["use strict"; return <expression>;], run with [params] bound to
    [args].  The final semicolon may be missing (it is inserted at the end
    of the input).  A [return] without an expression returns [undefined];
    statements after the first are not modelled. *)
Definition js_fragment
  (params : list string) (body : string) (args : list value) : option completion :=
  if negb (List.forallb plain_identifier params && distinct params
           && (List.length params =? List.length args)%nat)
  then None
  else
    let ts := tokens body in
    if List.existsb (fun t => match t with TUnsupported => true | _ => false end) ts
    then None
    else
      match ts with
      | TString "use strict" :: TPunct Semicolon :: TName "return" :: rest =>
          match rest with
          | [] | [TPunct Semicolon] => Some (Normal VUndefined)
          | TPunct Semicolon :: _ => None
          | _ =>
              match parse_additive (8 * List.length rest + 8) rest with
              | Parsed e [] | Parsed e [TPunct Semicolon] =>
                  eval (List.combine params args) e
              | Parsed _ (TPunct Semicolon :: _ :: _) => None
              | Parsed _ _ => Some Throw
              | SyntaxError => Some Throw
              | Unsupported => None
              end
          end
      | _ => None
      end.

End Eval.

(** An engine conforms when it agrees with the interpreter wherever the
    interpreter is defined: there the code completes as the interpreter
    says, whatever the state of the page, and raises no event. *)
Definition conforms (pow : float -> float -> float) (E : engine) : Prop :=
  forall params body args c st,
    js_fragment pow params body args = Some c ->
    E params body args st = Return c.

(** The interpreter completed to an engine: an exception where the
    interpreter is undefined. *)
Definition reference_engine (pow : float -> float -> float) : engine :=
  fun params body args _ =>
    Return match js_fragment pow params body args with
           | Some c => c
           | None => Throw
           end.

End JSEval.

(* ================================================================= *)
(** * The calculator *)

(** What [evaluateExpression] returns: a Number, ["Error"] or [""]. *)
Inductive outcome : Type :=
  | Value (x : float)
  | Error
  | Empty.

(** The implementation-approximated functions of the [Math] object that
    the calculator uses.  [Math.log10] may be missing. *)
Record MathLib : Type := {
  Math_sin : float -> float;
  Math_cos : float -> float;
  Math_tan : float -> float;
  Math_log : float -> float;
  Math_log10 : option (float -> float)
}.

Definition set_expression (e : string) (st : state) : state :=
  {| expression := e; lastResult := lastResult st; angleMode := angleMode st;
     history := history st; displayMain := displayMain st;
     displayExpression := displayExpression st;
     errorAnimations := errorAnimations st |}.

Definition set_lastResult (r : option float) (st : state) : state :=
  {| expression := expression st; lastResult := r; angleMode := angleMode st;
     history := history st; displayMain := displayMain st;
     displayExpression := displayExpression st;
     errorAnimations := errorAnimations st |}.

Definition set_angleMode (m : angle_mode) (st : state) : state :=
  {| expression := expression st; lastResult := lastResult st; angleMode := m;
     history := history st; displayMain := displayMain st;
     displayExpression := displayExpression st;
     errorAnimations := errorAnimations st |}.

Definition set_history (h : list history_item) (st : state) : state :=
  {| expression := expression st; lastResult := lastResult st;
     angleMode := angleMode st; history := h; displayMain := displayMain st;
     displayExpression := displayExpression st;
     errorAnimations := errorAnimations st |}.

Definition set_displays (main line : string) (st : state) : state :=
  {| expression := expression st; lastResult := lastResult st;
     angleMode := angleMode st; history := history st;
     displayMain := main; displayExpression := line;
     errorAnimations := errorAnimations st |}.

Definition syncDisplay (st : state) : state :=
  {| expression := expression st; lastResult := lastResult st;
     angleMode := angleMode st; history := history st;
     displayMain :=
       if Str.is_empty (expression st) then "0" else expression st;
     displayExpression :=
       if Str.is_empty (expression st) then " " else expression st;
     errorAnimations := errorAnimations st |}.

Definition clearExpression (st : state) : state :=
  syncDisplay (set_expression "" st).

Definition deleteLastChar (st : state) : state :=
  syncDisplay (set_expression (Str.slice_0_m1 (expression st)) st).

Definition operators : string := "+-*/^".

Definition appendToExpression (token : string) (st : state) : state :=
  let lastChar := Str.slice_m1 (expression st) in
  let isOp := Str.includes operators token in
  let lastIsOp := Str.includes operators lastChar in
  syncDisplay
    (if isOp && (Str.is_empty (expression st) || lastIsOp)
     then set_expression (Str.slice_0_m1 (expression st) ++ token) st
     else set_expression (expression st ++ token) st).

Definition degToRad (x : float) : float :=
  PrimFloat.div (PrimFloat.mul x Math_PI) f180.

Definition showErrorAnimation (st : state) : state :=
  {| expression := expression st; lastResult := lastResult st;
     angleMode := angleMode st; history := history st;
     displayMain := displayMain st;
     displayExpression := displayExpression st;
     errorAnimations := S (errorAnimations st) |}.

(** [addToHistory(expr, res)] for a Number [res]: [unshift], then [pop]
    when the array has more than 20 entries. *)
Definition addToHistory (e : string) (r : float) (st : state) : state :=
  if negb (Number_isFinite r) || Str.is_empty e || Str.is_empty (trim e)
  then st
  else
    let h := {| expr := e; res := r |} :: history st in
    set_history (if (20 <? List.length h)%nat then List.removelast h else h) st.

Definition clearHistory (st : state) : state := set_history [] st.

(** The click handler [renderHistory] attaches to the [i]-th entry. *)
Definition historyItemClick (i : nat) (st : state) : state :=
  match List.nth_error (history st) i with
  | Some item => syncDisplay (set_expression (Number_toString (res item)) st)
  | None => st
  end.

Definition toggleAngleMode (st : state) : state :=
  set_angleMode (match angleMode st with DEG => RAD | RAD => DEG end) st.

(** How an event that the compiled code raises is delivered: by the
    page's own dispatcher, one frame further down the stack, or not at all
    when the stack is exhausted (the call then ends in a [RangeError]). *)
Definition delivery : Type := option (event -> state -> state).

Section Calculator.

Variable Function_call : engine.
Variable M : MathLib.

Definition parameter_names : list string :=
  ["sin"; "cos"; "tan"; "log"; "ln"; "sqrt"; "PI"; "E"; "Ans"].

Definition function_body (e : string) : string :=
  String JS.dquote "use strict" ++ String JS.dquote "; return (" ++ e ++ ");".

Definition sinImpl (useDeg : bool) (x : float) : float :=
  Math_sin M (if useDeg then degToRad x else x).

Definition cosImpl (useDeg : bool) (x : float) : float :=
  Math_cos M (if useDeg then degToRad x else x).

Definition tanImpl (useDeg : bool) (x : float) : float :=
  Math_tan M (if useDeg then degToRad x else x).

Definition logImpl (x : float) : float :=
  match Math_log10 M with
  | Some log10 => log10 x
  | None => PrimFloat.div (Math_log M x) Math_LN10
  end.

Definition lnImpl (x : float) : float := Math_log M x.

Definition sqrtImpl (x : float) : float := PrimFloat.sqrt x.

Definition arguments (st : state) : list value :=
  let useDeg := match angleMode st with DEG => true | RAD => false end in
  let Ans := match lastResult st with Some x => x | None => zero end in
  [ VNative (sinImpl useDeg); VNative (cosImpl useDeg); VNative (tanImpl useDeg);
    VNative logImpl; VNative lnImpl; VNative sqrtImpl;
    VNumber Math_PI; VNumber Math_E; VNumber Ans ].

(** The result of the call, validated and rounded. *)
Definition validate (c : completion) (st : state) : outcome * state :=
  match c with
  | Throw => (Error, showErrorAnimation st)
  | Normal (VNumber result) =>
      if Number_isFinite result
      then (Value (StringToNumber (toFixed result 10)), st)
      else (Error, showErrorAnimation st)
  | Normal _ => (Error, showErrorAnimation st)
  end.

Section Handlers.

Variable deliver : delivery.

(** The writes and events of a reply take effect in turn, each in the
    state the one before left. *)
Fixpoint perform (r : reply) (st : state) : completion * state :=
  match r with
  | Return c => (c, st)
  | Write main line k =>
      let st' := set_displays main line st in perform (k st') st'
  | Raise ev k =>
      match deliver with
      | Some handle => let st' := handle ev st in perform (k st') st'
      | None => (Throw, st)
      end
  end.

(** [new Function(..., body)(sinImpl, ..., Ans)] for the sanitized text
    [e]: the completion of the call and the state it leaves.  The
    arguments are built before the call. *)
Definition call_function (e : string) (st : state) : completion * state :=
  perform (Function_call parameter_names (function_body e) (arguments st) st) st.

Definition evaluateExpression (rawExpr : string) (st : state) : outcome * state :=
  let e := remove_whitespace rawExpr in
  if Str.is_empty e then (Empty, st)
  else
    let e := remove_disallowed e in
    if Str.is_empty e then (Empty, st)
    else
      let e := replace_caret e in
      let e := replace_percent e in
      let (c, st1) := call_function e st in
      validate c st1.

Definition is_one_of (s : string) (l : list string) : bool :=
  List.existsb (String.eqb s) l.

Definition handleFunction (name : string) (st : state) : state :=
  if is_one_of name ["sin"; "cos"; "tan"; "log"; "ln"; "sqrt"]
  then syncDisplay (set_expression (expression st ++ name ++ "(") st)
  else if String.eqb name "square" then
    if Str.is_empty (expression st) then st
    else syncDisplay (set_expression ("(" ++ expression st ++ ")^2") st)
  else if String.eqb name "pi" then appendToExpression "PI" st
  else if String.eqb name "e" then appendToExpression "E" st
  else if String.eqb name "ans" then
    match lastResult st with
    | Some _ => appendToExpression "Ans" st
    | None => st
    end
  else st.

(** The last element of [expression.split(/[+\-*/^()]/)]: the text after
    the last separator. *)
Fixpoint last_part_from (acc : string) (s : string) : string :=
  match s with
  | EmptyString => Str.rev acc
  | String c s' =>
      if Str.existsb (Ascii.eqb c) "+-*/^()"
      then last_part_from EmptyString s'
      else last_part_from (String c acc) s'
  end.

Definition last_part (s : string) : string := last_part_from EmptyString s.

Definition equals (st : state) : state :=
  let exprToEval :=
    if Str.is_empty (expression st) then displayMain st else expression st in
  match evaluateExpression exprToEval st with
  | (Value result, st1) =>
      let st2 := addToHistory exprToEval result st1 in
      let st3 := set_lastResult (Some result) st2 in
      syncDisplay (set_expression (Number_toString result) st3)
  | (_, st1) => syncDisplay st1
  end.

Definition handleAction (action : string) (st : state) : state :=
  if String.eqb action "clear" then clearExpression st
  else if String.eqb action "delete" then deleteLastChar st
  else if String.eqb action "equals" then equals st
  else if String.eqb action "percent" then appendToExpression "%" st
  else if String.eqb action "dot" then
    if Str.includes (last_part (expression st)) "." then st
    else appendToExpression "." st
  else if String.eqb action "double-zero" then
    if Str.is_empty (expression st) then appendToExpression "0" st
    else appendToExpression "00" st
  else st.

(** A [data-*] attribute of the clicked button: [undefined] when the
    attribute is missing.  A string is truthy when it is not empty. *)
Definition truthy (s : option string) : bool :=
  match s with
  | Some t => negb (Str.is_empty t)
  | None => false
  end.

Definition text (s : option string) : string :=
  match s with
  | Some t => t
  | None => EmptyString
  end.

(** [handleKeypadClick] on a button with the given [data-value],
    [data-func] and [data-action]. *)
Definition handleKeypadClick (value func action : option string) (st : state) : state :=
  if truthy action then handleAction (text action) st
  else if truthy func then handleFunction (text func) st
  else
    match value with
    | Some v => appendToExpression v st
    | None => st
    end.

Definition handleKeyDown (key : string) (st : state) : state :=
  if Str.existsb is_digit key then appendToExpression key st
  else if is_one_of key ["+"; "-"; "*"; "/"; "^"; "("; ")"]
  then appendToExpression key st
  else if is_one_of key ["Enter"; "="] then handleAction "equals" st
  else if String.eqb key "Backspace" then handleAction "delete" st
  else if String.eqb key "Escape" then handleAction "clear" st
  else if String.eqb key "." then handleAction "dot" st
  else if String.eqb key "%" then handleAction "percent" st
  else if is_one_of key ["a"; "A"] then handleFunction "ans" st
  else if is_one_of key ["d"; "D"] then toggleAngleMode st
  else st.

(** The listeners registered at the end of the script. *)
Definition dispatch (ev : event) (st : state) : state :=
  match ev with
  | KeypadClick v f a => handleKeypadClick v f a st
  | KeyDown k => handleKeyDown k st
  | HistoryItemClick i => historyItemClick i st
  | ClearHistoryClick => clearHistory st
  | AngleToggleClick => toggleAngleMode st
  end.

End Handlers.

(** The delivery of raised events when [depth] more frames fit on the
    stack. *)
Fixpoint nested (depth : nat) : delivery :=
  match depth with
  | O => None
  | S d => Some (dispatch (nested d))
  end.

(** An event from the user, handled with [depth] frames to spare. *)
Definition step (depth : nat) (ev : event) (st : state) : state :=
  dispatch (nested depth) ev st.

Definition run (depth : nat) (evs : list event) (st : state) : state :=
  List.fold_left (fun s ev => step depth ev s) evs st.

End Calculator.

(** The state after the initialisation at [DOMContentLoaded]. *)
Definition initial_state : state :=
  clearExpression
    {| expression := ""; lastResult := None; angleMode := DEG; history := [];
       displayMain := ""; displayExpression := ""; errorAnimations := 0 |}.

(* ================================================================= *)
(** * Vocabulary of the properties *)

(** No two neighbouring characters of [s] are both operator characters. *)
Fixpoint no_adjacent_operators (s : string) : bool :=
  match s with
  | String a ((String b _) as s') =>
      negb (is_operator_char a && is_operator_char b) && no_adjacent_operators s'
  | _ => true
  end.

Definition operator_free (s : string) : bool :=
  Str.forallb (fun c => negb (is_operator_char c)) s.

(** A token is safe when no two operator characters are neighbours in it
    and it does not start with one, unless it is a single character. *)
Definition safe_token (t : string) : bool :=
  no_adjacent_operators t
  && (negb (JS.starts_with is_operator_char t) || (String.length t =? 1)%nat).

(** An event whose token, if it appends one, is safe: the value of a
    keypad button without action and function, and a key whose name holds
    a digit. *)
Definition safe_event (ev : event) : bool :=
  match ev with
  | KeypadClick v f a =>
      truthy a || truthy f
      || match v with Some t => safe_token t | None => true end
  | KeyDown k => negb (Str.existsb is_digit k) || safe_token k
  | _ => true
  end.

(** Every event of a reply, whatever the states it goes on in, satisfies
    [P]; and every reply of an engine does. *)
Inductive reply_events (P : event -> Prop) : reply -> Prop :=
  | events_Return (c : completion) : reply_events P (Return c)
  | events_Write (main line : string) (k : state -> reply) :
      (forall st, reply_events P (k st)) -> reply_events P (Write main line k)
  | events_Raise (ev : event) (k : state -> reply) :
      P ev -> (forall st, reply_events P (k st)) ->
      reply_events P (Raise ev k).

Definition raises_only (P : event -> Prop) (E : engine) : Prop :=
  forall params body args st, reply_events P (E params body args st).

(** The shape [\d+(\.\d+)?] of the literal the percent rewrite captures. *)
Definition all_digits (s : string) : bool := Str.forallb is_digit s.

Definition is_literal (s : string) : bool :=
  let (d1, r) := span is_digit s in
  negb (Str.is_empty d1)
  && match r with
     | EmptyString => true
     | String c r' =>
         Ascii.eqb c "." && negb (Str.is_empty r') && all_digits r'
     end.

Definition ends_with (p : ascii -> bool) (s : string) : bool :=
  JS.starts_with p (Str.slice_m1 s).

(** [lit] cannot be extended to the left within [pre ++ lit]: no
    non-empty suffix of [pre] followed by [lit] is a literal. *)
Fixpoint left_maximal (pre lit : string) : bool :=
  match pre with
  | EmptyString => true
  | String _ pre' => negb (is_literal (pre ++ lit)) && left_maximal pre' lit
  end.

Definition digit_or_dot (c : ascii) : bool := is_digit c || Ascii.eqb c ".".

(** The pattern of the percent rewrite matches at no position of [s]. *)
Fixpoint match_free (s : string) : bool :=
  match s with
  | EmptyString => true
  | String _ s' =>
      match match_percent s with
      | Some _ => false
      | None => match_free s'
      end
  end.

(** The characters a sanitized text is made of. *)
Definition kept (c : ascii) : bool := is_allowed c && negb (Ascii.eqb c "^").

(** An entry [addToHistory] accepts. *)
Definition accepted (e : string) (r : float) : bool :=
  Number_isFinite r && negb (Str.is_empty e) && negb (Str.is_empty (trim e)).

Definition push_all (items : list history_item) (st : state) : state :=
  List.fold_left (fun s it => addToHistory (expr it) (res it) s) items st.

(** The call returned a finite Number. *)
Definition finite_number (c : completion) : bool :=
  match c with
  | Normal (VNumber x) => Number_isFinite x
  | _ => false
  end.

(** The display shows the buffer, or [0] when the buffer is empty. *)
Definition synced (st : state) : Prop :=
  displayMain st = (if Str.is_empty (expression st) then "0" else expression st).

(** The text of a Number is free of operator characters, or consists of
    two such texts around one sign (the exponent's), the first of them not
    empty. *)
Definition number_text (s : string) : Prop :=
  operator_free s = true
  \/ exists a c b, s = a ++ String c b /\ a <> ""
                   /\ operator_free a = true /\ operator_free b = true.

(** A Number within [2^-35] of one half. *)
Definition half : float := 0.5%float.

Definition tolerance : float := Eval vm_compute in Z.ldexp one (-35).

Definition near_half (r : float) : bool :=
  PrimFloat.leb (PrimFloat.sub half tolerance) r
  && PrimFloat.leb r (PrimFloat.add half tolerance).

(** ** A concrete library and engine, for the instances below *)

(** The Taylor polynomial of the sine of degree 21, by Horner's rule. *)
Fixpoint sin_series (n : nat) (k : float) (x2 : float) : float :=
  match n with
  | O => one
  | S n' =>
      PrimFloat.sub one
        (PrimFloat.div (PrimFloat.mul x2 (sin_series n' (PrimFloat.add k two) x2))
           (PrimFloat.mul (PrimFloat.add k one) (PrimFloat.add k two)))
  end.

Definition taylor_sin (x : float) : float :=
  PrimFloat.mul x (sin_series 10 one (PrimFloat.mul x x)).

Definition sample_math : MathLib :=
  {| Math_sin := taylor_sin;
     Math_cos := fun x => taylor_sin (PrimFloat.add x (PrimFloat.div Math_PI two));
     Math_tan := fun x =>
       PrimFloat.div (taylor_sin x)
         (taylor_sin (PrimFloat.add x (PrimFloat.div Math_PI two)));
     Math_log := fun _ => nan;
     Math_log10 := None |}.

(** Exponentiation by repeated multiplication, for a natural exponent. *)
Fixpoint pow_nat (x : float) (n : nat) : float :=
  match n with
  | O => one
  | S n' => PrimFloat.mul x (pow_nat x n')
  end.

Definition sample_pow (x y : float) : float :=
  match Prim2SF y with
  | S754_zero _ => one
  | S754_finite false m e =>
      if 0 <=? e then pow_nat x (Z.to_nat (Zpos m * 2 ^ e))
      else if Zpos m mod 2 ^ (- e) =? 0
      then pow_nat x (Z.to_nat (Zpos m / 2 ^ (- e)))
      else nan
  | _ => nan
  end.

Definition sample_engine : engine := JSEval.reference_engine sample_pow.

(** A text over the sanitizer's alphabet that reaches two buttons of the
    keypad through the element with the id [keypad] (the host exposes it
    under that name) and clicks them; the sum of the two [undefined] it
    gets back is NaN. *)
Definition clicking_text : string :=
  "keypad.firstElementChild.click()+keypad.lastElementChild.click()".

(** Code that raises the events [evs] in turn and returns NaN. *)
Fixpoint raising (evs : list event) : reply :=
  match evs with
  | [] => Return (Normal (VNumber nan))
  | ev :: evs' => Raise ev (fun _ => raising evs')
  end.

(** A conforming engine for which every program outside the
    interpreter's fragment does that. *)
Definition raising_engine (evs : list event) : engine :=
  fun params body args _ =>
    match JSEval.js_fragment sample_pow params body args with
    | Some c => Return c
    | None => raising evs
    end.

(** The engine of a page whose keypad starts with the button [AC] and
    ends with the button [=]: [clicking_text] clicks the two. *)
Definition clicking_engine : engine :=
  raising_engine [ KeypadClick None None (Some "clear");
                   KeypadClick None None (Some "equals") ].

(** Twenty-one accepted entries, and a run of key presses. *)
Definition sample_items : list history_item :=
  List.map (fun n => {| expr := "1+1"; res := float_of_nat n |}) (List.seq 1 21).

Definition sample_keys : list event :=
  [ KeyDown "3"; KeyDown "+"; KeyDown "-"; KeyDown "4"; KeyDown "Enter";
    KeyDown "*"; KeyDown "/"; KeyDown "2" ].

(** ** Further vocabulary: inputs, displays, decimal points, events *)

(** A raw text with nothing to evaluate: every character is white space
    or outside the allowed class. *)
Definition nothing_to_evaluate (raw : string) : bool :=
  Str.forallb (fun c => is_whitespace c || negb (is_allowed c)) raw.

(** Both display elements show the buffer: the main display [0] and the
    expression line a space when the buffer is empty. *)
Definition shown (st : state) : Prop :=
  displayMain st = (if Str.is_empty (expression st) then "0" else expression st)
  /\ displayExpression st
     = (if Str.is_empty (expression st) then " " else expression st).

(** The separators of [expression.split(/[+\-*/^()]/)]. *)
Definition is_separator (c : ascii) : bool :=
  Str.existsb (Ascii.eqb c) "+-*/^()".

Definition is_dot (c : ascii) : bool := Ascii.eqb c ".".

(** Whether the segment that is open at the end of [s] contains a dot,
    given whether it did before [s]. *)
Fixpoint seen_dot (seen : bool) (s : string) : bool :=
  match s with
  | EmptyString => seen
  | String c s' =>
      if is_separator c then seen_dot false s'
      else if is_dot c then seen_dot true s'
      else seen_dot seen s'
  end.

(** No segment between separators has two dots. *)
Fixpoint one_dot_from (seen : bool) (s : string) : bool :=
  match s with
  | EmptyString => true
  | String c s' =>
      if is_separator c then one_dot_from false s'
      else if is_dot c then negb seen && one_dot_from true s'
      else one_dot_from seen s'
  end.

Definition one_dot_per_segment (s : string) : bool := one_dot_from false s.

Definition dot_free (s : string) : bool :=
  Str.forallb (fun c => negb (is_dot c)) s.

(** An event that brings no dot into the buffer except through the dot
    action. *)
Definition dot_free_event (ev : event) : bool :=
  match ev with
  | KeypadClick (Some v) _ _ => dot_free v
  | KeyDown k => negb (Str.existsb is_digit k) || dot_free k
  | _ => true
  end.

(** The events that commit, toggle the angle mode, and clear the
    ledger. *)
Definition is_commit (ev : event) : bool :=
  match ev with
  | KeypadClick _ _ a => truthy a && String.eqb (text a) "equals"
  | KeyDown k => negb (Str.existsb is_digit k) && is_one_of k ["Enter"; "="]
  | _ => false
  end.

Definition is_angle_toggle (ev : event) : bool :=
  match ev with
  | AngleToggleClick => true
  | KeyDown k => negb (Str.existsb is_digit k) && is_one_of k ["d"; "D"]
  | _ => false
  end.

Definition is_clear_history (ev : event) : bool :=
  match ev with
  | ClearHistoryClick => true
  | _ => false
  end.

(** A handler either leaves the buffer and both displays as they were,
    or ends with [syncDisplay]. *)
Definition display_kept (st st' : state) : Prop :=
  (expression st' = expression st
   /\ displayMain st' = displayMain st
   /\ displayExpression st' = displayExpression st)
  \/ exists s0, st' = syncDisplay s0.

(** Ans, the angle mode, the ledger and the animation count are as they
    were. *)
Definition session_kept (st st' : state) : Prop :=
  lastResult st' = lastResult st
  /\ angleMode st' = angleMode st
  /\ history st' = history st
  /\ errorAnimations st' = errorAnimations st.

Definition entries_accepted (st : state) : Prop :=
  List.Forall (fun it => accepted (expr it) (res it) = true) (history st).

(** A text without a dot, or with one dot between two such texts. *)
Definition at_most_one_dot (s : string) : Prop :=
  dot_free s = true
  \/ exists a b, s = a ++ String "." b /\ dot_free a = true /\ dot_free b = true.

(** The characters of the text of a Number. *)
Definition number_char (c : ascii) : bool :=
  is_digit c || Str.existsb (Ascii.eqb c) ".e+-NaInfity".

(** A character that can neither continue a literal nor end a match of
    the percent pattern. *)
Definition breaks_literal (c : ascii) : bool :=
  negb (digit_or_dot c) && negb (Ascii.eqb c "%").

(** The characters of a sanitized text, spelled out. *)
Definition in_sanitized_alphabet (c : ascii) : bool :=
  is_digit c || is_letter c || Str.existsb (Ascii.eqb c) "+-*/().%".

(* ================================================================= *)
(** * Strings: basic facts *)

Section StringFacts.

Lemma app_nil_r (s : string) : s ++ "" = s.
Proof. induction s as [|c s IH]; simpl; [reflexivity | now rewrite IH]. Qed.

Lemma app_assoc (a b c : string) : (a ++ b) ++ c = a ++ (b ++ c).
Proof. induction a as [|x a IH]; simpl; [reflexivity | now rewrite IH]. Qed.

Lemma length_app (a b : string) :
  String.length (a ++ b) = (String.length a + String.length b)%nat.
Proof. induction a as [|x a IH]; simpl; [reflexivity | now rewrite IH]. Qed.

Lemma is_empty_true (s : string) : Str.is_empty s = true <-> s = "".
Proof. destruct s; simpl; split; intros H; congruence. Qed.

Lemma is_empty_false (s : string) : Str.is_empty s = false <-> s <> "".
Proof. destruct s; simpl; split; intros H; congruence. Qed.

Lemma forallb_app (p : ascii -> bool) (a b : string) :
  Str.forallb p (a ++ b) = Str.forallb p a && Str.forallb p b.
Proof.
  induction a as [|x a IH]; simpl; [reflexivity|].
  now rewrite IH, andb_assoc.
Qed.

Lemma forallb_impl (p q : ascii -> bool) (s : string) :
  (forall c, p c = true -> q c = true) ->
  Str.forallb p s = true -> Str.forallb q s = true.
Proof.
  intros Hpq. induction s as [|c s IH]; simpl; [reflexivity|].
  rewrite !andb_true_iff. intros [Hc Hs]. split; auto.
Qed.

Lemma filter_forallb (p : ascii -> bool) (s : string) :
  Str.forallb p (Str.filter p s) = true.
Proof.
  induction s as [|c s IH]; simpl; [reflexivity|].
  destruct (p c) eqn:Hc; simpl; [now rewrite Hc|assumption].
Qed.

Lemma filter_id (p : ascii -> bool) (s : string) :
  Str.forallb p s = true -> Str.filter p s = s.
Proof.
  induction s as [|c s IH]; simpl; [reflexivity|].
  rewrite andb_true_iff. intros [Hc Hs]. now rewrite Hc, IH.
Qed.

Lemma filter_nonempty_exists (p : ascii -> bool) (s : string) :
  Str.filter p s <> "" -> Str.existsb p s = true.
Proof.
  induction s as [|c s IH]; simpl; [congruence|].
  destruct (p c); simpl; auto.
Qed.

End StringFacts.

(* ================================================================= *)
(** * The history ledger *)

Section Ledger.

Lemma firstn_app_firstn {A : Type} (n : nat) (a b : list A) :
  List.firstn n (a ++ List.firstn n b) = List.firstn n (a ++ b).
Proof.
  rewrite !List.firstn_app, List.firstn_firstn.
  f_equal. f_equal. lia.
Qed.

Lemma addToHistory_rejected (e : string) (r : float) (st : state) :
  accepted e r = false -> addToHistory e r st = st.
Proof.
  unfold accepted, addToHistory. intros H.
  destruct (Number_isFinite r), (Str.is_empty e), (Str.is_empty (trim e));
    simpl in *; congruence.
Qed.

Lemma addToHistory_accepted (e : string) (r : float) (st : state) :
  accepted e r = true ->
  history (addToHistory e r st) =
    let h := {| expr := e; res := r |} :: history st in
    if (20 <? List.length h)%nat then List.removelast h else h.
Proof.
  unfold accepted, addToHistory. intros H.
  destruct (Number_isFinite r), (Str.is_empty e), (Str.is_empty (trim e));
    simpl in *; try discriminate; reflexivity.
Qed.

Lemma addToHistory_firstn (e : string) (r : float) (st : state) :
  accepted e r = true ->
  (List.length (history st) <= 20)%nat ->
  history (addToHistory e r st) =
    List.firstn 20 ({| expr := e; res := r |} :: history st).
Proof.
  intros Ha Hlen. rewrite (addToHistory_accepted _ _ _ Ha). cbv zeta.
  destruct (20 <? _)%nat eqn:Hlt.
  - apply Nat.ltb_lt in Hlt. rewrite List.removelast_firstn_len.
    f_equal. simpl in *. lia.
  - apply Nat.ltb_ge in Hlt. symmetry. apply List.firstn_all2. exact Hlt.
Qed.

Lemma addToHistory_length (e : string) (r : float) (st : state) :
  (List.length (history st) <= 20)%nat ->
  (List.length (history (addToHistory e r st)) <= 20)%nat.
Proof.
  intros Hlen. destruct (accepted e r) eqn:Ha.
  - rewrite addToHistory_firstn by assumption. apply List.firstn_le_length.
  - now rewrite addToHistory_rejected.
Qed.

Lemma push_all_history (items : list history_item) :
  forall st,
    (List.length (history st) <= 20)%nat ->
    List.Forall (fun it => accepted (expr it) (res it) = true) items ->
    history (push_all items st) = List.firstn 20 (List.rev items ++ history st).
Proof.
  induction items as [|it items IH]; intros st Hlen Hall.
  - unfold push_all. cbn [List.fold_left List.rev List.app].
    symmetry. apply List.firstn_all2. exact Hlen.
  - inversion Hall as [|? ? Hit Hrest]; subst.
    unfold push_all. cbn [List.fold_left].
    change (List.fold_left _ items ?s) with (push_all items s).
    rewrite IH; [|now apply addToHistory_length|assumption].
    rewrite addToHistory_firstn by assumption.
    destruct it as [e r]. cbn [expr res List.rev].
    rewrite firstn_app_firstn, <- List.app_assoc. reflexivity.
Qed.

End Ledger.

(* ================================================================= *)
(** * Evaluation and commit *)

Section Evaluation.

Variable E : engine.
Variable M : MathLib.
Variable D : delivery.

(** [evaluateExpression] in terms of the sanitizer and the call. *)
Lemma evaluateExpression_nonempty (raw : string) (st : state) :
  remove_disallowed (remove_whitespace raw) <> "" ->
  evaluateExpression E M D raw st =
    validate (fst (call_function E M D (sanitize raw) st))
      (snd (call_function E M D (sanitize raw) st)).
Proof.
  intros Hne. unfold evaluateExpression, sanitize.
  destruct (Str.is_empty (remove_whitespace raw)) eqn:H1.
  - apply is_empty_true in H1. rewrite H1 in Hne. now elim Hne.
  - destruct (Str.is_empty (remove_disallowed (remove_whitespace raw))) eqn:H2.
    + apply is_empty_true in H2. now elim Hne.
    + now destruct (call_function E M D _ st).
Qed.

Lemma evaluateExpression_empty (raw : string) (st : state) :
  remove_disallowed (remove_whitespace raw) = "" ->
  evaluateExpression E M D raw st = (Empty, st).
Proof.
  intros He. unfold evaluateExpression.
  destruct (Str.is_empty (remove_whitespace raw)); [reflexivity|].
  now rewrite He.
Qed.

Lemma validate_finite (c : completion) (st : state) :
  finite_number c = true ->
  exists x, c = Normal (VNumber x) /\ Number_isFinite x = true
            /\ validate c st = (Value (StringToNumber (toFixed x 10)), st).
Proof.
  destruct c as [[| |b|x|f]|]; simpl; try discriminate.
  intros Hx. exists x. now rewrite Hx.
Qed.

Lemma validate_not_finite (c : completion) (st : state) :
  finite_number c = false -> validate c st = (Error, showErrorAnimation st).
Proof.
  destruct c as [[| |b|x|f]|]; simpl; try reflexivity.
  now intros ->.
Qed.

Lemma validate_state (c : completion) (st : state) :
  match fst (validate c st) with
  | Error => snd (validate c st) = showErrorAnimation st
  | _ => snd (validate c st) = st
  end.
Proof.
  destruct c as [[| |b|x|f]|]; simpl; try reflexivity.
  destruct (Number_isFinite x); reflexivity.
Qed.

(** Code that raises no event leaves the state as it is. *)
Lemma call_function_quiet (e : string) (st : state) (c : completion) :
  E parameter_names (function_body e) (arguments M st) st = Return c ->
  call_function E M D e st = (c, st).
Proof. unfold call_function. now intros ->. Qed.

(** A string with a character that is not white space is accepted by the
    guard of [addToHistory]. *)
Lemma existsb_drop_while (p : ascii -> bool) (s : string) :
  Str.existsb (fun c => negb (p c)) (Str.drop_while p s)
  = Str.existsb (fun c => negb (p c)) s.
Proof.
  induction s as [|c s IH]; simpl; [reflexivity|].
  destruct (p c) eqn:Hc; simpl; [exact IH|now rewrite Hc].
Qed.

Lemma existsb_rev_onto (q : ascii -> bool) (s acc : string) :
  Str.existsb q (Str.rev_onto s acc) = Str.existsb q s || Str.existsb q acc.
Proof.
  revert acc. induction s as [|c s IH]; intros acc; simpl; [reflexivity|].
  rewrite IH. simpl. destruct (q c), (Str.existsb q s); reflexivity.
Qed.

Lemma existsb_trim (s : string) :
  Str.existsb (fun c => negb (is_whitespace c)) (trim s)
  = Str.existsb (fun c => negb (is_whitespace c)) s.
Proof.
  unfold trim, Str.rev.
  rewrite existsb_rev_onto, existsb_drop_while, existsb_rev_onto,
    existsb_drop_while.
  simpl. now rewrite !orb_false_r.
Qed.

Lemma not_blank_accepted (s : string) :
  remove_whitespace s <> "" ->
  Str.is_empty s = false /\ Str.is_empty (trim s) = false.
Proof.
  intros Hne. apply filter_nonempty_exists in Hne.
  split.
  - destruct s; [discriminate Hne|reflexivity].
  - rewrite <- existsb_trim in Hne.
    destruct (trim s); [discriminate Hne|reflexivity].
Qed.

Lemma evaluateExpression_value (raw : string) (st : state) (v : float) :
  fst (evaluateExpression E M D raw st) = Value v ->
  remove_whitespace raw <> "".
Proof.
  unfold evaluateExpression.
  destruct (Str.is_empty (remove_whitespace raw)) eqn:H1; [discriminate|].
  intros _. now apply is_empty_false.
Qed.

(** ** What the evaluated code can do to an invariant of the page *)

Section Kept.

Variable I : state -> Prop.
Variable P : event -> Prop.

Hypothesis E_raises : raises_only P E.
Hypothesis I_delivered :
  forall handle ev st, D = Some handle -> P ev -> I st -> I (handle ev st).
Hypothesis I_written :
  forall main line st, I st -> I (set_displays main line st).
Hypothesis I_animation : forall st, I st -> I (showErrorAnimation st).

Lemma perform_kept (r : reply) :
  forall st, reply_events P r -> I st -> I (snd (perform D r st)).
Proof.
  induction r as [c|main line k IH|ev k IH]; intros st Hr Hst; cbn [perform].
  - exact Hst.
  - inversion Hr as [|main' line' k' Hk|]; subst.
    cbv zeta. apply IH; [apply Hk|]. now apply I_written.
  - inversion Hr as [| |ev' k' Hev Hk]; subst.
    destruct D as [handle|] eqn:HD; [|exact Hst].
    cbv zeta. apply IH; [apply Hk|].
    now apply (I_delivered handle).
Qed.

Lemma call_function_kept (e : string) (st : state) :
  I st -> I (snd (call_function E M D e st)).
Proof. intros Hst. unfold call_function. apply perform_kept; auto. Qed.

Lemma validate_kept (c : completion) (st : state) :
  I st -> I (snd (validate c st)).
Proof.
  intros Hst. pose proof (validate_state c st) as H.
  destruct (fst (validate c st)); rewrite H; auto.
Qed.

Lemma evaluateExpression_kept (raw : string) (st : state) :
  I st -> I (snd (evaluateExpression E M D raw st)).
Proof.
  intros Hst.
  destruct (Str.is_empty (remove_disallowed (remove_whitespace raw))) eqn:He.
  - apply is_empty_true in He. now rewrite evaluateExpression_empty.
  - apply is_empty_false in He. rewrite evaluateExpression_nonempty by exact He.
    now apply validate_kept, call_function_kept.
Qed.

End Kept.

End Evaluation.

Section Commit.

Variable E : engine.
Variable M : MathLib.
Variable D : delivery.

Lemma equals_unfold (st : state) :
  handleAction E M D "equals" st = equals E M D st.
Proof. reflexivity. Qed.

Lemma evaluate_conforming (pow : float -> float -> float)
  (raw : string) (st : state) (c : completion) :
  JSEval.conforms pow E ->
  remove_disallowed (remove_whitespace raw) <> "" ->
  JSEval.js_fragment pow parameter_names (function_body (sanitize raw))
    (arguments M st) = Some c ->
  evaluateExpression E M D raw st = validate c st.
Proof.
  intros Hc Hne Hrun. rewrite evaluateExpression_nonempty by assumption.
  now rewrite (call_function_quiet E M D _ st c (Hc _ _ _ _ st Hrun)).
Qed.

(** Every reply raises events of the trivial class. *)
Lemma reply_events_any (r : reply) : reply_events (fun _ => True) r.
Proof. induction r; constructor; auto. Qed.

Lemma raises_only_any : raises_only (fun _ => True) E.
Proof. intros params body args st. apply reply_events_any. Qed.

End Commit.

(** C6. A call that throws and a call that returns anything but a finite
    Number are reported alike: [Error], with one error animation.  With a
    conforming engine ["1/0"] is of the second kind (the quotient is
    infinite) and ["1/"] of the first, and both yield the same result. *)
Theorem non_finite_and_thrown_are_one_error :
  forall (E : engine) (M : MathLib) (D : delivery) (st : state),
    (forall raw,
        remove_disallowed (remove_whitespace raw) <> "" ->
        finite_number (fst (call_function E M D (sanitize raw) st)) = false ->
        evaluateExpression E M D raw st
        = (Error,
           showErrorAnimation (snd (call_function E M D (sanitize raw) st))))
    /\ (forall pow,
          JSEval.conforms pow E ->
          call_function E M D "1/0" st = (Normal (VNumber infinity), st)
          /\ call_function E M D "1/" st = (Throw, st)
          /\ evaluateExpression E M D "1/0" st = (Error, showErrorAnimation st)
          /\ evaluateExpression E M D "1/" st = (Error, showErrorAnimation st)).
Proof.
  intros E M D st. split.
  - intros raw Hne Hfin. rewrite evaluateExpression_nonempty by assumption.
    now apply validate_not_finite.
  - intros pow Hc.
    assert (H1 : JSEval.js_fragment pow parameter_names (function_body "1/0")
                   (arguments M st) = Some (Normal (VNumber infinity)))
      by (vm_compute; reflexivity).
    assert (H2 : JSEval.js_fragment pow parameter_names (function_body "1/")
                   (arguments M st) = Some Throw)
      by (vm_compute; reflexivity).
    split; [exact (call_function_quiet E M D _ st _ (Hc _ _ _ _ st H1))|].
    split; [exact (call_function_quiet E M D _ st _ (Hc _ _ _ _ st H2))|].
    split.
    + rewrite (evaluate_conforming E M D pow "1/0" st
                 (Normal (VNumber infinity)) Hc);
        [reflexivity|vm_compute; discriminate|exact H1].
    + rewrite (evaluate_conforming E M D pow "1/" st Throw Hc);
        [reflexivity|vm_compute; discriminate|exact H2].
Qed.

(* ================================================================= *)
(** * The percent rewrite *)

Section Percent.

Lemma span_eq (p : ascii -> bool) (s a b : string) :
  span p s = (a, b) ->
  s = a ++ b /\ Str.forallb p a = true /\ JS.starts_with p b = false.
Proof.
  revert a b. induction s as [|c s IH]; simpl; intros a b H.
  - inversion H; subst. now repeat split.
  - destruct (p c) eqn:Hc.
    + destruct (span p s) as [a' b'] eqn:Hs. inversion H; subst.
      destruct (IH a' b eq_refl) as (-> & Ha & Hb).
      simpl. rewrite Hc. now repeat split.
    + inversion H; subst. simpl. now rewrite Hc.
Qed.

Lemma span_app (p : ascii -> bool) (a b : string) :
  Str.forallb p a = true -> JS.starts_with p b = false ->
  span p (a ++ b) = (a, b).
Proof.
  intros Ha Hb. induction a as [|c a IH]; simpl in *.
  - destruct b as [|x b]; [reflexivity|]. simpl in *. now rewrite Hb.
  - apply andb_true_iff in Ha. destruct Ha as [Hc Ha].
    now rewrite Hc, (IH Ha).
Qed.

Lemma is_literal_cases (lit : string) :
  is_literal lit = true <->
  (exists d1, lit = d1 /\ d1 <> "" /\ all_digits d1 = true)
  \/ (exists d1 d2, lit = d1 ++ "." ++ d2 /\ d1 <> "" /\ d2 <> ""
                    /\ all_digits d1 = true /\ all_digits d2 = true).
Proof.
  unfold is_literal. split.
  - destruct (span is_digit lit) as [d1 r] eqn:Hs.
    destruct (span_eq _ _ _ _ Hs) as (-> & Hd1 & Hr).
    rewrite andb_true_iff, negb_true_iff, is_empty_false.
    intros [Hne Hrest]. destruct r as [|c r'].
    + left. exists d1. now rewrite app_nil_r.
    + rewrite !andb_true_iff, negb_true_iff, is_empty_false in Hrest.
      destruct Hrest as [[Hc Hr'] Hd2]. apply Ascii.eqb_eq in Hc. subst c.
      right. exists d1, r'. now repeat split.
  - intros [(d1 & -> & Hne & Hd1) | (d1 & d2 & -> & Hne1 & Hne2 & Hd1 & Hd2)].
    + rewrite <- (app_nil_r d1) at 1. rewrite span_app by (auto; reflexivity).
      apply is_empty_false in Hne. now rewrite Hne.
    + rewrite span_app by (auto; reflexivity).
      apply is_empty_false in Hne1, Hne2. simpl.
      now rewrite Hne1, Hne2, Hd2.
Qed.

Lemma match_percent_iff (s lit rest : string) :
  match_percent s = Some (lit, rest) <->
  is_literal lit = true /\ s = lit ++ "%" ++ rest.
Proof.
  split.
  - unfold match_percent.
    destruct (span is_digit s) as [d1 r1] eqn:Hs.
    destruct (span_eq _ _ _ _ Hs) as (-> & Hd1 & Hr1).
    destruct (Str.is_empty d1) eqn:He; [discriminate|].
    apply is_empty_false in He.
    destruct r1 as [|c r1']; [discriminate|].
    destruct (Ascii.eqb_spec c "%") as [->|Hnp].
    + intros H. inversion H; subst. split; [|reflexivity].
      apply is_literal_cases. left. now exists lit.
    + destruct (Ascii.eqb_spec c ".") as [->|Hnd].
      * destruct (span is_digit r1') as [d2 r3] eqn:Hs2.
        destruct (span_eq _ _ _ _ Hs2) as (-> & Hd2 & Hr3).
        destruct (Str.is_empty d2) eqn:He2; [discriminate|].
        apply is_empty_false in He2.
        destruct r3 as [|c3 r3']; [discriminate|].
        destruct (Ascii.eqb_spec c3 "%") as [->|Hnp3].
        -- intros H. inversion H; subst. split.
           ++ apply is_literal_cases. right. exists d1, d2. now repeat split.
           ++ now rewrite !app_assoc.
        -- intros H. exfalso. clear - H Hnp3.
           destruct c3 as [[] [] [] [] [] [] [] []]; try discriminate H.
           now elim Hnp3.
      * intros H. exfalso. clear - H Hnp Hnd.
        destruct c as [[] [] [] [] [] [] [] []]; try discriminate H.
        -- now elim Hnp.
        -- now elim Hnd.
  - intros [Hlit ->]. apply is_literal_cases in Hlit. unfold match_percent.
    destruct Hlit as [(d1 & -> & Hne & Hd1) | (d1 & d2 & -> & Hne1 & Hne2 & Hd1 & Hd2)].
    + rewrite span_app by (auto; reflexivity).
      apply is_empty_false in Hne. now rewrite Hne.
    + rewrite app_assoc. rewrite span_app by (auto; reflexivity).
      apply is_empty_false in Hne1. rewrite Hne1.
      cbn [append]. rewrite span_app by (auto; reflexivity).
      apply is_empty_false in Hne2. now rewrite Hne2.
Qed.

Lemma is_literal_nonempty (lit : string) : is_literal lit = true -> lit <> "".
Proof. destruct lit; [discriminate|discriminate]. Qed.

Lemma all_digits_digit_or_dot (d : string) :
  all_digits d = true -> Str.forallb digit_or_dot d = true.
Proof.
  apply forallb_impl. unfold digit_or_dot. intros c ->. reflexivity.
Qed.

Lemma is_literal_digit_or_dot (lit : string) :
  is_literal lit = true -> Str.forallb digit_or_dot lit = true.
Proof.
  intros H. apply is_literal_cases in H.
  destruct H as [(d1 & -> & _ & Hd1) | (d1 & d2 & -> & _ & _ & Hd1 & Hd2)].
  - now apply all_digits_digit_or_dot.
  - rewrite forallb_app. cbn [append Str.forallb].
    rewrite !all_digits_digit_or_dot by assumption. reflexivity.
Qed.

Lemma replace_percent_skip (a b : string) :
  replace_percent_from (String.length a) (a ++ b) = replace_percent_from 0 b.
Proof. induction a as [|c a IH]; simpl; [reflexivity | exact IH]. Qed.

Lemma replace_percent_match (s lit rest : string) :
  match_percent s = Some (lit, rest) ->
  replace_percent s = "(" ++ lit ++ "/100)" ++ replace_percent rest.
Proof.
  intros Hm. pose proof Hm as Hm'. apply match_percent_iff in Hm'.
  destruct Hm' as [Hlit ->]. unfold replace_percent.
  destruct lit as [|c lit']; [discriminate|].
  assert (Hskip : replace_percent_from (String.length (String c lit'))
                    ((lit' ++ "%") ++ rest) = replace_percent_from 0 rest).
  { replace (String.length (String c lit')) with (String.length (lit' ++ "%"))
      by (rewrite length_app; simpl; lia).
    apply replace_percent_skip. }
  rewrite app_assoc in Hskip.
  cbn [append] in Hm |- *. cbn [replace_percent_from]. rewrite Hm.
  cbn [append] in Hskip. rewrite Hskip. reflexivity.
Qed.

Lemma replace_percent_nomatch (c : ascii) (s : string) :
  match_percent (String c s) = None ->
  replace_percent (String c s) = String c (replace_percent s).
Proof.
  intros Hm. unfold replace_percent. cbn [replace_percent_from].
  now rewrite Hm.
Qed.

(** Induction along the scan of [replace_percent]. *)
Lemma replace_percent_ind (P : string -> Prop) :
  P "" ->
  (forall s lit rest, match_percent s = Some (lit, rest) -> P rest -> P s) ->
  (forall c s, match_percent (String c s) = None -> P s -> P (String c s)) ->
  forall s, P s.
Proof.
  intros Hnil Hmatch Hstep s.
  remember (String.length s) as n eqn:Hn.
  revert s Hn. induction n as [n IH] using lt_wf_ind. intros s Hn.
  destruct s as [|c s']; [exact Hnil|].
  destruct (match_percent (String c s')) as [[lit rest]|] eqn:Hm.
  - apply (Hmatch _ _ _ Hm). apply (IH (String.length rest)); [|reflexivity].
    apply match_percent_iff in Hm. destruct Hm as [_ Heq].
    subst n. rewrite Heq, !length_app. simpl. lia.
  - apply (Hstep _ _ Hm). apply (IH (String.length s')); [|reflexivity].
    subst n. simpl. lia.
Qed.

(** The first character outside a class determines the split. *)
Lemma split_unique (p : ascii -> bool) (a a' b b' : string) (x x' : ascii) :
  Str.forallb p a = true -> Str.forallb p a' = true ->
  p x = false -> p x' = false ->
  a ++ String x b = a' ++ String x' b' ->
  a = a' /\ x = x' /\ b = b'.
Proof.
  revert a'. induction a as [|c a IH]; intros a' Ha Ha' Hx Hx' Heq.
  - destruct a' as [|c' a']; simpl in *.
    + inversion Heq. auto.
    + inversion Heq; subst. apply andb_true_iff in Ha'. destruct Ha' as [Hc _].
      congruence.
  - destruct a' as [|c' a']; simpl in *.
    + inversion Heq; subst. apply andb_true_iff in Ha. destruct Ha as [Hc _].
      congruence.
    + inversion Heq; subst. apply andb_true_iff in Ha, Ha'.
      destruct Ha as [_ Ha], Ha' as [_ Ha'].
      destruct (IH a' Ha Ha' Hx Hx' H1) as (-> & -> & ->). auto.
Qed.

Lemma first_outside (p : ascii -> bool) (s : string) :
  Str.forallb p s = false ->
  exists v x w, s = v ++ String x w /\ Str.forallb p v = true /\ p x = false.
Proof.
  induction s as [|c s IH]; simpl; [discriminate|].
  destruct (p c) eqn:Hc; simpl.
  - intros H. destruct (IH H) as (v & x & w & -> & Hv & Hx).
    exists (String c v), x, w. simpl. now rewrite Hc.
  - intros _. exists "", c, s. auto.
Qed.

(** No match starts in a run of digits and dots that is followed by a
    character other than a digit, a dot or a percent sign. *)
Lemma match_percent_blocked (v w : string) (c : ascii) :
  Str.forallb digit_or_dot v = true ->
  digit_or_dot c = false -> c <> "%"%char ->
  match_percent (v ++ String c w) = None.
Proof.
  intros Hv Hc Hne.
  destruct (match_percent (v ++ String c w)) as [[lit rest]|] eqn:Hm;
    [|reflexivity].
  apply match_percent_iff in Hm. destruct Hm as [Hlit Heq].
  apply is_literal_digit_or_dot in Hlit. cbn [append] in Heq.
  assert (Hp : digit_or_dot "%" = false) by reflexivity.
  destruct (split_unique digit_or_dot _ _ _ _ _ _ Hv Hlit Hc Hp Heq)
    as (_ & Hx & _).
  now elim Hne.
Qed.

Lemma match_free_fixed (s : string) :
  match_free s = true -> replace_percent s = s.
Proof.
  induction s as [|c s IH]; [reflexivity|].
  cbn [match_free]. destruct (match_percent (String c s)) eqn:Hm; [discriminate|].
  intros H. rewrite replace_percent_nomatch by assumption. now rewrite IH.
Qed.

Lemma match_free_run (v x : string) (c : ascii) :
  Str.forallb digit_or_dot v = true ->
  digit_or_dot c = false -> c <> "%"%char ->
  match_free (String c x) = true ->
  match_free (v ++ String c x) = true.
Proof.
  intros Hv Hc Hne Hx. induction v as [|d v IH]; [exact Hx|].
  cbn [append match_free].
  change (String d (v ++ String c x)) with (String d v ++ String c x).
  rewrite match_percent_blocked by assumption.
  cbn [Str.forallb] in Hv. apply andb_true_iff in Hv. now apply IH.
Qed.

Lemma match_free_replacement (lit r : string) :
  is_literal lit = true -> match_free r = true ->
  match_free ("(" ++ lit ++ "/100)" ++ r) = true.
Proof.
  intros Hlit Hr. apply is_literal_digit_or_dot in Hlit.
  cbn [append]. cbn [match_free].
  change (match_percent (String "(" _)) with (@None (string * string)).
  cbv iota.
  apply match_free_run; [assumption|reflexivity|discriminate|].
  cbn [match_free].
  change (match_percent (String "/" _)) with (@None (string * string)).
  cbv iota.
  apply (match_free_run "100" r ")"); [reflexivity|reflexivity|discriminate|].
  cbn [match_free].
  change (match_percent (String ")" r)) with (@None (string * string)).
  exact Hr.
Qed.

(** A prefix of digits and dots ending in a percent sign was there before
    the rewrite. *)
Lemma replace_percent_prefix (s : string) :
  forall w t,
    Str.forallb digit_or_dot w = true ->
    replace_percent s = w ++ "%" ++ t ->
    exists t', s = w ++ "%" ++ t'.
Proof.
  induction s as [|c s IH]; intros w t Hw Heq.
  - destruct w; discriminate Heq.
  - destruct (match_percent (String c s)) as [[lit rest]|] eqn:Hm.
    + rewrite (replace_percent_match _ _ _ Hm) in Heq.
      destruct w as [|x w]; [discriminate Heq|].
      cbn [append] in Heq. inversion Heq; subst x.
      cbn in Hw. discriminate Hw.
    + rewrite (replace_percent_nomatch _ _ Hm) in Heq.
      destruct w as [|x w]; cbn [append] in Heq.
      * inversion Heq; subst. now exists s.
      * inversion Heq; subst x.
        cbn [Str.forallb] in Hw. apply andb_true_iff in Hw.
        destruct Hw as [_ Hw].
        destruct (IH w t Hw H1) as [t' ->]. now exists t'.
Qed.

Lemma replace_percent_match_free (s : string) :
  match_free (replace_percent s) = true.
Proof.
  induction s as [|s lit rest Hm IH|c s Hm IH] using replace_percent_ind.
  - reflexivity.
  - rewrite (replace_percent_match _ _ _ Hm).
    apply match_free_replacement; [|exact IH].
    now apply match_percent_iff in Hm.
  - rewrite (replace_percent_nomatch _ _ Hm). cbn [match_free].
    destruct (match_percent (String c (replace_percent s)))
      as [[lit r]|] eqn:Hm'; [|exact IH].
    exfalso. apply match_percent_iff in Hm'. destruct Hm' as [Hlit Heq].
    destruct lit as [|x lit']; [discriminate|].
    cbn [append] in Heq. inversion Heq; subst x.
    pose proof (is_literal_digit_or_dot _ Hlit) as Hdd.
    cbn [Str.forallb] in Hdd. apply andb_true_iff in Hdd.
    destruct Hdd as [_ Hdd].
    destruct (replace_percent_prefix s lit' r Hdd H1) as [t' ->].
    assert (Hs : match_percent (String c (lit' ++ "%" ++ t'))
                 = Some (String c lit', t'))
      by (apply match_percent_iff; split; [assumption|reflexivity]).
    congruence.
Qed.

Lemma replace_percent_idempotent (s : string) :
  replace_percent (replace_percent s) = replace_percent s.
Proof. apply match_free_fixed, replace_percent_match_free. Qed.

(** ** The text after sanitization *)

Lemma kept_facts (c : ascii) :
  kept c = true ->
  is_allowed c = true /\ is_whitespace c = false /\ Ascii.eqb c "^" = false.
Proof.
  destruct c as [[] [] [] [] [] [] [] []]; vm_compute; intros H;
    try discriminate H; now repeat split.
Qed.

Lemma replace_caret_kept (s : string) :
  Str.forallb is_allowed s = true -> Str.forallb kept (replace_caret s) = true.
Proof.
  induction s as [|c s IH]; [reflexivity|].
  cbn [Str.forallb replace_caret]. rewrite andb_true_iff. intros [Hc Hs].
  destruct (Ascii.eqb c "^") eqn:Hcaret.
  - cbn [append Str.forallb]. now rewrite IH.
  - cbn [Str.forallb]. unfold kept at 1. now rewrite Hc, Hcaret, IH.
Qed.

Lemma replace_caret_fixed (s : string) :
  Str.forallb kept s = true -> replace_caret s = s.
Proof.
  induction s as [|c s IH]; [reflexivity|].
  cbn [Str.forallb replace_caret]. rewrite andb_true_iff. intros [Hc Hs].
  destruct (kept_facts c Hc) as (_ & _ & ->). now rewrite IH.
Qed.

Lemma replace_percent_kept (s : string) :
  Str.forallb kept s = true -> Str.forallb kept (replace_percent s) = true.
Proof.
  induction s as [|s lit rest Hm IH|c s Hm IH] using replace_percent_ind.
  - reflexivity.
  - rewrite (replace_percent_match _ _ _ Hm).
    apply match_percent_iff in Hm. destruct Hm as [_ ->].
    rewrite !forallb_app, !andb_true_iff. intros (Hlit & _ & Hrest).
    repeat split; auto.
  - rewrite (replace_percent_nomatch _ _ Hm). cbn [Str.forallb].
    rewrite !andb_true_iff. intros [Hc Hs]. auto.
Qed.

Lemma sanitize_kept (s : string) : Str.forallb kept (sanitize s) = true.
Proof.
  unfold sanitize, remove_disallowed.
  apply replace_percent_kept, replace_caret_kept, filter_forallb.
Qed.

Lemma sanitize_match_free (s : string) : match_free (sanitize s) = true.
Proof. apply replace_percent_match_free. Qed.

(** ** The rewrite in context *)

Lemma slice_m1_app (a b : string) :
  b <> "" -> Str.slice_m1 (a ++ b) = Str.slice_m1 b.
Proof.
  intros Hb. induction a as [|c a IH]; [reflexivity|].
  cbn [append Str.slice_m1]. rewrite IH.
  destruct (a ++ b) eqn:Hab; [|reflexivity].
  destruct a; [simpl in Hab; contradiction|discriminate].
Qed.

Lemma ends_with_app (p : ascii -> bool) (a b : string) :
  b <> "" -> ends_with p (a ++ b) = ends_with p b.
Proof. intros Hb. unfold ends_with. now rewrite slice_m1_app. Qed.

Lemma ends_with_suffix_false (p : ascii -> bool) (a b : string) :
  ends_with p (a ++ b) = false -> ends_with p b = false.
Proof.
  destruct b as [|c b]; [reflexivity|].
  rewrite ends_with_app by discriminate. auto.
Qed.

Lemma all_digits_ends_with (d : string) :
  d <> "" -> all_digits d = true -> ends_with is_digit d = true.
Proof.
  unfold ends_with, all_digits. induction d as [|c d IH]; [congruence|].
  intros _. cbn [Str.forallb Str.slice_m1]. rewrite andb_true_iff.
  intros [Hc Hd]. destruct d as [|c' d']; [exact Hc|].
  apply IH; [discriminate|exact Hd].
Qed.

Lemma is_literal_ends_with_digit (lit : string) :
  is_literal lit = true -> ends_with is_digit lit = true.
Proof.
  intros H. apply is_literal_cases in H.
  destruct H as [(d1 & -> & Hne & Hd1) | (d1 & d2 & -> & _ & Hne & _ & Hd2)].
  - now apply all_digits_ends_with.
  - rewrite ends_with_app by (destruct d2; discriminate).
    change ("." ++ d2) with (String "." "" ++ d2).
    rewrite ends_with_app by assumption. now apply all_digits_ends_with.
Qed.

Lemma left_maximal_app (a b lit : string) :
  left_maximal (a ++ b) lit = true -> left_maximal b lit = true.
Proof.
  induction a as [|c a IH]; [auto|].
  cbn [append left_maximal]. rewrite andb_true_iff. intros [_ H]. auto.
Qed.

(** A match on a text is still a match when the text is extended. *)
Lemma match_percent_extend (s lit rest x : string) :
  match_percent s = Some (lit, rest) ->
  match_percent (s ++ x) = Some (lit, rest ++ x).
Proof.
  intros H. apply match_percent_iff in H. destruct H as [Hlit ->].
  apply match_percent_iff. split; [assumption|].
  now rewrite !app_assoc.
Qed.

(** A match on [pre ++ x], where [x] starts after a stretch of digits and
    dots of [y] with a percent sign, that is not a match on [pre] takes the
    whole of [pre ++ y]. *)
Lemma match_percent_across (pre y post : string) :
  Str.forallb digit_or_dot y = true ->
  match_percent pre = None ->
  forall lit rest,
    match_percent (pre ++ y ++ "%" ++ post) = Some (lit, rest) ->
    lit = pre ++ y.
Proof.
  intros Hy Hnone lit rest Hm.
  apply match_percent_iff in Hm. destruct Hm as [Hlit Heq].
  pose proof (is_literal_digit_or_dot _ Hlit) as Hdd.
  assert (Hp : digit_or_dot "%" = false) by reflexivity.
  destruct (Str.forallb digit_or_dot pre) eqn:Hpre.
  - rewrite <- app_assoc in Heq. cbn [append] in Heq.
    assert (Hall : Str.forallb digit_or_dot (pre ++ y) = true)
      by now rewrite forallb_app, Hpre, Hy.
    destruct (split_unique digit_or_dot _ _ _ _ _ _ Hall Hdd Hp Hp Heq)
      as (-> & _ & _).
    reflexivity.
  - exfalso. destruct (first_outside _ _ Hpre) as (v & x & w & -> & Hv & Hx).
    rewrite app_assoc in Heq. cbn [append] in Heq.
    destruct (split_unique digit_or_dot _ _ _ _ _ _ Hv Hdd Hx Hp Heq)
      as (-> & -> & _).
    assert (Hs : match_percent (lit ++ String "%" w) = Some (lit, w))
      by (apply match_percent_iff; now split).
    congruence.
Qed.

Lemma replace_percent_literal_in_context (pre : string) :
  forall lit post,
    is_literal lit = true -> left_maximal pre lit = true ->
    replace_percent (pre ++ lit ++ "%" ++ post)
    = replace_percent pre ++ "(" ++ lit ++ "/100)" ++ replace_percent post.
Proof.
  induction pre as [|pre l0 rest Hm IH|c pre Hm IH] using replace_percent_ind;
    intros lit post Hlit Hmax.
  - cbn [append]. apply replace_percent_match.
    apply match_percent_iff. now split.
  - rewrite (replace_percent_match _ _ _ (match_percent_extend _ _ _ _ Hm)).
    rewrite (replace_percent_match _ _ _ Hm).
    apply match_percent_iff in Hm. destruct Hm as [_ ->].
    rewrite IH; [|assumption|].
    + now rewrite !app_assoc.
    + rewrite <- app_assoc in Hmax. now apply left_maximal_app in Hmax.
  - cbn [left_maximal] in Hmax. apply andb_true_iff in Hmax.
    destruct Hmax as [Hnot Hmax]. apply negb_true_iff in Hnot.
    assert (Hnone : match_percent (String c pre ++ lit ++ "%" ++ post) = None).
    { destruct (match_percent (String c pre ++ lit ++ "%" ++ post))
        as [[l r]|] eqn:Hm'; [|reflexivity].
      pose proof Hm' as Hm''.
      apply (match_percent_across _ lit post
               (is_literal_digit_or_dot _ Hlit) Hm) in Hm''.
      apply match_percent_iff in Hm'. destruct Hm' as [Hl _].
      subst l. congruence. }
    cbn [append] in Hnone |- *.
    rewrite (replace_percent_nomatch _ _ Hnone), (replace_percent_nomatch _ _ Hm).
    cbn [append]. f_equal. now apply IH.
Qed.

Lemma replace_percent_bare_percent (pre : string) :
  forall post,
    ends_with is_digit pre = false ->
    replace_percent (pre ++ "%" ++ post)
    = replace_percent pre ++ "%" ++ replace_percent post.
Proof.
  induction pre as [|pre l0 rest Hm IH|c pre Hm IH] using replace_percent_ind;
    intros post Hend.
  - cbn [append]. now apply replace_percent_nomatch.
  - rewrite (replace_percent_match _ _ _ (match_percent_extend _ _ _ _ Hm)).
    rewrite (replace_percent_match _ _ _ Hm).
    apply match_percent_iff in Hm. destruct Hm as [_ ->].
    rewrite IH.
    + now rewrite !app_assoc.
    + rewrite <- app_assoc in Hend. now apply ends_with_suffix_false in Hend.
  - assert (Hnone : match_percent (String c pre ++ "%" ++ post) = None).
    { destruct (match_percent (String c pre ++ "%" ++ post))
        as [[l r]|] eqn:Hm'; [|reflexivity].
      pose proof Hm' as Hm''.
      apply (match_percent_across _ "" post eq_refl Hm) in Hm''.
      apply match_percent_iff in Hm'. destruct Hm' as [Hl _].
      rewrite app_nil_r in Hm''. subst l.
      apply is_literal_ends_with_digit in Hl. congruence. }
    cbn [append] in Hnone |- *.
    rewrite (replace_percent_nomatch _ _ Hnone), (replace_percent_nomatch _ _ Hm).
    cbn [append]. f_equal. apply IH.
    change (String c pre) with (String c "" ++ pre) in Hend.
    now apply ends_with_suffix_false in Hend.
Qed.

End Percent.

(** C7. Sanitization is idempotent: the four passes leave a sanitized text
    as it is. *)
Theorem sanitize_idempotent :
  forall s : string, sanitize (sanitize s) = sanitize s.
Proof.
  intros s. pose proof (sanitize_kept s) as Hk.
  pose proof (sanitize_match_free s) as Hf.
  generalize dependent (sanitize s). intros t Hk Hf.
  unfold sanitize, remove_whitespace, remove_disallowed.
  rewrite (filter_id _ t).
  - rewrite (filter_id _ t).
    + rewrite (replace_caret_fixed _ Hk). now apply match_free_fixed.
    + revert Hk. apply forallb_impl. intros c Hc. now apply kept_facts in Hc.
  - revert Hk. apply forallb_impl. intros c Hc.
    apply kept_facts in Hc. destruct Hc as (_ & -> & _). reflexivity.
Qed.

(** C5, as amended.  A run of digits, with or without a dot and more
    digits after it, followed by a percent sign is rewritten to the
    parenthesized division by 100, wherever it stands, when it cannot be
    extended to the left; the text before it and the text after it are
    rewritten on their own.  With a conforming engine ["50%"] evaluates to
    0.5 in every state.  A literal that begins or ends with its dot is not
    such a run: of [".5%"] only the digits after the dot are rewritten,
    ["5.%"] is left as it is, and neither evaluates. *)
Theorem percent_literal_is_divided_by_100 :
  (forall pre lit post,
      is_literal lit = true -> left_maximal pre lit = true ->
      replace_percent (pre ++ lit ++ "%" ++ post)
      = replace_percent pre ++ "(" ++ lit ++ "/100)" ++ replace_percent post)
  /\ sanitize "50%" = "(50/100)"
  /\ (forall pow E M D st,
        JSEval.conforms pow E ->
        evaluateExpression E M D "50%" st = (Value 0.5%float, st))
  /\ (forall d, is_literal ("." ++ d) = false)
  /\ (forall d, all_digits d = true -> is_literal (d ++ ".") = false)
  /\ sanitize ".5%" = ".(5/100)"
  /\ sanitize "5.%" = "5.%"
  /\ (forall pow E M D st,
        JSEval.conforms pow E ->
        evaluateExpression E M D ".5%" st = (Error, showErrorAnimation st)
        /\ evaluateExpression E M D "5.%" st = (Error, showErrorAnimation st)).
Proof.
  split; [|split; [|split; [|split; [|split; [|split; [|split]]]]]].
  - intros pre lit post. apply replace_percent_literal_in_context.
  - reflexivity.
  - intros pow E M D st Hc.
    rewrite (evaluate_conforming E M D pow "50%" st
               (Normal (VNumber 0.5%float)) Hc);
      [reflexivity|vm_compute; discriminate|vm_compute; reflexivity].
  - intros d. reflexivity.
  - intros d Hd. unfold is_literal.
    assert (Hspan : span is_digit (d ++ ".") = (d, "."%string)).
    { induction d as [|c d IH]; [reflexivity|].
      cbn [all_digits Str.forallb] in Hd. apply andb_true_iff in Hd.
      destruct Hd as [Hc Hd]. cbn [append span]. rewrite Hc.
      unfold all_digits in IH. now rewrite (IH Hd). }
    rewrite Hspan. cbn. apply andb_false_r.
  - reflexivity.
  - reflexivity.
  - intros pow E M D st Hc. split.
    + rewrite (evaluate_conforming E M D pow ".5%" st Throw Hc);
        [reflexivity|vm_compute; discriminate|vm_compute; reflexivity].
    + rewrite (evaluate_conforming E M D pow "5.%" st Throw Hc);
        [reflexivity|vm_compute; discriminate|vm_compute; reflexivity].
Qed.

(** C5, as stated, fails: [.5] is a numeric literal (it evaluates to 0.5)
    and is followed by a percent sign in [".5%"], but the rewrite does not
    give ["(.5/100)"]: it takes the digit after the dot alone, and the
    text that results does not evaluate. *)
Lemma leading_dot_literal_is_split :
  evaluateExpression sample_engine sample_math None ".5" initial_state
  = (Value 0.5%float, initial_state)
  /\ sanitize ".5%" = ".(5/100)"
  /\ sanitize ".5%" <> "(.5/100)"
  /\ evaluateExpression sample_engine sample_math None ".5%" initial_state
     = (Error, showErrorAnimation initial_state).
Proof.
  split; [vm_compute; reflexivity|].
  split; [reflexivity|]. split; [discriminate|].
  vm_compute. reflexivity.
Qed.

(** C10. A percent sign that does not follow a digit is left in place by
    the rewrite.  In ["(3+2)%3"] it is parsed as the remainder operator,
    and with a conforming engine the text evaluates to 2. *)
Theorem bare_percent_is_remainder :
  (forall pre post,
      ends_with is_digit pre = false ->
      replace_percent (pre ++ "%" ++ post)
      = replace_percent pre ++ "%" ++ replace_percent post)
  /\ sanitize "(3+2)%3" = "(3+2)%3"
  /\ JSParse.parse_additive 100 (JS.tokens "(3+2)%3")
     = JSParse.Parsed
         (JSParse.EBinary JSParse.Rem
            (JSParse.EBinary JSParse.Add
               (JSParse.ENumber 3%float) (JSParse.ENumber 2%float))
            (JSParse.ENumber 3%float)) []
  /\ (forall pow E M D st,
        JSEval.conforms pow E ->
        evaluateExpression E M D "(3+2)%3" st = (Value 2%float, st)).
Proof.
  split; [|split; [|split]].
  - intros pre post. apply replace_percent_bare_percent.
  - reflexivity.
  - vm_compute. reflexivity.
  - intros pow E M D st Hc.
    rewrite (evaluate_conforming E M D pow "(3+2)%3" st
               (Normal (VNumber 2%float)) Hc);
      [reflexivity|vm_compute; discriminate|vm_compute; reflexivity].
Qed.

(** C1. Names outside the nine bindings are resolved: [true] is a keyword
    literal and [Infinity] a property of the global object, and with a
    conforming engine ["true+1"] evaluates to 2 and ["1/Infinity"] to 0
    instead of [Error]. *)
Theorem unlisted_names_evaluate :
  forall pow E M D st,
    JSEval.conforms pow E ->
    sanitize "true+1" = "true+1"
    /\ evaluateExpression E M D "true+1" st = (Value 2%float, st)
    /\ sanitize "1/Infinity" = "1/Infinity"
    /\ evaluateExpression E M D "1/Infinity" st = (Value 0%float, st).
Proof.
  intros pow E M D st Hc. split; [reflexivity|]. split; [|split; [reflexivity|]].
  - rewrite (evaluate_conforming E M D pow "true+1" st
               (Normal (VNumber 2%float)) Hc);
      [reflexivity|vm_compute; discriminate|vm_compute; reflexivity].
  - rewrite (evaluate_conforming E M D pow "1/Infinity" st
               (Normal (VNumber 0%float)) Hc);
      [reflexivity|vm_compute; discriminate|vm_compute; reflexivity].
Qed.

(* ================================================================= *)
(** * Invariants of the page *)

Ltac handler_cases :=
  repeat match goal with
         | |- context [if ?b then _ else _] => destruct b eqn:?
         | |- context [match lastResult ?s with _ => _ end] =>
             destruct (lastResult s) eqn:?
         end.

Section Invariants.

Variable E : engine.
Variable M : MathLib.

Lemma is_one_of_In (s : string) (l : list string) :
  is_one_of s l = true -> List.In s l.
Proof.
  unfold is_one_of. rewrite List.existsb_exists.
  intros (x & Hin & Heq). apply String.eqb_eq in Heq. now subst.
Qed.

(** ** From one delivery to every depth of the stack *)

Section Reachable.

Variable I : state -> Prop.
Variable P : event -> Prop.

Hypothesis dispatch_kept :
  forall D,
    (forall handle ev st, D = Some handle -> P ev -> I st -> I (handle ev st)) ->
    forall ev st, P ev -> I st -> I (dispatch E M D ev st).

Lemma nested_kept (d : nat) :
  forall handle ev st,
    nested E M d = Some handle -> P ev -> I st -> I (handle ev st).
Proof.
  induction d as [|d IH]; cbn [nested]; intros handle ev st Hd Hev Hst;
    [discriminate|].
  injection Hd as <-. now apply dispatch_kept.
Qed.

Lemma step_kept (d : nat) (ev : event) (st : state) :
  P ev -> I st -> I (step E M d ev st).
Proof. apply dispatch_kept, nested_kept. Qed.

Lemma run_kept (d : nat) (evs : list event) :
  forall st, List.Forall P evs -> I st -> I (run E M d evs st).
Proof.
  induction evs as [|ev evs IH]; intros st Hevs Hst; [exact Hst|].
  inversion Hevs as [|? ? Hev Hrest]; subst.
  unfold run. cbn [List.fold_left].
  change (List.fold_left _ evs ?s) with (run E M d evs s).
  apply IH; [exact Hrest|]. now apply step_kept.
Qed.

End Reachable.

Lemma Forall_any (evs : list event) : List.Forall (fun _ => True) evs.
Proof. induction evs; constructor; auto. Qed.

(** ** What one event does *)

Section Handled.

Variable D : delivery.

Lemma dispatch_commit (ev : event) (st : state) :
  is_commit ev = true -> dispatch E M D ev st = equals E M D st.
Proof.
  destruct ev as [v f a|k|i| |]; cbn [is_commit dispatch]; try discriminate.
  - rewrite andb_true_iff. intros [Ht Ha]. apply String.eqb_eq in Ha.
    unfold handleKeypadClick. now rewrite Ht, Ha.
  - rewrite andb_true_iff, negb_true_iff. intros [Hd Hk].
    unfold handleKeyDown. rewrite Hd.
    apply is_one_of_In in Hk. cbn in Hk.
    destruct Hk as [<-|[<-|[]]]; reflexivity.
Qed.

Lemma session_kept_refl (st : state) : session_kept st st.
Proof. now repeat split. Qed.

Lemma session_kept_append (t : string) (st : state) :
  session_kept st (appendToExpression t st).
Proof. unfold appendToExpression. destruct (_ && _); now repeat split. Qed.

Lemma session_kept_handleFunction (n : string) (st : state) :
  session_kept st (handleFunction n st).
Proof.
  unfold handleFunction. handler_cases;
    try apply session_kept_refl; try apply session_kept_append;
    now repeat split.
Qed.

Lemma session_kept_handleAction (a : string) (st : state) :
  String.eqb a "equals" = false -> session_kept st (handleAction E M D a st).
Proof.
  intros Ha. unfold handleAction. rewrite Ha. handler_cases;
    try apply session_kept_refl; try apply session_kept_append;
    now repeat split.
Qed.

(** An event that is no commit leaves Ans and the animation count as they
    were, the angle mode unless it is the toggle, and the ledger unless it
    clears it. *)
Lemma dispatch_frame (ev : event) (st : state) :
  is_commit ev = false ->
  lastResult (dispatch E M D ev st) = lastResult st
  /\ (is_angle_toggle ev = false ->
      angleMode (dispatch E M D ev st) = angleMode st)
  /\ (is_clear_history ev = false ->
      history (dispatch E M D ev st) = history st)
  /\ errorAnimations (dispatch E M D ev st) = errorAnimations st.
Proof.
  assert (Hkept : forall st', session_kept st st' ->
            lastResult st' = lastResult st
            /\ (is_angle_toggle ev = false -> angleMode st' = angleMode st)
            /\ (is_clear_history ev = false -> history st' = history st)
            /\ errorAnimations st' = errorAnimations st)
    by (intros st' (H1 & H2 & H3 & H4); auto).
  destruct ev as [v f a|k|i| |];
    cbn [dispatch is_commit is_angle_toggle is_clear_history] in *.
  - intros Hc. apply Hkept. unfold handleKeypadClick.
    destruct (truthy a); cbn [andb] in Hc.
    + now apply session_kept_handleAction.
    + destruct (truthy f); [apply session_kept_handleFunction|].
      destruct v; [apply session_kept_append|apply session_kept_refl].
  - unfold handleKeyDown.
    destruct (Str.existsb is_digit k); cbn [negb andb]; intros Hc;
      [apply Hkept, session_kept_append|].
    destruct (is_one_of k ["+"; "-"; "*"; "/"; "^"; "("; ")"]);
      [apply Hkept, session_kept_append|].
    rewrite Hc.
    destruct (String.eqb k "Backspace");
      [apply Hkept, session_kept_handleAction; reflexivity|].
    destruct (String.eqb k "Escape");
      [apply Hkept, session_kept_handleAction; reflexivity|].
    destruct (String.eqb k ".");
      [apply Hkept, session_kept_handleAction; reflexivity|].
    destruct (String.eqb k "%");
      [apply Hkept, session_kept_handleAction; reflexivity|].
    destruct (is_one_of k ["a"; "A"]);
      [apply Hkept, session_kept_handleFunction|].
    destruct (is_one_of k ["d"; "D"]);
      [|apply Hkept, session_kept_refl].
    repeat split; intros; try reflexivity; discriminate.
  - intros _. apply Hkept. unfold historyItemClick.
    destruct (List.nth_error _ _); now repeat split.
  - intros _. repeat split; intros; try reflexivity; discriminate.
  - intros _. repeat split; intros; try reflexivity; discriminate.
Qed.

(** *** The displays *)

Lemma synced_syncDisplay (st : state) : synced (syncDisplay st).
Proof. reflexivity. Qed.

Lemma display_kept_refl (st : state) : display_kept st st.
Proof. left. now repeat split. Qed.

Lemma display_kept_append (t : string) (st : state) :
  display_kept st (appendToExpression t st).
Proof. right. unfold appendToExpression. eexists. reflexivity. Qed.

Lemma display_kept_handleFunction (n : string) (st : state) :
  display_kept st (handleFunction n st).
Proof.
  unfold handleFunction. handler_cases;
    try apply display_kept_refl; try apply display_kept_append;
    right; eexists; reflexivity.
Qed.

(** A commit ends with [syncDisplay] whatever its evaluation did. *)
Lemma display_kept_equals (st : state) : display_kept st (equals E M D st).
Proof.
  unfold equals. destruct (evaluateExpression E M D _ st) as [[v| |] st1];
    right; eexists; reflexivity.
Qed.

Lemma display_kept_handleAction (a : string) (st : state) :
  display_kept st (handleAction E M D a st).
Proof.
  unfold handleAction. handler_cases;
    try apply display_kept_refl; try apply display_kept_append;
    try apply display_kept_equals;
    right; eexists; reflexivity.
Qed.

Lemma display_kept_dispatch (ev : event) (st : state) :
  display_kept st (dispatch E M D ev st).
Proof.
  destruct ev as [v f a|k|i| |]; cbn [dispatch].
  - unfold handleKeypadClick.
    destruct (truthy a); [apply display_kept_handleAction|].
    destruct (truthy f); [apply display_kept_handleFunction|].
    destruct v; [apply display_kept_append|apply display_kept_refl].
  - unfold handleKeyDown. handler_cases;
      try apply display_kept_refl; try apply display_kept_append;
      try apply display_kept_handleAction;
      try apply display_kept_handleFunction.
    left. now repeat split.
  - unfold historyItemClick. destruct (List.nth_error _ _);
      [right; eexists; reflexivity|apply display_kept_refl].
  - left. now repeat split.
  - left. now repeat split.
Qed.

Lemma shown_dispatch (ev : event) (st : state) :
  shown st -> shown (dispatch E M D ev st).
Proof.
  intros [H1 H2].
  destruct (display_kept_dispatch ev st) as [(He & Hm & Hx)|[s0 ->]].
  - unfold shown. now rewrite He, Hm, Hx.
  - split; reflexivity.
Qed.

(** *** The ledger *)

Lemma Forall_removelast {A : Type} (P : A -> Prop) (l : list A) :
  List.Forall P l -> List.Forall P (List.removelast l).
Proof.
  induction l as [|x l IH]; intros H; [constructor|].
  inversion H as [|? ? Hx Hl]; subst. cbn [List.removelast].
  destruct l as [|y l']; [constructor|].
  constructor; [exact Hx|now apply IH].
Qed.

Lemma entries_accepted_addToHistory (e : string) (r : float) (st : state) :
  entries_accepted st -> entries_accepted (addToHistory e r st).
Proof.
  unfold entries_accepted. intros H.
  destruct (accepted e r) eqn:Ha; [|now rewrite addToHistory_rejected].
  rewrite (addToHistory_accepted _ _ _ Ha). cbv zeta.
  assert (Hall : List.Forall (fun it => accepted (expr it) (res it) = true)
                   ({| expr := e; res := r |} :: history st))
    by (constructor; assumption).
  destruct (20 <? _)%nat; [now apply Forall_removelast|exact Hall].
Qed.

#[local] Abbreviation ledger_kept st :=
  (Nat.le (List.length (history st)) 20 /\ entries_accepted st).

Hypothesis D_ledger :
  forall handle ev st, D = Some handle -> ledger_kept st -> ledger_kept (handle ev st).

Lemma equals_ledger (st : state) :
  ledger_kept st -> ledger_kept (equals E M D st).
Proof.
  intros H. unfold equals.
  set (x := if Str.is_empty (expression st) then displayMain st else expression st).
  pose proof (evaluateExpression_kept E M D (fun s => ledger_kept s)
                (fun _ => True) (raises_only_any E)
                (fun h ev s Hd _ Hs => D_ledger h ev s Hd Hs)
                (fun _ _ s Hs => Hs) (fun s Hs => Hs) x st H) as Hk.
  destruct (evaluateExpression E M D x st) as [o st1]. cbn [snd] in Hk.
  destruct o as [v| |]; [|exact Hk|exact Hk].
  destruct Hk as [Hlen Hacc]. split.
  - now apply addToHistory_length.
  - now apply entries_accepted_addToHistory.
Qed.

Lemma dispatch_ledger (ev : event) (st : state) :
  ledger_kept st -> ledger_kept (dispatch E M D ev st).
Proof.
  intros H. destruct (is_commit ev) eqn:Hc.
  - rewrite dispatch_commit by exact Hc. now apply equals_ledger.
  - destruct (dispatch_frame ev st Hc) as (_ & _ & Hh & _).
    destruct ev as [v f a|k|i| |];
      try (unfold entries_accepted; rewrite (Hh eq_refl); exact H).
    cbn. split; [lia|constructor].
Qed.

End Handled.

Lemma step_ledger (d : nat) (ev : event) (st : state) :
  ((List.length (history st) <= 20)%nat /\ entries_accepted st) ->
  (List.length (history (step E M d ev st)) <= 20)%nat
  /\ entries_accepted (step E M d ev st).
Proof.
  apply (step_kept (fun s => (List.length (history s) <= 20)%nat
                             /\ entries_accepted s) (fun _ => True));
    [|exact I].
  intros D HD ev' st' _. apply dispatch_ledger.
  intros handle ev'' st'' Hd. now apply HD.
Qed.

Lemma reachable_ledger (d : nat) (evs : list event) :
  (List.length (history (run E M d evs initial_state)) <= 20)%nat
  /\ entries_accepted (run E M d evs initial_state).
Proof.
  apply (run_kept (fun s => (List.length (history s) <= 20)%nat
                            /\ entries_accepted s) (fun _ => True)).
  - intros D HD ev' st' _. apply dispatch_ledger.
    intros handle ev'' st'' Hd. now apply HD.
  - apply Forall_any.
  - split; [cbn; lia|constructor].
Qed.

Lemma reachable_shown (d : nat) (evs : list event) :
  shown (run E M d evs initial_state).
Proof.
  apply (run_kept shown (fun _ => True)).
  - intros D _ ev st _. apply shown_dispatch.
  - apply Forall_any.
  - split; reflexivity.
Qed.

Lemma reachable_synced (d : nat) (evs : list event) :
  synced (run E M d evs initial_state).
Proof. exact (proj1 (reachable_shown d evs)). Qed.

Lemma reachable_history_length (d : nat) (evs : list event) :
  (List.length (history (run E M d evs initial_state)) <= 20)%nat.
Proof. exact (proj1 (reachable_ledger d evs)). Qed.

End Invariants.

(** C9. In every state the page can reach, an empty buffer is displayed
    as [0]; a commit then evaluates that text: with a conforming engine it
    sets Ans to 0 and the buffer to ["0"], and puts the entry [("0", 0)] at
    the front of the ledger. *)
Theorem commit_on_empty_buffer_evaluates_zero :
  forall pow E M D (d : nat) (evs : list event),
    JSEval.conforms pow E ->
    let st := run E M d evs initial_state in
    expression st = "" ->
    let st' := handleAction E M D "equals" st in
    displayMain st = "0"
    /\ lastResult st' = Some zero
    /\ expression st' = "0"
    /\ history st'
       = List.firstn 20 ({| expr := "0"; res := zero |} :: history st).
Proof.
  intros pow E M D d evs Hc st Hempty st'.
  pose proof (reachable_synced E M d evs) as Hs. fold st in Hs.
  pose proof (reachable_history_length E M d evs) as Hl. fold st in Hl.
  unfold synced in Hs. rewrite Hempty in Hs. cbn in Hs.
  split; [exact Hs|].
  subst st'. rewrite equals_unfold. unfold equals.
  rewrite Hempty, Hs. cbn [Str.is_empty].
  rewrite (evaluate_conforming E M D pow "0" st (Normal (VNumber zero)) Hc);
    [|vm_compute; discriminate|vm_compute; reflexivity].
  change (validate (Normal (VNumber zero)) st) with (Value zero, st).
  cbv iota. split; [reflexivity|]. split; [reflexivity|].
  change (history (syncDisplay ?s)) with (history s).
  change (history (set_expression ?e ?s)) with (history s).
  change (history (set_lastResult ?r ?s)) with (history s).
  apply addToHistory_firstn; [reflexivity|exact Hl].
Qed.

(* ================================================================= *)
(** * Rounding to ten decimals *)

Section Rounding.

Lemma digits2_pos_bounds (m : positive) :
  2 ^ (Zpos (digits2_pos m) - 1) <= Zpos m < 2 ^ Zpos (digits2_pos m).
Proof.
  induction m as [p IH|p IH|]; cbn [digits2_pos].
  - rewrite Pos2Z.inj_succ. change (Zpos p~1) with (2 * Zpos p + 1).
    replace (Z.succ (Zpos (digits2_pos p)) - 1) with (Z.succ (Zpos (digits2_pos p) - 1)) by lia.
    rewrite !Z.pow_succ_r by lia. lia.
  - rewrite Pos2Z.inj_succ. change (Zpos p~0) with (2 * Zpos p).
    replace (Z.succ (Zpos (digits2_pos p)) - 1) with (Z.succ (Zpos (digits2_pos p) - 1)) by lia.
    rewrite !Z.pow_succ_r by lia. lia.
  - cbn. lia.
Qed.

(** The mantissa of a valid binary64 value in the binades of one quarter
    and of one half has 53 bits. *)
Lemma valid_mantissa (s : bool) (m : positive) (e : Z) :
  valid_binary (S754_finite s m e) = true ->
  e = -54 \/ e = -53 ->
  2 ^ 52 <= Zpos m < 2 ^ 53.
Proof.
  cbn [valid_binary]. unfold bounded, canonical_mantissa, fexp, SpecFloat.emin.
  rewrite andb_true_iff, Z.eqb_eq. intros [Hc _] He.
  assert (Hd : Zpos (digits2_pos m) = 53) by (cbv [prec emax] in Hc; lia).
  pose proof (digits2_pos_bounds m) as Hb. rewrite Hd in Hb. exact Hb.
Qed.

Lemma SFleb_finite (m1 m2 : positive) (e1 e2 : Z) (s : bool) :
  SFleb (S754_finite false m1 e1) (S754_finite s m2 e2) = true ->
  s = false /\ (e1 < e2 \/ (e1 = e2 /\ Zpos m1 <= Zpos m2)).
Proof.
  unfold SFleb, SFcompare. destruct s; [discriminate|].
  intros H. split; [reflexivity|].
  destruct (Z.compare_spec e1 e2) as [He|He|He]; try discriminate H.
  - right. split; [exact He|].
    rewrite Pos.compare_cont_spec in H. unfold Pos.switch_Eq in H.
    destruct (Pos.compare_spec m1 m2) as [Hc|Hc|Hc]; try discriminate H.
    + subst. apply Z.le_refl.
    + apply Z.lt_le_incl. exact Hc.
  - now left.
Qed.

Lemma near_half_decoded (r : float) :
  near_half r = true ->
  exists m e,
    Prim2SF r = S754_finite false m e
    /\ ((e = -54 /\ 9007199254216704 <= Zpos m < 2 ^ 53)
        \/ (e = -53 /\ 2 ^ 52 <= Zpos m <= 4503599627632640)).
Proof.
  unfold near_half. rewrite andb_true_iff, !leb_spec. intros [Hlo Hhi].
  pose proof (Prim2SF_valid r) as Hv.
  assert (Hl : Prim2SF (PrimFloat.sub half tolerance)
               = S754_finite false 9007199254216704 (-54))
    by (vm_compute; reflexivity).
  assert (Hh : Prim2SF (PrimFloat.add half tolerance)
               = S754_finite false 4503599627632640 (-53))
    by (vm_compute; reflexivity).
  rewrite Hl in Hlo. rewrite Hh in Hhi. clear Hl Hh.
  destruct (Prim2SF r) as [s|s| |s m e]; try discriminate Hlo.
  - destruct s; discriminate.
  - apply SFleb_finite in Hlo. destruct Hlo as [-> Hlo].
    apply SFleb_finite in Hhi. destruct Hhi as [_ Hhi].
    exists m, e. split; [reflexivity|].
    assert (He : e = -54 \/ e = -53) by lia.
    pose proof (valid_mantissa _ _ _ Hv He) as Hb.
    destruct He as [-> | ->]; [left|right]; (split; [reflexivity|]).
    + destruct Hlo as [Hlo|[_ Hlo]]; [lia|]. split; [exact Hlo|apply Hb].
    + destruct Hhi as [Hhi|[_ Hhi]]; [lia|]. split; [apply Hb|exact Hhi].
Qed.

Lemma finite_is_finite (r : float) (s : bool) (m : positive) (e : Z) :
  Prim2SF r = S754_finite s m e -> Number_isFinite r = true.
Proof.
  intros Hr. unfold Number_isFinite, PrimFloat.is_finite, PrimFloat.is_nan,
    PrimFloat.is_infinity.
  rewrite !eqb_spec, abs_spec, Hr.
  replace (Prim2SF infinity) with (S754_infinity false) by (vm_compute; reflexivity).
  unfold SFeqb, SFcompare, SFabs.
  rewrite Z.compare_refl.
  assert (Hm : Pos.compare_cont Eq m m = Eq) by apply Pos.compare_cont_refl.
  destruct s; rewrite Hm; reflexivity.
Qed.

(** A Number within [2^-35] of one half is finite and rounds to one
    half. *)
Lemma near_half_rounds (r : float) :
  near_half r = true ->
  Number_isFinite r = true /\ StringToNumber (toFixed r 10) = half.
Proof.
  intros Hr. destruct (near_half_decoded r Hr) as (m & e & Hd & Hme).
  split; [exact (finite_is_finite _ _ _ _ Hd)|].
  unfold toFixed. rewrite Hd.
  assert (Hsmall : PrimFloat.leb ten_pow_21 (PrimFloat.abs r) = false).
  { rewrite leb_spec, abs_spec, Hd.
    replace (Prim2SF ten_pow_21) with (S754_finite false 7629394531250000 17)
      by (vm_compute; reflexivity).
    unfold SFleb, SFcompare, SFabs.
    destruct Hme as [[-> _]|[-> _]]; reflexivity. }
  rewrite Hsmall.
  assert (Hn : nearest_scaled m e 10 = 5000000000).
  { assert (E10 : 10 ^ Z.of_nat 10 = 10000000000) by reflexivity.
    assert (E52 : 2 ^ 52 = 4503599627370496) by reflexivity.
    assert (E53 : 2 ^ 53 = 9007199254740992) by reflexivity.
    assert (E54 : 2 ^ 54 = 18014398509481984) by reflexivity.
    assert (E55 : 2 ^ 55 = 36028797018963968) by reflexivity.
    unfold nearest_scaled. cbv zeta. rewrite E10.
    destruct Hme as [[-> Hm]|[-> Hm]].
    - change (0 <=? -54) with false. cbv iota.
      change (- -54) with 54. change (1 - -54) with 55.
      rewrite E54, E55. rewrite E53 in Hm. symmetry.
      apply Z.div_unique
        with (r := 2 * (Zpos m * 10000000000) + 18014398509481984
                   - 36028797018963968 * 5000000000); lia.
    - change (0 <=? -53) with false. cbv iota.
      change (- -53) with 53. change (1 - -53) with 54.
      rewrite E53, E54. rewrite E52 in Hm. symmetry.
      apply Z.div_unique
        with (r := 2 * (Zpos m * 10000000000) + 9007199254740992
                   - 18014398509481984 * 5000000000); lia. }
  rewrite Hn. vm_compute. reflexivity.
Qed.

End Rounding.

(** C8. In degree mode [sin], [cos] and [tan] apply the library function
    to [x * PI / 180], in radian mode to [x]; a finite result is returned
    rounded to ten decimals.  With a conforming engine, in degree mode,
    ["sin(30)"] evaluates to 0.5 whenever [Math.sin] is within [2^-35] of
    one half at the converted argument, and ["1/3"] to 0.3333333333. *)
Theorem degrees_are_converted_and_results_rounded :
  forall (E : engine) (M : MathLib),
    (forall x,
        let radians := PrimFloat.div (PrimFloat.mul x Math_PI) 180%float in
        sinImpl M true x = Math_sin M radians
        /\ cosImpl M true x = Math_cos M radians
        /\ tanImpl M true x = Math_tan M radians
        /\ sinImpl M false x = Math_sin M x
        /\ cosImpl M false x = Math_cos M x
        /\ tanImpl M false x = Math_tan M x)
    /\ (forall st,
          angleMode st = DEG ->
          List.firstn 3 (arguments M st)
          = [VNative (sinImpl M true); VNative (cosImpl M true);
             VNative (tanImpl M true)])
    /\ (forall r st,
          Number_isFinite r = true ->
          validate (Normal (VNumber r)) st
          = (Value (StringToNumber (toFixed r 10)), st))
    /\ (forall pow D st,
          JSEval.conforms pow E ->
          angleMode st = DEG ->
          near_half (Math_sin M (degToRad 30%float)) = true ->
          evaluateExpression E M D "sin(30)" st = (Value 0.5%float, st))
    /\ (forall pow D st,
          JSEval.conforms pow E ->
          evaluateExpression E M D "1/3" st
          = (Value (float_of_decimal false 3333333333 (-10)), st)).
Proof.
  intros E M. split; [|split; [|split; [|split]]].
  - intros x. cbv zeta. now repeat split.
  - intros st Hdeg. unfold arguments. now rewrite Hdeg.
  - intros r st Hfin. cbn [validate]. now rewrite Hfin.
  - intros pow D st Hc Hdeg Hnear.
    rewrite (evaluate_conforming E M D pow "sin(30)" st
               (Normal (VNumber (Math_sin M (degToRad 30%float)))) Hc).
    + destruct (near_half_rounds _ Hnear) as [Hfin Hround].
      cbn [validate]. now rewrite Hfin, Hround.
    + vm_compute; discriminate.
    + unfold arguments. rewrite Hdeg. vm_compute. reflexivity.
  - intros pow D st Hc.
    rewrite (evaluate_conforming E M D pow "1/3" st
               (Normal (VNumber (PrimFloat.div 1 3))) Hc);
      [vm_compute; reflexivity|vm_compute; discriminate|vm_compute; reflexivity].
Qed.

(* ================================================================= *)
(** * Neighbouring operators in the buffer *)

Section Spacing.

Lemma spaced_cons (x y : ascii) (s : string) :
  no_adjacent_operators (String x (String y s))
  = negb (is_operator_char x && is_operator_char y)
    && no_adjacent_operators (String y s).
Proof. reflexivity. Qed.

Lemma spaced_app (a b : string) :
  no_adjacent_operators a = true -> no_adjacent_operators b = true ->
  ends_with is_operator_char a = false
  \/ JS.starts_with is_operator_char b = false ->
  no_adjacent_operators (a ++ b) = true.
Proof.
  intros Ha Hb Hab. induction a as [|x a IH]; [exact Hb|].
  destruct a as [|y a'].
  - cbn [append]. destruct b as [|z b']; [reflexivity|].
    rewrite spaced_cons, Hb, andb_true_r.
    unfold ends_with in Hab. cbn [Str.slice_m1 JS.starts_with] in Hab.
    destruct Hab as [-> | ->]; [reflexivity|now rewrite andb_false_r].
  - cbn [append] in *. rewrite spaced_cons in Ha |- *.
    apply andb_true_iff in Ha. destruct Ha as [Hxy Ha].
    rewrite Hxy. cbn [andb]. apply IH; [exact Ha|].
    destruct Hab as [Hab|Hab]; [left|now right].
    unfold ends_with in *. exact Hab.
Qed.

Lemma operator_free_shape (s : string) :
  operator_free s = true ->
  no_adjacent_operators s = true
  /\ JS.starts_with is_operator_char s = false
  /\ ends_with is_operator_char s = false.
Proof.
  unfold operator_free, ends_with. induction s as [|x s IH]; [now repeat split|].
  cbn [Str.forallb]. rewrite andb_true_iff, negb_true_iff. intros [Hx Hs].
  destruct (IH Hs) as (H1 & H2 & H3). split; [|split].
  - destruct s as [|y s']; [reflexivity|].
    rewrite spaced_cons. now rewrite Hx, H1.
  - exact Hx.
  - destruct s as [|y s']; [exact Hx|exact H3].
Qed.

Lemma spaced_slice (s : string) :
  no_adjacent_operators s = true ->
  no_adjacent_operators (Str.slice_0_m1 s) = true.
Proof.
  induction s as [|x s IH]; [reflexivity|].
  destruct s as [|y s']; [reflexivity|].
  destruct s' as [|z s'']; [reflexivity|].
  intros H. rewrite spaced_cons in H.
  apply andb_true_iff in H. destruct H as [Hxy H].
  change (Str.slice_0_m1 (String x (String y (String z s''))))
    with (String x (Str.slice_0_m1 (String y (String z s'')))).
  specialize (IH H).
  change (Str.slice_0_m1 (String y (String z s'')))
    with (String y (Str.slice_0_m1 (String z s''))) in IH |- *.
  rewrite spaced_cons. now rewrite Hxy, IH.
Qed.

(** When the buffer ends in an operator, what is left without it does
    not. *)
Lemma slice_before_operator (s : string) :
  no_adjacent_operators s = true ->
  ends_with is_operator_char s = true ->
  ends_with is_operator_char (Str.slice_0_m1 s) = false.
Proof.
  unfold ends_with. induction s as [|x s IH]; [reflexivity|].
  destruct s as [|y s']; [reflexivity|].
  destruct s' as [|z s''].
  - cbn [Str.slice_m1 Str.slice_0_m1 JS.starts_with]. rewrite spaced_cons.
    intros H1 H2. rewrite H2 in H1.
    destruct (is_operator_char x); [discriminate H1|reflexivity].
  - intros H1 H2. rewrite spaced_cons in H1.
    apply andb_true_iff in H1. destruct H1 as [_ H1].
    exact (IH H1 H2).
Qed.

Lemma includes_single (c : ascii) :
  Str.includes operators (String c "") = is_operator_char c.
Proof. destruct c as [[] [] [] [] [] [] [] []]; reflexivity. Qed.

Lemma includes_empty (s : string) : Str.includes s "" = true.
Proof. destruct s; reflexivity. Qed.

Lemma prefix_starts (t s : string) (c : ascii) :
  String.prefix (String c t) s = true -> JS.starts_with (Ascii.eqb c) s = true.
Proof.
  destruct s as [|x s]; cbn; [discriminate|].
  destruct (ascii_dec c x) as [->|Hne]; [intros _; apply Ascii.eqb_refl|discriminate].
Qed.

Lemma includes_starts (s t : string) (c : ascii) :
  Str.includes s (String c t) = true -> Str.existsb (Ascii.eqb c) s = true.
Proof.
  induction s as [|x s IH]; cbn [Str.includes Str.existsb].
  - cbn. discriminate.
  - rewrite orb_true_iff. intros [H|H].
    + apply prefix_starts in H. cbn in H. now rewrite H.
    + rewrite (IH H). apply orb_true_r.
Qed.

(** A non-empty token without operator characters is not a substring of
    the operator string. *)
Lemma includes_operator_free (t : string) :
  operator_free t = true -> t <> "" -> Str.includes operators t = false.
Proof.
  intros Hfree Hne. destruct t as [|c t]; [now elim Hne|].
  destruct (Str.includes operators (String c t)) eqn:Hi; [|reflexivity].
  apply includes_starts in Hi.
  unfold operator_free in Hfree. cbn [Str.forallb] in Hfree.
  apply andb_true_iff, proj1, negb_true_iff in Hfree.
  unfold is_operator_char in Hfree. unfold operators in Hi. congruence.
Qed.

Lemma ends_with_last (s : string) :
  Str.includes operators (Str.slice_m1 s) = true ->
  s = "" \/ ends_with is_operator_char s = true.
Proof.
  unfold ends_with. intros H. destruct s as [|c s]; [now left|right].
  assert (Hl : exists x, Str.slice_m1 (String c s) = String x "").
  { clear H. revert c. induction s as [|y s IH]; intros c; [now exists c|].
    destruct (IH y) as [x Hx]. exists x. exact Hx. }
  destruct Hl as [x Hx]. rewrite Hx in *. rewrite includes_single in H. exact H.
Qed.

Lemma not_ends_with_last (s : string) :
  Str.includes operators (Str.slice_m1 s) = false ->
  ends_with is_operator_char s = false.
Proof.
  unfold ends_with. intros H. destruct s as [|c s]; [reflexivity|].
  assert (Hl : exists x, Str.slice_m1 (String c s) = String x "").
  { clear H. revert c. induction s as [|y s IH]; intros c; [now exists c|].
    destruct (IH y) as [x Hx]. exists x. exact Hx. }
  destruct Hl as [x Hx]. rewrite Hx in *. rewrite includes_single in H. exact H.
Qed.

Lemma expression_appendToExpression (t : string) (st : state) :
  expression (appendToExpression t st)
  = if Str.includes operators t
       && (Str.is_empty (expression st)
           || Str.includes operators (Str.slice_m1 (expression st)))
    then Str.slice_0_m1 (expression st) ++ t
    else expression st ++ t.
Proof. unfold appendToExpression. destruct (_ && _); reflexivity. Qed.

Lemma prefix_forall (t s : string) :
  String.prefix t s = true ->
  Str.forallb (fun c => Str.existsb (Ascii.eqb c) s) t = true.
Proof.
  revert s. induction t as [|x t IH]; intros s H; [reflexivity|].
  destruct s as [|y s]; [discriminate H|]. cbn [String.prefix] in H.
  destruct (ascii_dec x y) as [->|Hne]; [|discriminate H].
  cbn [Str.forallb Str.existsb]. rewrite Ascii.eqb_refl. cbn [orb andb].
  specialize (IH s H). revert IH. apply forallb_impl.
  intros c Hc. rewrite Hc. apply orb_true_r.
Qed.

(** A substring of [s] is made of characters of [s]. *)
Lemma includes_forall (s t : string) :
  Str.includes s t = true ->
  Str.forallb (fun c => Str.existsb (Ascii.eqb c) s) t = true.
Proof.
  induction s as [|y s IH]; cbn [Str.includes].
  - rewrite orb_false_r. apply prefix_forall.
  - rewrite orb_true_iff. intros [H|H]; [now apply prefix_forall|].
    specialize (IH H). revert IH. apply forallb_impl.
    intros c Hc. cbn [Str.existsb]. rewrite Hc. apply orb_true_r.
Qed.

(** A non-empty token that does not start with an operator character is
    not a substring of the operator string. *)
Lemma includes_not_starting (c : ascii) (t : string) :
  is_operator_char c = false -> Str.includes operators (String c t) = false.
Proof.
  intros Hc. destruct (Str.includes operators (String c t)) eqn:Hi; [|reflexivity].
  apply includes_starts in Hi.
  unfold is_operator_char in Hc. unfold operators in Hi. congruence.
Qed.

Lemma appendToExpression_spaced (t : string) (st : state) :
  safe_token t = true ->
  no_adjacent_operators (expression st) = true ->
  no_adjacent_operators (expression (appendToExpression t st)) = true.
Proof.
  intros Ht Hs. rewrite expression_appendToExpression.
  unfold safe_token in Ht. apply andb_true_iff in Ht. destruct Ht as [Hsp Ht].
  destruct t as [|c t'].
  - rewrite !app_nil_r. destruct (_ && _); [now apply spaced_slice|exact Hs].
  - cbn [JS.starts_with] in Ht. destruct (is_operator_char c) eqn:Hc.
    + cbn [negb orb] in Ht. destruct t' as [|d t'']; [|discriminate Ht].
      rewrite includes_single, Hc. cbn [andb].
      destruct (Str.is_empty (expression st)) eqn:He.
      * apply is_empty_true in He. rewrite He. reflexivity.
      * cbn [orb].
        destruct (Str.includes operators (Str.slice_m1 (expression st))) eqn:Hl.
        -- apply ends_with_last in Hl. destruct Hl as [Hl|Hl].
           ++ rewrite Hl. reflexivity.
           ++ apply spaced_app; [now apply spaced_slice|reflexivity|].
              left. now apply slice_before_operator.
        -- apply not_ends_with_last in Hl.
           apply spaced_app; [exact Hs|reflexivity|now left].
    + rewrite includes_not_starting by exact Hc. cbn [andb].
      apply spaced_app; [exact Hs|exact Hsp|right; exact Hc].
Qed.

(** A token that is not safe breaks the property from some buffer that has
    it: from the empty buffer when two operators are neighbours in the
    token, from ["+"] when the token starts with an operator and goes
    on. *)
Lemma appendToExpression_unsafe (t : string) :
  safe_token t = false ->
  exists st,
    no_adjacent_operators (expression st) = true
    /\ no_adjacent_operators (expression (appendToExpression t st)) = false.
Proof.
  intros Ht. unfold safe_token in Ht.
  destruct (no_adjacent_operators t) eqn:Hsp.
  - cbn [andb] in Ht. apply orb_false_iff in Ht. destruct Ht as [Hstart Hlen].
    apply negb_false_iff in Hstart.
    destruct t as [|c [|d t'']]; try discriminate.
    cbn [JS.starts_with] in Hstart.
    rewrite spaced_cons, Hstart in Hsp. cbn [andb] in Hsp.
    apply andb_true_iff in Hsp. destruct Hsp as [Hd _].
    apply negb_true_iff in Hd.
    exists (set_expression "+" initial_state). split; [reflexivity|].
    rewrite expression_appendToExpression.
    assert (Hi : Str.includes operators (String c (String d t'')) = false).
    { destruct (Str.includes operators (String c (String d t''))) eqn:Hi;
        [|reflexivity].
      apply includes_forall in Hi. cbn [Str.forallb] in Hi.
      apply andb_true_iff in Hi. destruct Hi as [_ Hi].
      apply andb_true_iff in Hi. destruct Hi as [Hi _].
      unfold is_operator_char in Hd. unfold operators in Hi. congruence. }
    rewrite Hi. cbn [andb expression set_expression append].
    now rewrite spaced_cons, Hstart.
  - exists initial_state. split; [reflexivity|].
    rewrite expression_appendToExpression.
    change (expression initial_state) with "". clear Ht.
    destruct (Str.includes operators t && _); exact Hsp.
Qed.

End Spacing.

Section NumberText.

Lemma digit_not_operator (c : ascii) :
  is_digit c = true -> negb (is_operator_char c) = true.
Proof.
  destruct c as [[] [] [] [] [] [] [] []]; vm_compute; congruence.
Qed.

Lemma all_digits_operator_free (s : string) :
  all_digits s = true -> operator_free s = true.
Proof. apply forallb_impl, digit_not_operator. Qed.

Lemma string_of_uint_digits (d : Decimal.uint) :
  all_digits (NilEmpty.string_of_uint d) = true.
Proof. induction d; cbn; auto. Qed.

Lemma decimal_digits_all_digits (n : N) : all_digits (decimal_digits n) = true.
Proof.
  unfold decimal_digits, NilZero.string_of_uint.
  destruct (N.to_uint n) eqn:Hd; try reflexivity;
    rewrite <- Hd; apply string_of_uint_digits.
Qed.

Lemma substring_forallb (p : ascii -> bool) (s : string) :
  Str.forallb p s = true ->
  forall n m, Str.forallb p (String.substring n m s) = true.
Proof.
  induction s as [|c s IH]; intros H n m.
  - destruct n, m; reflexivity.
  - cbn [Str.forallb] in H. apply andb_true_iff in H. destruct H as [Hc Hs].
    destruct n as [|n]; cbn [String.substring].
    + destruct m as [|m]; [reflexivity|].
      cbn [Str.forallb]. now rewrite Hc, IH.
    + now apply IH.
Qed.

Lemma repeat_forallb (p : ascii -> bool) (c : ascii) (n : nat) :
  p c = true -> Str.forallb p (Str.repeat c n) = true.
Proof. intros Hc. induction n; cbn; [reflexivity|now rewrite Hc]. Qed.

Lemma number_text_spaced (s : string) :
  number_text s ->
  no_adjacent_operators s = true
  /\ (s = "" \/ JS.starts_with is_operator_char s = false).
Proof.
  intros [H|(a & c & b & -> & Hne & Ha & Hb)].
  - destruct (operator_free_shape _ H) as (H1 & H2 & _). auto.
  - destruct (operator_free_shape _ Ha) as (Ha1 & Ha2 & Ha3).
    destruct (operator_free_shape _ Hb) as (Hb1 & Hb2 & Hb3).
    split.
    + apply spaced_app; [exact Ha1| |now left].
      destruct b as [|y b']; [reflexivity|].
      rewrite spaced_cons. cbn [JS.starts_with] in Hb2.
      now rewrite Hb2, andb_false_r, Hb1.
    + right. destruct a as [|x a']; [now elim Hne|exact Ha2].
Qed.

Lemma format_number_text (n k s : Z) : number_text (format_number n k s).
Proof.
  unfold format_number, zeros.
  pose proof (decimal_digits_all_digits (Z.to_N s)) as Hd.
  pose proof (decimal_digits_all_digits (Z.to_N (Z.abs (n - 1)))) as He.
  set (digits := decimal_digits (Z.to_N s)) in *.
  set (d := decimal_digits (Z.to_N (Z.abs (n - 1)))) in *.
  assert (Hf : operator_free digits = true) by now apply all_digits_operator_free.
  assert (Hfd : operator_free d = true) by now apply all_digits_operator_free.
  assert (Hsub : forall i j, operator_free (String.substring i j digits) = true)
    by (intros i j; now apply substring_forallb).
  assert (Hz : forall j, operator_free (Str.repeat "0" j) = true)
    by (intros j; now apply repeat_forallb).
  destruct ((-5 <=? n) && (n <=? 21)).
  - left. destruct (k <=? n); [|destruct (0 <? n)].
    + unfold operator_free in *. now rewrite forallb_app, Hf, Hz.
    + unfold operator_free in *. rewrite forallb_app, Hsub.
      cbn [append Str.forallb]. now rewrite Hsub.
    + unfold operator_free in *. cbn [append Str.forallb].
      now rewrite forallb_app, Hz, Hf.
  - right. cbv zeta. fold d.
    destruct (k =? 1).
    + exists (digits ++ "e"), (if n - 1 <? 0 then "-"%char else "+"%char), d.
      repeat split.
      * rewrite app_assoc. cbn [append]. now destruct (n - 1 <? 0).
      * destruct digits; discriminate.
      * unfold operator_free in *. now rewrite forallb_app, Hf.
      * exact Hfd.
    + exists (String.substring 0 1 digits ++ "."
              ++ String.substring 1 (Z.to_nat (k - 1)) digits ++ "e"),
        (if n - 1 <? 0 then "-"%char else "+"%char), d.
      repeat split.
      * rewrite !app_assoc. cbn [append]. now destruct (n - 1 <? 0).
      * destruct (String.substring 0 1 digits); discriminate.
      * unfold operator_free in *. rewrite forallb_app, Hsub.
        cbn [append Str.forallb]. now rewrite forallb_app, Hsub.
      * exact Hfd.
Qed.

Lemma Number_toString_spaced (x : float) :
  no_adjacent_operators (Number_toString x) = true.
Proof.
  unfold Number_toString.
  destruct (Prim2SF x) as [s|s| |s m e]; try reflexivity.
  - destruct s; reflexivity.
  - destruct (shortest m e) as [[n k] d].
    destruct (number_text_spaced _ (format_number_text n k d)) as [H1 H2].
    destruct s; [|exact H1].
    cbn [append]. destruct (format_number n k d) as [|c r]; [reflexivity|].
    destruct H2 as [H2|H2]; [discriminate|].
    rewrite spaced_cons. cbn [JS.starts_with] in H2.
    now rewrite H2, andb_false_r, H1.
Qed.

End NumberText.

Section BufferInvariant.

Variable E : engine.
Variable M : MathLib.

#[local] Abbreviation spaced st := (no_adjacent_operators (expression st) = true).

Lemma handleFunction_spaced (n : string) (st : state) :
  spaced st -> spaced (handleFunction n st).
Proof.
  intros Hs. unfold handleFunction.
  destruct (is_one_of n _) eqn:Hn.
  - apply is_one_of_In in Hn. cbn [expression syncDisplay set_expression].
    apply spaced_app; [exact Hs| |right].
    + cbn in Hn. intuition (subst; reflexivity).
    + cbn in Hn. intuition (subst; reflexivity).
  - destruct (String.eqb n "square").
    { destruct (Str.is_empty (expression st)); [exact Hs|].
      cbn [expression syncDisplay set_expression].
      apply (spaced_app "("); [reflexivity| |now left].
      apply spaced_app; [exact Hs|reflexivity|now right]. }
    destruct (String.eqb n "pi");
      [now apply appendToExpression_spaced|].
    destruct (String.eqb n "e");
      [now apply appendToExpression_spaced|].
    destruct (String.eqb n "ans"); [|exact Hs].
    destruct (lastResult st); [now apply appendToExpression_spaced|exact Hs].
Qed.

Section Delivered.

Variable D : delivery.

Hypothesis E_safe : raises_only (fun ev => safe_event ev = true) E.
Hypothesis D_spaced :
  forall handle ev st,
    D = Some handle -> safe_event ev = true -> spaced st -> spaced (handle ev st).

Lemma equals_spaced (st : state) : spaced st -> spaced (equals E M D st).
Proof.
  intros Hs. unfold equals.
  set (x := if Str.is_empty (expression st) then displayMain st else expression st).
  pose proof (evaluateExpression_kept E M D (fun s => spaced s)
                (fun ev => safe_event ev = true) E_safe D_spaced
                (fun _ _ s H => H) (fun s H => H) x st Hs) as Hk.
  destruct (evaluateExpression E M D x st) as [o st1]. cbn [snd] in Hk.
  destruct o; cbn [expression syncDisplay set_expression];
    [apply Number_toString_spaced|exact Hk|exact Hk].
Qed.

Lemma handleAction_spaced (a : string) (st : state) :
  spaced st -> spaced (handleAction E M D a st).
Proof.
  intros Hs. unfold handleAction.
  repeat match goal with
         | |- context [if ?b then _ else _] => destruct b
         end;
    try exact Hs;
    try (apply appendToExpression_spaced; [reflexivity|exact Hs]).
  - reflexivity.
  - cbn [expression deleteLastChar syncDisplay set_expression].
    now apply spaced_slice.
  - now apply equals_spaced.
Qed.

Lemma dispatch_spaced (ev : event) (st : state) :
  safe_event ev = true -> spaced st -> spaced (dispatch E M D ev st).
Proof.
  intros Hev Hs. destruct ev as [v f a|k|i| |]; cbn [dispatch safe_event] in *.
  - unfold handleKeypadClick.
    destruct (truthy a); [now apply handleAction_spaced|].
    destruct (truthy f); [now apply handleFunction_spaced|].
    destruct v as [v|]; [|exact Hs].
    apply appendToExpression_spaced; assumption.
  - unfold handleKeyDown.
    destruct (Str.existsb is_digit k);
      [now apply appendToExpression_spaced|].
    destruct (is_one_of k ["+"; "-"; "*"; "/"; "^"; "("; ")"]) eqn:Hop.
    { apply is_one_of_In in Hop. apply appendToExpression_spaced; [|exact Hs].
      cbn in Hop. intuition (subst; reflexivity). }
    repeat match goal with
           | |- context [if ?b then _ else _] => destruct b
           end;
      try exact Hs;
      try (now apply handleAction_spaced);
      try (now apply handleFunction_spaced).
  - unfold historyItemClick. destruct (List.nth_error _ _); [|exact Hs].
    cbn [expression syncDisplay set_expression]. apply Number_toString_spaced.
  - exact Hs.
  - exact Hs.
Qed.

End Delivered.

Lemma run_spaced (d : nat) (evs : list event) (st : state) :
  raises_only (fun ev => safe_event ev = true) E ->
  List.forallb safe_event evs = true -> spaced st -> spaced (run E M d evs st).
Proof.
  intros HE Hevs.
  apply (run_kept E M (fun s => spaced s) (fun ev => safe_event ev = true)).
  - intros D HD. now apply dispatch_spaced.
  - apply List.Forall_forall. now apply List.forallb_forall.
Qed.

End BufferInvariant.

(** C4, as amended.  When every token that reaches the buffer is safe (no
    two operator characters are neighbours in it and, unless it is a
    single character, it does not start with one), whether the event comes
    from the user or is raised by evaluated code, no two operator
    characters are neighbours in the buffer of any state the page reaches.
    The safe tokens are exactly the tokens whose append keeps the property
    from every buffer that has it.  An operator appended to a buffer that
    is empty or ends in an operator replaces the last character;
    otherwise a token is concatenated; and ["-"] appended to ["3+"] gives
    ["3-"]. *)
Theorem safe_tokens_never_stack_operators :
  forall (E : engine) (M : MathLib) (d : nat) (evs : list event),
    raises_only (fun ev => safe_event ev = true) E ->
    List.forallb safe_event evs = true ->
    no_adjacent_operators (expression (run E M d evs initial_state)) = true
    /\ (forall t,
          safe_token t = true
          <-> (forall st,
                 no_adjacent_operators (expression st) = true ->
                 no_adjacent_operators (expression (appendToExpression t st))
                 = true))
    /\ (forall st c,
          is_operator_char c = true ->
          expression st = "" \/ ends_with is_operator_char (expression st) = true ->
          expression (appendToExpression (String c "") st)
          = Str.slice_0_m1 (expression st) ++ String c "")
    /\ (forall st t,
          Str.includes operators t = false
          \/ (expression st <> ""
              /\ ends_with is_operator_char (expression st) = false) ->
          expression (appendToExpression t st) = expression st ++ t)
    /\ (forall st,
          expression st = "3+" ->
          expression (appendToExpression "-" st) = "3-").
Proof.
  intros E M d evs HE Hevs. split; [|split; [|split; [|split]]].
  - apply run_spaced; [exact HE|exact Hevs|reflexivity].
  - intros t. split.
    + intros Ht st. now apply appendToExpression_spaced.
    + intros Hall. destruct (safe_token t) eqn:Ht; [reflexivity|].
      destruct (appendToExpression_unsafe t Ht) as (st & Hs & Hbad).
      rewrite (Hall st Hs) in Hbad. discriminate Hbad.
  - intros st c Hc Hlast. rewrite expression_appendToExpression.
    rewrite includes_single, Hc. cbn [andb].
    destruct Hlast as [He|He].
    + now rewrite He.
    + destruct (Str.is_empty (expression st)); [reflexivity|]. cbn [orb].
      destruct (Str.includes operators (Str.slice_m1 (expression st))) eqn:Hl;
        [reflexivity|].
      apply not_ends_with_last in Hl. congruence.
  - intros st t Hcase. rewrite expression_appendToExpression.
    destruct Hcase as [Hi|[Hne Hend]].
    + now rewrite Hi.
    + apply is_empty_false in Hne. rewrite Hne. cbn [orb].
      destruct (Str.includes operators (Str.slice_m1 (expression st))) eqn:Hl.
      * apply ends_with_last in Hl. apply is_empty_false in Hne.
        destruct Hl as [Hl|Hl]; congruence.
      * now rewrite andb_false_r.
  - intros st He. rewrite expression_appendToExpression, He. reflexivity.
Qed.

(** C4, as stated, fails.  The test [operators.includes(token)] and the
    replacement act on whole tokens: a keypad button whose value is ["+-"]
    (a substring of the operator string) leaves the buffer ["+-"], from
    ["3*"] it leaves ["3+-"], and the token ["1++2"] is appended as it
    is. *)
Lemma multi_character_token_stacks_operators :
  expression
    (run sample_engine sample_math 0 [KeypadClick (Some "+-") None None]
       initial_state) = "+-"
  /\ no_adjacent_operators "+-" = false
  /\ expression
       (run sample_engine sample_math 0
          [KeyDown "3"; KeyDown "*"; KeypadClick (Some "+-") None None]
          initial_state) = "3+-"
  /\ no_adjacent_operators "3+-" = false
  /\ expression (appendToExpression "1++2" initial_state) = "1++2"
  /\ no_adjacent_operators "1++2" = false.
Proof. repeat split; reflexivity. Qed.

(** C3. The ledger is newest-first and holds at most 20 entries, in every
    state the page reaches: pushing accepted entries onto a ledger of at
    most 20 leaves the 20 most recent, the last pushed at the front; a push
    onto a full ledger drops exactly the last (oldest) entry; and 21 pushes
    onto the empty ledger leave the 20 newest, in reverse order of
    arrival. *)
Theorem history_holds_the_20_newest :
  forall (items : list history_item) (st : state),
    (List.length (history st) <= 20)%nat ->
    List.Forall (fun it => accepted (expr it) (res it) = true) items ->
    let st' := push_all items st in
    history st' = List.firstn 20 (List.rev items ++ history st)
    /\ (List.length (history st') <= 20)%nat
    /\ (forall e r,
          accepted e r = true ->
          List.length (history st') = 20%nat ->
          history (addToHistory e r st')
          = {| expr := e; res := r |} :: List.removelast (history st'))
    /\ (forall e r,
          accepted e r = true ->
          (List.length (history st') < 20)%nat ->
          history (addToHistory e r st')
          = {| expr := e; res := r |} :: history st')
    /\ (history st = [] ->
        List.length items = 21%nat ->
        history st' = List.rev (List.tl items)
        /\ List.length (history st') = 20%nat)
    /\ (forall E M d evs,
          (List.length (history (run E M d evs initial_state)) <= 20)%nat).
Proof.
  intros items st Hlen Hall st'.
  assert (Hmain : history st' = List.firstn 20 (List.rev items ++ history st))
    by (apply push_all_history; assumption).
  assert (Hle : (List.length (history st') <= 20)%nat)
    by (rewrite Hmain; apply List.firstn_le_length).
  split; [exact Hmain|]. split; [exact Hle|]. split; [|split; [|split]].
  - intros e r Ha H20. rewrite (addToHistory_accepted _ _ _ Ha). cbv zeta.
    cbn [List.length]. rewrite H20.
    change (20 <? 21)%nat with true. cbv iota.
    destruct (history st') as [|x h] eqn:Hh; [discriminate|reflexivity].
  - intros e r Ha Hlt. rewrite (addToHistory_accepted _ _ _ Ha). cbv zeta.
    cbn [List.length].
    destruct (20 <? _)%nat eqn:Hc; [apply Nat.ltb_lt in Hc; lia|reflexivity].
  - intros Hempty H21. rewrite Hmain, Hempty, List.app_nil_r.
    destruct items as [|it items]; [discriminate|]. cbn [List.length] in H21.
    cbn [List.tl List.rev].
    rewrite List.firstn_app, List.length_rev.
    replace (20 - List.length items)%nat with 0%nat by lia.
    rewrite List.firstn_O, List.app_nil_r.
    rewrite List.firstn_all2 by (rewrite List.length_rev; lia).
    split; [reflexivity|]. rewrite List.length_rev. lia.
  - intros E M d evs. apply reachable_history_length.
Qed.

(* ================================================================= *)
(** * Instances *)

Lemma reference_engine_conforms (pow : float -> float -> float) :
  JSEval.conforms pow (JSEval.reference_engine pow).
Proof.
  intros params body args c st H. unfold JSEval.reference_engine. now rewrite H.
Qed.

Lemma raising_engine_conforms (evs : list event) :
  JSEval.conforms sample_pow (raising_engine evs).
Proof.
  intros params body args c st H. unfold raising_engine. now rewrite H.
Qed.

(** C2. A commit can fail and still change the buffer, Ans and the
    ledger.  When the code the commit evaluates clicks the keys [AC] and
    [=] and returns NaN, the evaluation yields [Error], and the commit
    leaves the buffer ["0"], Ans 0 and the entry [("0", 0)] at the front
    of the ledger: the first click cleared the buffer, the second
    committed the [0] on display, and the failure branch only
    synchronises the displays.  This holds for every conforming engine,
    in every state, with at least one frame to spare. *)
Theorem failed_commit_keeps_what_the_code_clicked :
  forall pow (E : engine) (M : MathLib) (d : nat) (st : state),
    JSEval.conforms pow E ->
    (List.length (history st) <= 20)%nat ->
    let exprToEval :=
      if Str.is_empty (expression st) then displayMain st else expression st in
    remove_disallowed (remove_whitespace exprToEval) <> "" ->
    E parameter_names (function_body (sanitize exprToEval)) (arguments M st) st
    = raising [ KeypadClick None None (Some "clear");
                KeypadClick None None (Some "equals") ] ->
    let D := nested E M (S d) in
    let st' := handleAction E M D "equals" st in
    fst (evaluateExpression E M D exprToEval st) = Error
    /\ expression st' = "0"
    /\ lastResult st' = Some zero
    /\ history st'
       = List.firstn 20 ({| expr := "0"; res := zero |} :: history st).
Proof.
  intros pow E M d st Hc Hlen exprToEval Hne Hreply D st'.
  assert (Heval : evaluateExpression E M D exprToEval st
                  = (Error,
                     showErrorAnimation
                       (syncDisplay
                          (set_expression "0"
                             (set_lastResult (Some zero)
                                (addToHistory "0" zero (clearExpression st))))))).
  { rewrite evaluateExpression_nonempty by exact Hne.
    unfold call_function. rewrite Hreply. subst D.
    cbn [raising perform nested]. cbv zeta.
    change (dispatch E M (nested E M d)
              (KeypadClick None None (Some "clear")) st)
      with (clearExpression st).
    change (dispatch E M (nested E M d)
              (KeypadClick None None (Some "equals")) (clearExpression st))
      with (equals E M (nested E M d) (clearExpression st)).
    unfold equals at 1 2.
    change (Str.is_empty (expression (clearExpression st))) with true.
    cbv iota.
    change (displayMain (clearExpression st)) with "0".
    rewrite (evaluate_conforming E M (nested E M d) pow "0" (clearExpression st)
               (Normal (VNumber zero)) Hc);
      [|vm_compute; discriminate|vm_compute; reflexivity].
    reflexivity. }
  subst st'. rewrite equals_unfold. unfold equals. fold exprToEval.
  rewrite Heval. cbn [fst]. split; [reflexivity|].
  split; [reflexivity|]. split; [reflexivity|].
  change (history (syncDisplay ?s)) with (history s).
  change (history (showErrorAnimation ?s)) with (history s).
  change (history (syncDisplay ?s)) with (history s).
  change (history (set_expression ?e ?s)) with (history s).
  change (history (set_lastResult ?r ?s)) with (history s).
  rewrite addToHistory_firstn; [reflexivity|reflexivity|exact Hlen].
Qed.

Lemma failed_commit_keeps_what_the_code_clicked_witness :
  let st := appendToExpression clicking_text initial_state in
  let st' := step clicking_engine sample_math 1 (KeyDown "Enter") st in
  sanitize clicking_text = clicking_text
  /\ fst (evaluateExpression clicking_engine sample_math
            (nested clicking_engine sample_math 1) (expression st) st)
     = Error
  /\ (expression st = clicking_text /\ expression st' = "0")
  /\ (lastResult st = None /\ lastResult st' = Some zero)
  /\ (history st = [] /\ history st' = [{| expr := "0"; res := zero |}]).
Proof.
  cbv zeta.
  assert (Hlen : (List.length
                    (history (appendToExpression clicking_text initial_state))
                  <= 20)%nat)
    by (vm_compute; lia).
  destruct (failed_commit_keeps_what_the_code_clicked sample_pow clicking_engine
              sample_math 0 (appendToExpression clicking_text initial_state)
              (raising_engine_conforms _) Hlen)
    as (H1 & H2 & H3 & H4);
    [vm_compute; discriminate|vm_compute; reflexivity|].
  split; [reflexivity|]. split; [exact H1|].
  split; [split; [reflexivity|exact H2]|].
  split; [split; [reflexivity|exact H3]|].
  split; [reflexivity|exact H4].
Defined.

Lemma unlisted_names_evaluate_witness :
  evaluateExpression sample_engine sample_math None "true+1" initial_state
  = (Value 2%float, initial_state)
  /\ evaluateExpression sample_engine sample_math None "1/Infinity" initial_state
     = (Value 0%float, initial_state).
Proof.
  destruct (unlisted_names_evaluate sample_pow sample_engine sample_math None
              initial_state (reference_engine_conforms sample_pow))
    as (_ & H1 & _ & H2).
  split; assumption.
Defined.

Lemma history_holds_the_20_newest_witness :
  List.length (history (push_all sample_items initial_state)) = 20%nat
  /\ history (push_all sample_items initial_state)
     = List.rev (List.tl sample_items).
Proof.
  assert (Hlen : (List.length (history initial_state) <= 20)%nat)
    by (vm_compute; lia).
  assert (Hall : List.Forall (fun it => accepted (expr it) (res it) = true)
                   sample_items)
    by (repeat (apply List.Forall_cons; [vm_compute; reflexivity|]);
        apply List.Forall_nil).
  destruct (history_holds_the_20_newest sample_items initial_state Hlen Hall)
    as (_ & _ & _ & _ & H & _).
  destruct (H eq_refl eq_refl) as [H1 H2]. split; assumption.
Defined.

Lemma safe_tokens_never_stack_operators_witness :
  List.forallb safe_event sample_keys = true
  /\ no_adjacent_operators
       (expression (run sample_engine sample_math 1 sample_keys initial_state))
     = true.
Proof.
  split; [reflexivity|].
  exact (proj1 (safe_tokens_never_stack_operators sample_engine sample_math 1
                  sample_keys
                  (fun _ _ _ _ => events_Return _ _) eq_refl)).
Defined.

Lemma percent_literal_is_divided_by_100_witness :
  replace_percent ("2*" ++ "12.5" ++ "%" ++ "+1")
  = replace_percent "2*" ++ "(" ++ "12.5" ++ "/100)" ++ replace_percent "+1"
  /\ replace_percent ("2*." ++ "5" ++ "%" ++ "+1")
     = replace_percent "2*." ++ "(" ++ "5" ++ "/100)" ++ replace_percent "+1"
  /\ is_literal ("7" ++ ".") = false
  /\ evaluateExpression sample_engine sample_math None "50%" initial_state
     = (Value 0.5%float, initial_state)
  /\ evaluateExpression sample_engine sample_math None ".5%" initial_state
     = (Error, showErrorAnimation initial_state).
Proof.
  destruct percent_literal_is_divided_by_100
    as (H1 & _ & H2 & _ & H3 & _ & _ & H4).
  split; [apply H1; reflexivity|].
  split; [apply H1; reflexivity|].
  split; [apply H3; reflexivity|].
  split.
  - apply (H2 sample_pow). apply reference_engine_conforms.
  - apply (H4 sample_pow). apply reference_engine_conforms.
Defined.

Lemma non_finite_and_thrown_are_one_error_witness :
  evaluateExpression sample_engine sample_math None "1/0" initial_state
  = (Error, showErrorAnimation initial_state)
  /\ evaluateExpression sample_engine sample_math None "sqrt(0-1)" initial_state
     = (Error, showErrorAnimation initial_state).
Proof.
  destruct (non_finite_and_thrown_are_one_error sample_engine sample_math None
              initial_state) as [H1 H2].
  split.
  - destruct (H2 sample_pow (reference_engine_conforms sample_pow))
      as (_ & _ & H & _).
    exact H.
  - apply H1; [vm_compute; discriminate|vm_compute; reflexivity].
Defined.

Lemma degrees_are_converted_and_results_rounded_witness :
  near_half (Math_sin sample_math (degToRad 30%float)) = true
  /\ evaluateExpression sample_engine sample_math None "sin(30)" initial_state
     = (Value 0.5%float, initial_state).
Proof.
  split; [vm_compute; reflexivity|].
  destruct (degrees_are_converted_and_results_rounded sample_engine sample_math)
    as (_ & _ & _ & H & _).
  apply (H sample_pow);
    [apply reference_engine_conforms|reflexivity|vm_compute; reflexivity].
Defined.

Lemma commit_on_empty_buffer_evaluates_zero_witness :
  let st := run sample_engine sample_math 1 [KeyDown "5"; KeyDown "Backspace"]
              initial_state in
  expression st = ""
  /\ expression (handleAction sample_engine sample_math None "equals" st) = "0"
  /\ lastResult (handleAction sample_engine sample_math None "equals" st)
     = Some zero.
Proof.
  cbv zeta. split; [reflexivity|].
  destruct (commit_on_empty_buffer_evaluates_zero sample_pow sample_engine
              sample_math None 1 [KeyDown "5"; KeyDown "Backspace"]
              (reference_engine_conforms sample_pow) eq_refl)
    as (_ & H1 & H2 & _).
  split; assumption.
Defined.

Lemma bare_percent_is_remainder_witness :
  replace_percent ("(3+2)" ++ "%" ++ "3")
  = replace_percent "(3+2)" ++ "%" ++ replace_percent "3"
  /\ evaluateExpression sample_engine sample_math None "(3+2)%3" initial_state
     = (Value 2%float, initial_state).
Proof.
  destruct bare_percent_is_remainder as (H1 & _ & _ & H2).
  split.
  - apply H1. reflexivity.
  - apply (H2 sample_pow). apply reference_engine_conforms.
Defined.

(* ================================================================= *)
(** * Further properties of the sanitizer and the evaluator *)

Section Filters.

Lemma filter_filter (p q : ascii -> bool) (s : string) :
  Str.filter q (Str.filter p s) = Str.filter (fun c => p c && q c) s.
Proof.
  induction s as [|c s IH]; [reflexivity|]. cbn [Str.filter].
  destruct (p c); cbn [Str.filter andb]; [|exact IH].
  destruct (q c); now rewrite IH.
Qed.

Lemma filter_ext (p q : ascii -> bool) (s : string) :
  (forall c, p c = q c) -> Str.filter p s = Str.filter q s.
Proof.
  intros H. induction s as [|c s IH]; [reflexivity|].
  cbn [Str.filter]. now rewrite H, IH.
Qed.

Lemma filter_empty_iff (p : ascii -> bool) (s : string) :
  Str.filter p s = "" <-> Str.forallb (fun c => negb (p c)) s = true.
Proof.
  induction s as [|c s IH]; [now split|]. cbn [Str.filter Str.forallb].
  destruct (p c); cbn [negb andb]; [split; discriminate|exact IH].
Qed.

Lemma allowed_not_whitespace (c : ascii) :
  is_allowed c = true -> is_whitespace c = false.
Proof.
  destruct c as [[] [] [] [] [] [] [] []]; vm_compute; congruence.
Qed.

Lemma remove_whitespace_redundant (s : string) :
  remove_disallowed (remove_whitespace s) = remove_disallowed s.
Proof.
  unfold remove_disallowed, remove_whitespace. rewrite filter_filter.
  apply filter_ext. intros c. destruct (is_allowed c) eqn:Ha.
  - now rewrite (allowed_not_whitespace c Ha).
  - apply andb_false_r.
Qed.

Lemma kept_alphabet (c : ascii) : kept c = true -> in_sanitized_alphabet c = true.
Proof.
  destruct c as [[] [] [] [] [] [] [] []]; vm_compute; congruence.
Qed.

End Filters.

(** X1. [evaluateExpression] returns the empty outcome exactly when the
    raw text has no allowed character, and it then returns the state as it
    was: no error animation is started. *)
Theorem empty_outcome_iff_nothing_to_evaluate :
  forall (E : engine) (M : MathLib) (D : delivery) (raw : string) (st : state),
    (fst (evaluateExpression E M D raw st) = Empty
     <-> nothing_to_evaluate raw = true)
    /\ (fst (evaluateExpression E M D raw st) = Empty
        -> evaluateExpression E M D raw st = (Empty, st)).
Proof.
  intros E M D raw st.
  assert (Hiff : remove_disallowed (remove_whitespace raw) = ""
                 <-> nothing_to_evaluate raw = true).
  { rewrite remove_whitespace_redundant. unfold remove_disallowed.
    rewrite filter_empty_iff. unfold nothing_to_evaluate. split.
    - apply forallb_impl. intros c Hc. now rewrite Hc, orb_true_r.
    - apply forallb_impl. intros c Hc. apply orb_true_iff in Hc.
      destruct Hc as [Hc|Hc]; [|exact Hc].
      destruct (is_allowed c) eqn:Ha; [|reflexivity].
      apply allowed_not_whitespace in Ha. congruence. }
  destruct (string_dec (remove_disallowed (remove_whitespace raw)) "")
    as [He|Hne].
  - rewrite (evaluateExpression_empty E M D raw st He). cbn [fst].
    split; [|reflexivity]. split; [intros _; now apply Hiff|reflexivity].
  - rewrite (evaluateExpression_nonempty E M D raw st Hne).
    assert (Hv : forall c s, fst (validate c s) <> Empty).
    { intros [[| |b|x|f]|] s; cbn; try discriminate.
      destruct (Number_isFinite x); discriminate. }
    split; [split|]; intros H.
    + now elim (Hv _ _ H).
    + apply Hiff in H. contradiction.
    + now elim (Hv _ _ H).
Qed.

Section Animations.

Variable E : engine.
Variable M : MathLib.

Lemma errorAnimations_addToHistory (e : string) (r : float) (st : state) :
  errorAnimations (addToHistory e r st) = errorAnimations st.
Proof. unfold addToHistory. now destruct (_ || _). Qed.

Lemma dispatch_animations (D : delivery) (n : nat) :
  (forall handle ev st,
      D = Some handle -> (n <= errorAnimations st)%nat ->
      (n <= errorAnimations (handle ev st))%nat) ->
  forall ev st,
    (n <= errorAnimations st)%nat ->
    (n <= errorAnimations (dispatch E M D ev st))%nat.
Proof.
  intros HD ev st H. destruct (is_commit ev) eqn:Hc.
  - rewrite dispatch_commit by exact Hc. unfold equals.
    set (x := if Str.is_empty (expression st) then displayMain st else expression st).
    pose proof (evaluateExpression_kept E M D
                  (fun s => (n <= errorAnimations s)%nat)
                  (fun _ => True) (raises_only_any E)
                  (fun h ev' s Hd _ Hs => HD h ev' s Hd Hs)
                  (fun _ _ s Hs => Hs)
                  (fun s Hs => le_S _ _ Hs) x st H) as Hk.
    destruct (evaluateExpression E M D x st) as [o st1]. cbn [snd] in Hk.
    destruct o as [v| |]; [|exact Hk|exact Hk].
    cbn [errorAnimations syncDisplay set_expression set_lastResult].
    now rewrite errorAnimations_addToHistory.
  - destruct (dispatch_frame E M D ev st Hc) as (_ & _ & _ & ->). exact H.
Qed.

Lemma step_animations (d : nat) (n : nat) (ev : event) (st : state) :
  (n <= errorAnimations st)%nat -> (n <= errorAnimations (step E M d ev st))%nat.
Proof.
  apply (step_kept E M (fun s => (n <= errorAnimations s)%nat) (fun _ => True));
    [|exact I].
  intros D HD ev' st' _. apply dispatch_animations.
  intros handle ev'' st'' Hd. now apply HD.
Qed.

Lemma failed_evaluation_animates (D : delivery) (n : nat) (raw : string) (st : state) :
  (forall handle ev st,
      D = Some handle -> (n <= errorAnimations st)%nat ->
      (n <= errorAnimations (handle ev st))%nat) ->
  (n <= errorAnimations st)%nat ->
  fst (evaluateExpression E M D raw st) = Error ->
  (S n <= errorAnimations (snd (evaluateExpression E M D raw st)))%nat.
Proof.
  intros HD H.
  destruct (string_dec (remove_disallowed (remove_whitespace raw)) "")
    as [He|Hne].
  - rewrite (evaluateExpression_empty E M D raw st He). discriminate.
  - rewrite (evaluateExpression_nonempty E M D raw st Hne).
    pose proof (call_function_kept E M D
                  (fun s => (n <= errorAnimations s)%nat)
                  (fun _ => True) (raises_only_any E)
                  (fun h ev' s Hd _ Hs => HD h ev' s Hd Hs)
                  (fun _ _ s Hs => Hs)
                  (sanitize raw) st H) as Hk.
    pose proof (validate_state (fst (call_function E M D (sanitize raw) st))
                  (snd (call_function E M D (sanitize raw) st))) as Hv.
    intros Ho. rewrite Ho in Hv. rewrite Hv. cbn [errorAnimations showErrorAnimation].
    now apply le_n_S.
Qed.

End Animations.

(** X3. The error animation is started by commits alone: an event that is
    no commit leaves the number of animations started as it is, no event
    lowers it, and a commit whose evaluation yields [Error] starts at
    least one (more when the evaluated code raises commits that fail in
    turn). *)
Theorem error_animation_only_by_commits :
  forall (E : engine) (M : MathLib) (d : nat) (ev : event) (st : state),
    (is_commit ev = false ->
       errorAnimations (step E M d ev st) = errorAnimations st)
    /\ (errorAnimations st <= errorAnimations (step E M d ev st))%nat
    /\ (is_commit ev = true ->
        fst (evaluateExpression E M (nested E M d)
               (if Str.is_empty (expression st)
                then displayMain st else expression st) st) = Error ->
        (S (errorAnimations st) <= errorAnimations (step E M d ev st))%nat).
Proof.
  intros E M d ev st. split; [|split].
  - intros Hc. unfold step.
    now destruct (dispatch_frame E M (nested E M d) ev st Hc) as (_ & _ & _ & ->).
  - apply step_animations. apply le_n.
  - intros Hc Hfail. unfold step. rewrite dispatch_commit by exact Hc.
    unfold equals.
    set (x := if Str.is_empty (expression st) then displayMain st
              else expression st) in *.
    pose proof (failed_evaluation_animates E M (nested E M d)
                  (errorAnimations st) x st) as Hk.
    destruct (evaluateExpression E M (nested E M d) x st) as [o st1].
    cbn [fst snd] in *. subst o.
    apply Hk; [|apply le_n|reflexivity].
    intros handle ev' st' Hd Hst'.
    apply (nested_kept E M (fun s => (errorAnimations st <= errorAnimations s)%nat)
             (fun _ => True)) with (d := d); auto.
    intros D HD ev'' st'' _. apply dispatch_animations.
    intros h e s Hh. now apply HD.
Qed.

(** X4. The pass that removes white space does not change the text the
    engine receives: white space is outside the allowed class, so the
    second pass removes it anyway. *)
Theorem whitespace_pass_is_subsumed :
  forall s : string,
    remove_disallowed (remove_whitespace s) = remove_disallowed s
    /\ sanitize s = replace_percent (replace_caret (remove_disallowed s)).
Proof.
  intros s. split; [apply remove_whitespace_redundant|].
  unfold sanitize. now rewrite remove_whitespace_redundant.
Qed.

(** X5. A sanitized text consists of digits, letters and the characters
    [+ - * / ( ) . %]: it has no caret, no white space and nothing from
    outside the allowed class. *)
Theorem sanitized_alphabet :
  forall s : string,
    Str.forallb in_sanitized_alphabet (sanitize s) = true
    /\ Str.existsb (fun c => Ascii.eqb c "^" || is_whitespace c) (sanitize s)
       = false.
Proof.
  intros s. pose proof (sanitize_kept s) as Hk.
  split.
  - revert Hk. apply forallb_impl. exact kept_alphabet.
  - induction (sanitize s) as [|c t IH]; [reflexivity|].
    cbn [Str.forallb Str.existsb] in *. apply andb_true_iff in Hk.
    destruct Hk as [Hc Ht]. destruct (kept_facts c Hc) as (_ & -> & ->).
    now apply IH.
Qed.

(* ================================================================= *)
(** * Further properties of the buffer operations *)

Section Tokens.

Lemma includes_operators_no_digit (t : string) :
  Str.existsb is_digit t = true -> Str.includes operators t = false.
Proof.
  intros Hd. destruct (Str.includes operators t) eqn:Hi; [|reflexivity].
  apply includes_forall in Hi. exfalso.
  induction t as [|c t IH]; [discriminate Hd|].
  cbn [Str.existsb Str.forallb] in *. apply andb_true_iff in Hi.
  destruct Hi as [Hc Ht]. apply orb_true_iff in Hd.
  destruct Hd as [Hd|Hd]; [|now apply IH].
  apply digit_not_operator, negb_true_iff in Hd.
  unfold is_operator_char in Hd. unfold operators in Hc. congruence.
Qed.

Lemma slice_0_m1_snoc (e : string) (c : ascii) :
  Str.slice_0_m1 (e ++ String c "") = e.
Proof.
  induction e as [|x e IH]; [reflexivity|].
  cbn [append]. destruct (e ++ String c "") as [|y r] eqn:Hr.
  - destruct e; discriminate Hr.
  - change (Str.slice_0_m1 (String x (String y r)))
      with (String x (Str.slice_0_m1 (String y r))).
    now rewrite IH.
Qed.

End Tokens.

(** X6. A key whose name contains a digit is appended to the buffer as it
    is, whatever else the name contains: the function keys [F1] to [F12]
    type their names. *)
Theorem key_with_a_digit_is_appended :
  forall (E : engine) (M : MathLib) (D : delivery) (key : string) (st : state),
    Str.existsb is_digit key = true ->
    expression (handleKeyDown E M D key st) = expression st ++ key.
Proof.
  intros E M D key st Hd. unfold handleKeyDown. rewrite Hd.
  rewrite expression_appendToExpression.
  now rewrite (includes_operators_no_digit key Hd).
Qed.

(** X7. The empty token counts as an operator: appended to a buffer that
    ends in an operator it removes that operator, and it leaves any other
    buffer as it is. *)
Theorem empty_token_removes_trailing_operator :
  forall st : state,
    expression (appendToExpression "" st)
    = if ends_with is_operator_char (expression st)
      then Str.slice_0_m1 (expression st)
      else expression st.
Proof.
  intros st. rewrite expression_appendToExpression, !app_nil_r.
  rewrite includes_empty. cbn [andb].
  destruct (Str.is_empty (expression st)) eqn:He.
  - apply is_empty_true in He. now rewrite He.
  - cbn [orb].
    destruct (Str.includes operators (Str.slice_m1 (expression st))) eqn:Hl.
    + apply ends_with_last in Hl. apply is_empty_false in He.
      destruct Hl as [Hl|Hl]; [contradiction|now rewrite Hl].
    + apply not_ends_with_last in Hl. now rewrite Hl.
Qed.

(** X8. Deleting after appending one character restores the buffer,
    except when the character is an operator that replaced a trailing
    operator: then the buffer has lost that operator.  Deleting from the
    empty buffer leaves it empty. *)
Theorem delete_undoes_append :
  forall (c : ascii) (st : state),
    expression (deleteLastChar (appendToExpression (String c "") st))
    = (if is_operator_char c && ends_with is_operator_char (expression st)
       then Str.slice_0_m1 (expression st)
       else expression st)
    /\ (expression st = "" -> expression (deleteLastChar st) = "").
Proof.
  intros c st. split.
  - cbn [deleteLastChar expression syncDisplay set_expression].
    rewrite expression_appendToExpression, includes_single.
    destruct (is_operator_char c); cbn [andb]; [|apply slice_0_m1_snoc].
    destruct (Str.is_empty (expression st)) eqn:He.
    + apply is_empty_true in He. rewrite He. reflexivity.
    + cbn [orb].
      destruct (Str.includes operators (Str.slice_m1 (expression st))) eqn:Hl.
      * apply ends_with_last in Hl. apply is_empty_false in He.
        destruct Hl as [Hl|Hl]; [contradiction|].
        rewrite Hl. apply slice_0_m1_snoc.
      * apply not_ends_with_last in Hl. rewrite Hl. apply slice_0_m1_snoc.
  - intros He. cbn [deleteLastChar expression syncDisplay set_expression].
    now rewrite He.
Qed.

(* ================================================================= *)
(** * Further invariants of the page *)


(** X9. In every state the page reaches both display elements show the
    buffer: the main display shows [0] and the expression line a single
    space when the buffer is empty. *)
Theorem displays_show_the_buffer :
  forall (E : engine) (M : MathLib) (d : nat) (evs : list event),
    shown (run E M d evs initial_state).
Proof. intros E M d evs. apply reachable_shown. Qed.

(** X10. Every entry of the ledger, in every state the page reaches, has
    a finite result and an expression that is not blank. *)
Theorem ledger_entries_are_accepted :
  forall (E : engine) (M : MathLib) (d : nat) (evs : list event)
         (it : history_item),
    List.In it (history (run E M d evs initial_state)) ->
    Number_isFinite (res it) = true
    /\ Str.is_empty (trim (expr it)) = false.
Proof.
  intros E M d evs it Hin.
  pose proof (proj2 (reachable_ledger E M d evs)) as Hacc.
  unfold entries_accepted in Hacc. rewrite List.Forall_forall in Hacc.
  specialize (Hacc it Hin). unfold accepted in Hacc.
  apply andb_true_iff in Hacc. destruct Hacc as [Hacc H3].
  apply andb_true_iff in Hacc. destruct Hacc as [H1 _].
  apply negb_true_iff in H3. now split.
Qed.

(** X11. An event that is no commit leaves Ans as it is, changes the
    angle mode only if it is the toggle (the button, or the key [d] or
    [D]), and changes the ledger only if it clears it.  A commit is
    another matter: the code it evaluates may click the toggle, and the
    angle mode has changed when the commit returns. *)
Theorem only_commit_writes_ans :
  forall (E : engine) (M : MathLib) (d : nat) (ev : event) (st : state),
    is_commit ev = false ->
    lastResult (step E M d ev st) = lastResult st
    /\ (is_angle_toggle ev = false ->
        angleMode (step E M d ev st) = angleMode st)
    /\ (is_clear_history ev = false ->
        history (step E M d ev st) = history st)
    /\ angleMode
         (step (raising_engine [AngleToggleClick]) M 1 (KeyDown "Enter")
            (appendToExpression "keypad.click()" initial_state))
       = RAD.
Proof.
  intros E M d ev st Hc. unfold step at 1 2 3.
  destruct (dispatch_frame E M (nested E M d) ev st Hc) as (H1 & H2 & H3 & _).
  repeat split; auto.
Qed.

Lemma ledger_entries_are_accepted_witness :
  let st := run sample_engine sample_math 1 sample_keys initial_state in
  List.In {| expr := "3-4"; res := (-1)%float |} (history st)
  /\ Number_isFinite (-1)%float = true.
Proof.
  cbv zeta.
  assert (Hin : List.In {| expr := "3-4"; res := (-1)%float |}
                  (history (run sample_engine sample_math 1 sample_keys
                              initial_state)))
    by (vm_compute; left; reflexivity).
  split; [exact Hin|].
  exact (proj1 (ledger_entries_are_accepted sample_engine sample_math 1
                  sample_keys _ Hin)).
Defined.

Lemma only_commit_writes_ans_witness :
  is_commit (KeyDown "7") = false
  /\ lastResult (step sample_engine sample_math 1 (KeyDown "7") initial_state)
     = lastResult initial_state.
Proof.
  split; [reflexivity|].
  exact (proj1 (only_commit_writes_ans sample_engine sample_math 1 (KeyDown "7")
                  initial_state eq_refl)).
Defined.

Lemma error_animation_only_by_commits_witness :
  let st := appendToExpression "1/0" initial_state in
  is_commit (KeyDown "Enter") = true
  /\ (S (errorAnimations st)
      <= errorAnimations (step sample_engine sample_math 1 (KeyDown "Enter") st))%nat.
Proof.
  cbv zeta. split; [reflexivity|].
  apply (proj2 (proj2 (error_animation_only_by_commits sample_engine sample_math
                         1 (KeyDown "Enter")
                         (appendToExpression "1/0" initial_state))));
    [reflexivity|vm_compute; reflexivity].
Defined.

(* ================================================================= *)
(** * Decimal points in the buffer *)

Section Dots.

Lemma seen_dot_app (a b : string) :
  forall seen, seen_dot seen (a ++ b) = seen_dot (seen_dot seen a) b.
Proof.
  induction a as [|c a IH]; intros seen; [reflexivity|].
  cbn [append seen_dot]. destruct (is_separator c); [apply IH|].
  destruct (is_dot c); apply IH.
Qed.

Lemma one_dot_from_app (a b : string) :
  forall seen,
    one_dot_from seen (a ++ b)
    = one_dot_from seen a && one_dot_from (seen_dot seen a) b.
Proof.
  induction a as [|c a IH]; intros seen; [reflexivity|].
  cbn [append seen_dot one_dot_from]. destruct (is_separator c); [apply IH|].
  destruct (is_dot c); [|apply IH]. rewrite IH. apply andb_assoc.
Qed.

Lemma dot_free_one_dot (t : string) :
  dot_free t = true -> forall seen, one_dot_from seen t = true.
Proof.
  unfold dot_free. induction t as [|c t IH]; intros H seen; [reflexivity|].
  cbn [Str.forallb] in H. apply andb_true_iff in H. destruct H as [Hc Ht].
  apply negb_true_iff in Hc. cbn [one_dot_from]. rewrite Hc.
  destruct (is_separator c); now apply IH.
Qed.

Lemma dot_free_not_seen (t : string) :
  dot_free t = true -> seen_dot false t = false.
Proof.
  unfold dot_free. induction t as [|c t IH]; intros H; [reflexivity|].
  cbn [Str.forallb] in H. apply andb_true_iff in H. destruct H as [Hc Ht].
  apply negb_true_iff in Hc. cbn [seen_dot]. rewrite Hc.
  destruct (is_separator c); now apply IH.
Qed.

Lemma at_most_one_dot_ok (s : string) :
  at_most_one_dot s -> one_dot_per_segment s = true.
Proof.
  unfold one_dot_per_segment. intros [H|(a & b & -> & Ha & Hb)].
  - now apply dot_free_one_dot.
  - rewrite one_dot_from_app, (dot_free_one_dot a Ha), (dot_free_not_seen a Ha).
    cbn [andb]. change (one_dot_from false (String "." b))
      with (one_dot_from true b).
    now apply dot_free_one_dot.
Qed.

Lemma slice_split (e : string) : e = Str.slice_0_m1 e ++ Str.slice_m1 e.
Proof.
  induction e as [|c e IH]; [reflexivity|].
  destruct e as [|d e']; [reflexivity|].
  change (Str.slice_0_m1 (String c (String d e')))
    with (String c (Str.slice_0_m1 (String d e'))).
  change (Str.slice_m1 (String c (String d e')))
    with (Str.slice_m1 (String d e')).
  cbn [append]. now rewrite <- IH.
Qed.

Lemma one_dot_slice (e : string) :
  one_dot_per_segment e = true ->
  one_dot_per_segment (Str.slice_0_m1 e) = true.
Proof.
  unfold one_dot_per_segment. intros H.
  rewrite (slice_split e), one_dot_from_app in H.
  now apply andb_true_iff in H.
Qed.

Lemma one_dot_append (e t : string) :
  one_dot_per_segment e = true -> dot_free t = true ->
  one_dot_per_segment (e ++ t) = true.
Proof.
  unfold one_dot_per_segment. intros He Ht.
  now rewrite one_dot_from_app, He, dot_free_one_dot.
Qed.

Lemma appendToExpression_one_dot (t : string) (st : state) :
  dot_free t = true ->
  one_dot_per_segment (expression st) = true ->
  one_dot_per_segment (expression (appendToExpression t st)) = true.
Proof.
  intros Ht Hs. rewrite expression_appendToExpression.
  destruct (_ && _); apply one_dot_append; auto. now apply one_dot_slice.
Qed.

Lemma includes_dot (s : string) : Str.includes s "." = Str.existsb is_dot s.
Proof.
  induction s as [|c s IH]; [reflexivity|].
  cbn [Str.includes Str.existsb]. rewrite IH. f_equal.
  unfold is_dot. cbn [String.prefix].
  destruct (Ascii.eqb_spec c ".") as [->|Hne].
  - destruct s; reflexivity.
  - destruct (ascii_dec "." c) as [Heq|_]; [now elim Hne|reflexivity].
Qed.

Lemma last_part_from_seen (s : string) :
  forall acc,
    Str.includes (last_part_from acc s) "."
    = seen_dot (Str.existsb is_dot acc) s.
Proof.
  induction s as [|c s IH]; intros acc.
  - cbn [last_part_from seen_dot]. rewrite includes_dot. unfold Str.rev.
    rewrite existsb_rev_onto. cbn [Str.existsb]. apply orb_false_r.
  - cbn [last_part_from seen_dot]. fold (is_separator c).
    destruct (is_separator c); [now rewrite IH|].
    rewrite IH. cbn [Str.existsb]. now destruct (is_dot c).
Qed.

Lemma last_part_seen (s : string) :
  Str.includes (last_part s) "." = seen_dot false s.
Proof. unfold last_part. now rewrite last_part_from_seen. Qed.

Lemma digit_not_dot (c : ascii) : is_digit c = true -> negb (is_dot c) = true.
Proof. destruct c as [[] [] [] [] [] [] [] []]; vm_compute; congruence. Qed.

Lemma all_digits_dot_free (s : string) : all_digits s = true -> dot_free s = true.
Proof. apply forallb_impl, digit_not_dot. Qed.

Lemma format_number_one_dot (n k s : Z) : at_most_one_dot (format_number n k s).
Proof.
  unfold format_number, zeros.
  pose proof (decimal_digits_all_digits (Z.to_N s)) as Hd.
  pose proof (decimal_digits_all_digits (Z.to_N (Z.abs (n - 1)))) as He.
  set (digits := decimal_digits (Z.to_N s)) in *.
  set (d := decimal_digits (Z.to_N (Z.abs (n - 1)))) in *.
  assert (Hf : dot_free digits = true) by now apply all_digits_dot_free.
  assert (Hfd : dot_free d = true) by now apply all_digits_dot_free.
  assert (Hsub : forall i j, dot_free (String.substring i j digits) = true)
    by (intros i j; now apply substring_forallb).
  assert (Hz : forall j, dot_free (Str.repeat "0" j) = true)
    by (intros j; now apply repeat_forallb).
  assert (Hexp : dot_free ("e" ++ (if n - 1 <? 0 then "-" else "+") ++ d) = true).
  { unfold dot_free in *. destruct (n - 1 <? 0); cbn [append Str.forallb];
      now rewrite Hfd. }
  destruct ((-5 <=? n) && (n <=? 21)).
  - destruct (k <=? n); [|destruct (0 <? n)].
    + left. unfold dot_free in *. now rewrite forallb_app, Hf, Hz.
    + right. eexists _, _. split; [reflexivity|]. split; apply Hsub.
    + right. exists "0", (Str.repeat "0" (Z.to_nat (- n)) ++ digits).
      split; [reflexivity|]. split; [reflexivity|].
      unfold dot_free in *. now rewrite forallb_app, Hz, Hf.
  - cbv zeta. fold d. destruct (k =? 1).
    + left. unfold dot_free in *. rewrite forallb_app, Hf. exact Hexp.
    + right. eexists _, _. split; [reflexivity|]. split; [apply Hsub|].
      unfold dot_free in *. rewrite forallb_app.
      unfold dot_free in Hsub. rewrite Hsub. exact Hexp.
Qed.

Lemma Number_toString_one_dot (x : float) :
  one_dot_per_segment (Number_toString x) = true.
Proof.
  unfold Number_toString.
  destruct (Prim2SF x) as [s|s| |s m e]; try reflexivity.
  - destruct s; reflexivity.
  - destruct (shortest m e) as [[n k] d].
    pose proof (at_most_one_dot_ok _ (format_number_one_dot n k d)) as H.
    destruct s; [|exact H]. exact H.
Qed.

Variable E : engine.
Variable M : MathLib.

Lemma handleFunction_one_dot (n : string) (st : state) :
  one_dot_per_segment (expression st) = true ->
  one_dot_per_segment (expression (handleFunction n st)) = true.
Proof.
  intros Hs. unfold handleFunction.
  destruct (is_one_of n _) eqn:Hn.
  - apply is_one_of_In in Hn. cbn [expression syncDisplay set_expression].
    apply one_dot_append; [exact Hs|].
    cbn in Hn. intuition (subst; reflexivity).
  - destruct (String.eqb n "square").
    { destruct (Str.is_empty (expression st)); [exact Hs|].
      cbn [expression syncDisplay set_expression].
      change (one_dot_per_segment ("(" ++ expression st ++ ")^2"))
        with (one_dot_per_segment (expression st ++ ")^2")).
      now apply one_dot_append. }
    destruct (String.eqb n "pi"); [now apply appendToExpression_one_dot|].
    destruct (String.eqb n "e"); [now apply appendToExpression_one_dot|].
    destruct (String.eqb n "ans"); [|exact Hs].
    destruct (lastResult st); [now apply appendToExpression_one_dot|exact Hs].
Qed.

Lemma dot_action_one_dot (st : state) :
  one_dot_per_segment (expression st) = true ->
  one_dot_per_segment
    (expression (if Str.includes (last_part (expression st)) "." then st
                 else appendToExpression "." st)) = true.
Proof.
  intros Hs. rewrite last_part_seen.
  destruct (seen_dot false (expression st)) eqn:Hseen; [exact Hs|].
  rewrite expression_appendToExpression.
  change (Str.includes operators ".") with false. cbn [andb].
  unfold one_dot_per_segment in *.
  rewrite one_dot_from_app, Hs, Hseen. reflexivity.
Qed.

Section Delivered.

Variable D : delivery.

Hypothesis E_dot_free : raises_only (fun ev => dot_free_event ev = true) E.
Hypothesis D_one_dot :
  forall handle ev st,
    D = Some handle -> dot_free_event ev = true ->
    one_dot_per_segment (expression st) = true ->
    one_dot_per_segment (expression (handle ev st)) = true.

Lemma equals_one_dot (st : state) :
  one_dot_per_segment (expression st) = true ->
  one_dot_per_segment (expression (equals E M D st)) = true.
Proof.
  intros Hs. unfold equals.
  set (x := if Str.is_empty (expression st) then displayMain st else expression st).
  pose proof (evaluateExpression_kept E M D
                (fun s => one_dot_per_segment (expression s) = true)
                (fun ev => dot_free_event ev = true) E_dot_free D_one_dot
                (fun _ _ s H => H) (fun s H => H) x st Hs) as Hk.
  destruct (evaluateExpression E M D x st) as [o st1]. cbn [snd] in Hk.
  destruct o; cbn [expression syncDisplay set_expression];
    [apply Number_toString_one_dot|exact Hk|exact Hk].
Qed.

Lemma handleAction_one_dot (a : string) (st : state) :
  one_dot_per_segment (expression st) = true ->
  one_dot_per_segment (expression (handleAction E M D a st)) = true.
Proof.
  intros Hs. unfold handleAction.
  destruct (String.eqb a "clear"); [reflexivity|].
  destruct (String.eqb a "delete").
  { cbn [expression deleteLastChar syncDisplay set_expression].
    now apply one_dot_slice. }
  destruct (String.eqb a "equals"); [now apply equals_one_dot|].
  destruct (String.eqb a "percent");
    [now apply appendToExpression_one_dot|].
  destruct (String.eqb a "dot"); [now apply dot_action_one_dot|].
  destruct (String.eqb a "double-zero"); [|exact Hs].
  destruct (Str.is_empty (expression st));
    now apply appendToExpression_one_dot.
Qed.

Lemma dispatch_one_dot (ev : event) (st : state) :
  dot_free_event ev = true ->
  one_dot_per_segment (expression st) = true ->
  one_dot_per_segment (expression (dispatch E M D ev st)) = true.
Proof.
  intros Hev Hs. destruct ev as [v f a|k|i| |]; cbn [dispatch].
  - unfold handleKeypadClick.
    destruct (truthy a); [now apply handleAction_one_dot|].
    destruct (truthy f); [now apply handleFunction_one_dot|].
    destruct v as [v|]; [|exact Hs].
    apply appendToExpression_one_dot; assumption.
  - cbn [dot_free_event] in Hev. unfold handleKeyDown.
    destruct (Str.existsb is_digit k) eqn:Hd.
    { cbn [negb orb] in Hev. now apply appendToExpression_one_dot. }
    destruct (is_one_of k ["+"; "-"; "*"; "/"; "^"; "("; ")"]) eqn:Hop.
    { apply appendToExpression_one_dot; [|exact Hs].
      apply is_one_of_In in Hop. cbn in Hop. intuition (subst; reflexivity). }
    repeat match goal with
           | |- context [if ?b then _ else _] => destruct b
           end;
      try exact Hs;
      try (now apply handleAction_one_dot);
      try (now apply handleFunction_one_dot).
  - unfold historyItemClick. destruct (List.nth_error _ _); [|exact Hs].
    cbn [expression syncDisplay set_expression]. apply Number_toString_one_dot.
  - exact Hs.
  - exact Hs.
Qed.

End Delivered.

Lemma run_one_dot (d : nat) (evs : list event) (st : state) :
  raises_only (fun ev => dot_free_event ev = true) E ->
  List.forallb dot_free_event evs = true ->
  one_dot_per_segment (expression st) = true ->
  one_dot_per_segment (expression (run E M d evs st)) = true.
Proof.
  intros HE Hevs.
  apply (run_kept E M (fun s => one_dot_per_segment (expression s) = true)
           (fun ev => dot_free_event ev = true)).
  - intros D HD. now apply dispatch_one_dot.
  - apply List.Forall_forall. now apply List.forallb_forall.
Qed.

End Dots.

(** X12. The dot action never puts a second decimal point into a segment:
    when no token brings a dot of its own, whether the event comes from
    the user or is raised by evaluated code, no segment of the buffer
    between operators and parentheses has two dots, in any state the page
    reaches; the dot action appends a dot when the last segment has none
    and does nothing otherwise, so a second dot action in a row changes
    nothing.  Evaluated code is held to the same condition as the user:
    code that clicks twice a button whose value is a dot leaves two dots
    side by side. *)
Theorem one_decimal_point_per_segment :
  forall (E : engine) (M : MathLib) (D : delivery) (d : nat) (evs : list event),
    raises_only (fun ev => dot_free_event ev = true) E ->
    List.forallb dot_free_event evs = true ->
    one_dot_per_segment (expression (run E M d evs initial_state)) = true
    /\ (forall st,
          expression (handleAction E M D "dot" st)
          = if Str.includes (last_part (expression st)) "."
            then expression st
            else expression st ++ ".")
    /\ (forall st,
          handleAction E M D "dot" (handleAction E M D "dot" st)
          = handleAction E M D "dot" st)
    /\ (let typed :=
          [ KeypadClick (Some "keypad") None None; KeyDown ".";
            KeypadClick (Some "click") None None; KeyDown "("; KeyDown ")";
            KeyDown "Enter" ] in
        List.forallb dot_free_event typed = true
        /\ expression
             (run (raising_engine [ KeypadClick (Some ".") None None;
                                    KeypadClick (Some ".") None None ]) M 1
                typed initial_state)
           = "keypad.click()..").
Proof.
  intros E M D d evs HE Hevs.
  assert (Hdot : forall st,
             handleAction E M D "dot" st
             = if seen_dot false (expression st) then st
               else appendToExpression "." st).
  { intros st. change (handleAction E M D "dot" st)
      with (if Str.includes (last_part (expression st)) "." then st
            else appendToExpression "." st).
    now rewrite last_part_seen. }
  assert (Hexp : forall st,
             expression (appendToExpression "." st) = expression st ++ ".").
  { intros st. rewrite expression_appendToExpression. reflexivity. }
  split; [|split; [|split]].
  - apply run_one_dot; [exact HE|exact Hevs|reflexivity].
  - intros st. rewrite Hdot, last_part_seen.
    destruct (seen_dot false (expression st)); [reflexivity|apply Hexp].
  - intros st. rewrite (Hdot st).
    destruct (seen_dot false (expression st)) eqn:Hseen.
    + now rewrite Hdot, Hseen.
    + rewrite Hdot, Hexp, seen_dot_app, Hseen. reflexivity.
  - split; reflexivity.
Qed.

Lemma one_decimal_point_per_segment_witness :
  List.forallb dot_free_event
    [KeyDown "3"; KeyDown "."; KeyDown "5"; KeyDown "."; KeyDown "+";
     KeyDown "2"; KeyDown "."; KeyDown "."] = true
  /\ expression
       (run sample_engine sample_math 1
          [KeyDown "3"; KeyDown "."; KeyDown "5"; KeyDown "."; KeyDown "+";
           KeyDown "2"; KeyDown "."; KeyDown "."] initial_state) = "3.5+2."
  /\ one_dot_per_segment "3.5+2." = true.
Proof.
  split; [reflexivity|]. split; [reflexivity|].
  exact (proj1 (one_decimal_point_per_segment sample_engine sample_math None 1
                  [KeyDown "3"; KeyDown "."; KeyDown "5"; KeyDown ".";
                   KeyDown "+"; KeyDown "2"; KeyDown "."; KeyDown "."]
                  (fun _ _ _ _ => events_Return _ _) eq_refl)).
Defined.

(* ================================================================= *)
(** * The sanitizer on the texts the handlers build *)

Section Locality.

Lemma filter_app (p : ascii -> bool) (a b : string) :
  Str.filter p (a ++ b) = Str.filter p a ++ Str.filter p b.
Proof.
  induction a as [|c a IH]; [reflexivity|]. cbn [append Str.filter].
  destruct (p c); cbn [append]; now rewrite IH.
Qed.

Lemma replace_caret_app (a b : string) :
  replace_caret (a ++ b) = replace_caret a ++ replace_caret b.
Proof.
  induction a as [|c a IH]; [reflexivity|]. cbn [append replace_caret].
  destruct (Ascii.eqb c "^"); cbn [append]; now rewrite IH.
Qed.

Lemma match_percent_not_across (a b : string) :
  JS.starts_with (fun c => negb (breaks_literal c)) b = false ->
  a <> "" -> match_percent a = None -> match_percent (a ++ b) = None.
Proof.
  intros Hb Hne Hnone.
  destruct b as [|x b'].
  { now rewrite app_nil_r. }
  cbn [JS.starts_with] in Hb. apply negb_false_iff in Hb.
  unfold breaks_literal in Hb. apply andb_true_iff in Hb.
  destruct Hb as [Hx Hp]. apply negb_true_iff in Hx, Hp.
  apply Ascii.eqb_neq in Hp.
  destruct (match_percent (a ++ String x b')) as [[lit r]|] eqn:Hm;
    [|reflexivity].
  exfalso. apply match_percent_iff in Hm. destruct Hm as [Hlit Heq].
  pose proof (is_literal_digit_or_dot _ Hlit) as Hdd.
  assert (Hpc : digit_or_dot "%" = false) by reflexivity.
  cbn [append] in Heq.
  destruct (Str.forallb digit_or_dot a) eqn:Ha.
  - destruct (split_unique digit_or_dot _ _ _ _ _ _ Ha Hdd Hx Hpc Heq)
      as (_ & Hxp & _).
    contradiction.
  - destruct (first_outside _ _ Ha) as (v & y & w & -> & Hv & Hy).
    rewrite app_assoc in Heq. cbn [append] in Heq.
    destruct (split_unique digit_or_dot _ _ _ _ _ _ Hv Hdd Hy Hpc Heq)
      as (-> & -> & _).
    assert (Hs : match_percent (lit ++ String "%" w) = Some (lit, w))
      by (apply match_percent_iff; now split).
    congruence.
Qed.

Lemma replace_percent_local (a : string) :
  forall b,
    JS.starts_with (fun c => negb (breaks_literal c)) b = false ->
    replace_percent (a ++ b) = replace_percent a ++ replace_percent b.
Proof.
  induction a as [|a l0 rest Hm IH|c a Hm IH] using replace_percent_ind;
    intros b Hb.
  - reflexivity.
  - rewrite (replace_percent_match _ _ _ (match_percent_extend _ _ _ _ Hm)).
    rewrite (replace_percent_match _ _ _ Hm), (IH b Hb).
    now rewrite !app_assoc.
  - pose proof (match_percent_not_across (String c a) b Hb
                  ltac:(discriminate) Hm) as Hnone.
    cbn [append] in Hnone |- *.
    rewrite (replace_percent_nomatch _ _ Hnone), (replace_percent_nomatch _ _ Hm).
    cbn [append]. f_equal. now apply IH.
Qed.

Lemma sanitize_app (e t : string) :
  JS.starts_with (fun c => is_allowed c && breaks_literal c) t = true ->
  sanitize (e ++ t) = sanitize e ++ sanitize t.
Proof.
  intros Ht. unfold sanitize.
  rewrite !remove_whitespace_redundant. unfold remove_disallowed.
  rewrite filter_app, replace_caret_app. apply replace_percent_local.
  destruct t as [|c t']; [discriminate Ht|].
  cbn [JS.starts_with] in Ht. apply andb_true_iff in Ht.
  destruct Ht as [Ha Hbrk]. cbn [Str.filter]. rewrite Ha.
  cbn [replace_caret]. destruct (Ascii.eqb c "^"); [reflexivity|].
  cbn [JS.starts_with]. now rewrite Hbrk.
Qed.

Lemma sanitize_open_paren (e : string) :
  sanitize (String "(" e) = String "(" (sanitize e).
Proof.
  unfold sanitize. rewrite !remove_whitespace_redundant.
  unfold remove_disallowed. cbn [Str.filter].
  change (is_allowed "(") with true. cbv iota. cbn [replace_caret].
  change (Ascii.eqb "(" "^") with false. cbv iota.
  now apply replace_percent_nomatch.
Qed.

Lemma no_percent_match_free (s : string) :
  Str.existsb (Ascii.eqb "%") s = false -> match_free s = true.
Proof.
  induction s as [|c s IH]; [reflexivity|].
  intros H. cbn [match_free].
  destruct (match_percent (String c s)) as [[lit r]|] eqn:Hm.
  - exfalso. apply match_percent_iff in Hm. destruct Hm as [_ Heq].
    rewrite Heq in H. clear - H.
    induction lit as [|x lit IH]; cbn in H; [discriminate|].
    apply orb_false_iff in H. destruct H as [_ H]. now apply IH.
  - cbn [Str.existsb] in H. apply orb_false_iff in H. now apply IH.
Qed.

Lemma sanitize_fixed (t : string) :
  Str.forallb kept t = true -> match_free t = true -> sanitize t = t.
Proof.
  intros Hk Hf. unfold sanitize. rewrite remove_whitespace_redundant.
  unfold remove_disallowed. rewrite (filter_id _ t).
  - rewrite (replace_caret_fixed _ Hk). now apply match_free_fixed.
  - revert Hk. apply forallb_impl. intros c Hc. now apply kept_facts in Hc.
Qed.

Lemma number_char_facts (c : ascii) :
  number_char c = true -> kept c = true /\ Ascii.eqb "%" c = false.
Proof.
  destruct c as [[] [] [] [] [] [] [] []]; vm_compute; intros H;
    try discriminate H; now split.
Qed.

Lemma number_chars_no_percent (t : string) :
  Str.forallb number_char t = true -> Str.existsb (Ascii.eqb "%") t = false.
Proof.
  induction t as [|c t IH]; [reflexivity|].
  cbn [Str.forallb Str.existsb]. rewrite andb_true_iff. intros [H1 H2].
  destruct (number_char_facts c H1) as [_ ->]. now apply IH.
Qed.

Lemma digit_number_char (c : ascii) : is_digit c = true -> number_char c = true.
Proof. unfold number_char. now intros ->. Qed.

Lemma format_number_chars (n k s : Z) :
  Str.forallb number_char (format_number n k s) = true
  /\ format_number n k s <> "".
Proof.
  unfold format_number, zeros.
  pose proof (decimal_digits_all_digits (Z.to_N s)) as Hd.
  pose proof (decimal_digits_all_digits (Z.to_N (Z.abs (n - 1)))) as He.
  assert (Hne : decimal_digits (Z.to_N s) <> "").
  { unfold decimal_digits, NilZero.string_of_uint.
    destruct (N.to_uint (Z.to_N s)); discriminate. }
  set (digits := decimal_digits (Z.to_N s)) in *.
  set (d := decimal_digits (Z.to_N (Z.abs (n - 1)))) in *.
  assert (Hf : Str.forallb number_char digits = true)
    by (revert Hd; apply forallb_impl, digit_number_char).
  assert (Hfd : Str.forallb number_char d = true)
    by (revert He; apply forallb_impl, digit_number_char).
  assert (Hsub : forall i j,
             Str.forallb number_char (String.substring i j digits) = true)
    by (intros i j; now apply substring_forallb).
  assert (Hz : forall j, Str.forallb number_char (Str.repeat "0" j) = true)
    by (intros j; now apply repeat_forallb).
  assert (Hexp : Str.forallb number_char
                   ("e" ++ (if n - 1 <? 0 then "-" else "+") ++ d) = true)
    by (destruct (n - 1 <? 0); cbn [append Str.forallb]; now rewrite Hfd).
  assert (Happ : forall a b : string, a <> "" -> a ++ b <> "")
    by (intros [|x a] b Ha; [now elim Ha|discriminate]).
  assert (Happ' : forall (a : string) c b, a ++ String c b <> "")
    by (intros [|x a] c b; discriminate).
  destruct ((-5 <=? n) && (n <=? 21)).
  - destruct (k <=? n); [|destruct (0 <? n)].
    + split; [now rewrite forallb_app, Hf, Hz|now apply Happ].
    + split; [|apply Happ'].
      rewrite forallb_app, Hsub. cbn [append Str.forallb]. now rewrite Hsub.
    + split; [|discriminate].
      cbn [append Str.forallb]. now rewrite forallb_app, Hz, Hf.
  - cbv zeta. fold d. destruct (k =? 1).
    + split; [|now apply Happ]. rewrite forallb_app, Hf. exact Hexp.
    + split; [|apply Happ'].
      rewrite forallb_app, Hsub. cbn [append Str.forallb].
      rewrite forallb_app, Hsub. exact Hexp.
Qed.

Lemma Number_toString_chars (x : float) :
  Str.forallb number_char (Number_toString x) = true
  /\ Number_toString x <> "".
Proof.
  unfold Number_toString.
  destruct (Prim2SF x) as [s|s| |s m e];
    try (split; [reflexivity|discriminate]).
  - destruct s; (split; [reflexivity|discriminate]).
  - destruct (shortest m e) as [[n k] d].
    destruct (format_number_chars n k d) as [H1 H2].
    destruct s; cbn [append Str.forallb].
    + split; [now rewrite H1|discriminate].
    + now split.
Qed.

End Locality.

(** X13. The text of a Number passes the sanitizer unchanged and is never
    empty: the buffer a commit or a click on a ledger entry leaves is
    handed to the engine as it is by the next evaluation. *)
Theorem result_text_is_sanitized :
  forall x : float,
    sanitize (Number_toString x) = Number_toString x
    /\ Number_toString x <> ""
    /\ (forall (E : engine) (M : MathLib) (D : delivery) (st : state),
          evaluateExpression E M D (Number_toString x) st
          = validate
              (fst (call_function E M D (Number_toString x) st))
              (snd (call_function E M D (Number_toString x) st))).
Proof.
  intros x. destruct (Number_toString_chars x) as [Hc Hne].
  assert (Hfix : sanitize (Number_toString x) = Number_toString x).
  { apply sanitize_fixed.
    - revert Hc. apply forallb_impl. intros c H. now apply number_char_facts.
    - now apply no_percent_match_free, number_chars_no_percent. }
  split; [exact Hfix|]. split; [exact Hne|].
  intros E M D st. rewrite evaluateExpression_nonempty.
  - now rewrite Hfix.
  - rewrite remove_whitespace_redundant. unfold remove_disallowed.
    rewrite filter_id; [exact Hne|].
    revert Hc. apply forallb_impl. intros c H.
    apply number_char_facts in H. destruct H as [H _].
    now apply kept_facts in H.
Qed.

(** X14. [Ans] stands for the last result, or for 0 before any commit has
    succeeded: with a conforming engine the text ["Ans"] evaluates to 0
    when there is no last result and to the rounded last result when there
    is a finite one; and the [ans] function does nothing before any commit
    has succeeded. *)
Theorem ans_is_last_result_or_zero :
  forall pow (E : engine) (M : MathLib) (D : delivery) (st : state),
    JSEval.conforms pow E ->
    (lastResult st = None ->
       evaluateExpression E M D "Ans" st = (Value zero, st)
       /\ handleFunction "ans" st = st)
    /\ (forall v,
          lastResult st = Some v -> Number_isFinite v = true ->
          evaluateExpression E M D "Ans" st
          = (Value (StringToNumber (toFixed v 10)), st)
          /\ expression (handleFunction "ans" st)
             = expression (appendToExpression "Ans" st)).
Proof.
  intros pow E M D st Hc. split.
  - intros Hn. split.
    + rewrite (evaluate_conforming E M D pow "Ans" st (Normal (VNumber zero)) Hc);
        [reflexivity|vm_compute; discriminate|].
      unfold arguments. rewrite Hn. vm_compute. reflexivity.
    + unfold handleFunction. cbn. now rewrite Hn.
  - intros v Hv Hfin. split.
    + rewrite (evaluate_conforming E M D pow "Ans" st (Normal (VNumber v)) Hc).
      * cbn [validate]. now rewrite Hfin.
      * vm_compute; discriminate.
      * unfold arguments. rewrite Hv. vm_compute. reflexivity.
    + unfold handleFunction. cbn. now rewrite Hv.
Qed.

(** X15. The sanitizer works piece by piece across a character that is
    allowed and is neither a digit, a dot nor a percent sign: the text sent
    for a buffer followed by such a token is the text sent for the buffer
    followed by the text sent for the token.  So squaring sends the
    buffer's text between [(] and [)**2], and opening a function call
    sends it followed by the name and [(]. *)
Theorem sanitizer_is_local :
  (forall e t,
      JS.starts_with (fun c => is_allowed c && breaks_literal c) t = true ->
      sanitize (e ++ t) = sanitize e ++ sanitize t)
  /\ (forall st,
        expression st <> "" ->
        sanitize (expression (handleFunction "square" st))
        = "(" ++ sanitize (expression st) ++ ")**2")
  /\ (forall st name,
        is_one_of name ["sin"; "cos"; "tan"; "log"; "ln"; "sqrt"] = true ->
        sanitize (expression (handleFunction name st))
        = sanitize (expression st) ++ name ++ "(").
Proof.
  split; [exact sanitize_app|]. split.
  - intros st Hne. unfold handleFunction. cbn [is_one_of List.existsb].
    change (String.eqb "square" "sin") with false.
    change (String.eqb "square" "cos") with false.
    change (String.eqb "square" "tan") with false.
    change (String.eqb "square" "log") with false.
    change (String.eqb "square" "ln") with false.
    change (String.eqb "square" "sqrt") with false.
    change (String.eqb "square" "square") with true.
    cbn [orb]. apply is_empty_false in Hne. rewrite Hne.
    cbn [expression syncDisplay set_expression].
    change ("(" ++ expression st ++ ")^2")
      with (String "(" (expression st ++ ")^2")).
    rewrite sanitize_open_paren, sanitize_app by reflexivity. reflexivity.
  - intros st name Hn. unfold handleFunction. rewrite Hn.
    cbn [expression syncDisplay set_expression].
    apply is_one_of_In in Hn. cbn [List.In] in Hn.
    destruct Hn as [<-|[<-|[<-|[<-|[<-|[<-|[]]]]]]];
      rewrite sanitize_app by reflexivity; reflexivity.
Qed.

Lemma key_with_a_digit_is_appended_witness :
  Str.existsb is_digit "F5" = true
  /\ expression (handleKeyDown sample_engine sample_math None "F5" initial_state)
     = "F5".
Proof.
  split; [reflexivity|].
  exact (key_with_a_digit_is_appended sample_engine sample_math None "F5"
           initial_state eq_refl).
Defined.

Lemma ans_is_last_result_or_zero_witness :
  lastResult initial_state = None
  /\ evaluateExpression sample_engine sample_math None "Ans" initial_state
     = (Value zero, initial_state).
Proof.
  split; [reflexivity|].
  destruct (ans_is_last_result_or_zero sample_pow sample_engine sample_math None
              initial_state (reference_engine_conforms sample_pow)) as [H _].
  exact (proj1 (H eq_refl)).
Defined.

Lemma sanitizer_is_local_witness :
  sanitize ("50%" ++ "+sin(") = sanitize "50%" ++ sanitize "+sin("
  /\ sanitize
       (expression
          (handleFunction "square" (appendToExpression "3 %" initial_state)))
     = "(" ++ sanitize "3 %" ++ ")**2".
Proof.
  destruct sanitizer_is_local as (H1 & H2 & _). split.
  - apply H1. reflexivity.
  - apply (H2 (appendToExpression "3 %" initial_state)). discriminate.
Defined.

(* ================================================================= *)
(** * The nine names, and the commit of code that raises nothing *)

(** X2. Each of the nine names denotes its own argument of the call: with
    a conforming engine, in every state, the six function names applied
    to [Ans] give the corresponding closure applied to Ans (or to 0 when
    there is no last result), the sine, cosine and tangent in the angle
    mode of the state, and [PI], [E] and [Ans] give the two constants and
    Ans; each result is validated and rounded as any other. *)
Theorem names_are_bound_to_their_closures :
  forall pow (E : engine) (M : MathLib) (D : delivery) (st : state),
    JSEval.conforms pow E ->
    let useDeg := match angleMode st with DEG => true | RAD => false end in
    let Ans := match lastResult st with Some x => x | None => zero end in
    let returns raw x :=
      evaluateExpression E M D raw st = validate (Normal (VNumber x)) st in
    returns "sin(Ans)" (sinImpl M useDeg Ans)
    /\ returns "cos(Ans)" (cosImpl M useDeg Ans)
    /\ returns "tan(Ans)" (tanImpl M useDeg Ans)
    /\ returns "log(Ans)" (logImpl M Ans)
    /\ returns "ln(Ans)" (lnImpl M Ans)
    /\ returns "sqrt(Ans)" (sqrtImpl Ans)
    /\ returns "PI" Math_PI
    /\ returns "E" Math_E
    /\ returns "Ans" Ans.
Proof.
  intros pow E M D st Hc useDeg Ans returns. subst returns useDeg Ans.
  cbv beta.
  repeat split;
    (apply (evaluate_conforming E M D pow); [exact Hc|vm_compute; discriminate|]);
    unfold arguments; destruct (angleMode st), (lastResult st);
    vm_compute; reflexivity.
Qed.

(** X16. For code that raises nothing a commit is all or nothing.  With a
    conforming engine and a ledger within its bound: a commit with
    nothing to evaluate only synchronises the displays; when the text is
    in the interpreter's fragment, a commit that fails leaves the state as
    it was but for one error animation and the synchronised displays, and
    a commit that succeeds with the rounded value [v] sets Ans to [v],
    the buffer to the text of [v], and puts the evaluated text with [v]
    at the front of the ledger, which keeps its 20 newest entries (the
    guard of [addToHistory] passes on the text; it is left to pass on
    [v]). *)
Theorem quiet_commit_is_all_or_nothing :
  forall pow (E : engine) (M : MathLib) (D : delivery) (st : state),
    JSEval.conforms pow E ->
    (List.length (history st) <= 20)%nat ->
    let exprToEval :=
      if Str.is_empty (expression st) then displayMain st else expression st in
    let st' := handleAction E M D "equals" st in
    (remove_disallowed (remove_whitespace exprToEval) = "" ->
       st' = syncDisplay st)
    /\ (forall c,
          remove_disallowed (remove_whitespace exprToEval) <> "" ->
          JSEval.js_fragment pow parameter_names
            (function_body (sanitize exprToEval)) (arguments M st) = Some c ->
          (finite_number c = false ->
             st' = syncDisplay (showErrorAnimation st))
          /\ (forall r,
                c = Normal (VNumber r) -> Number_isFinite r = true ->
                let v := StringToNumber (toFixed r 10) in
                lastResult st' = Some v
                /\ expression st' = Number_toString v
                /\ history st'
                   = (if Number_isFinite v
                      then List.firstn 20
                             ({| expr := exprToEval; res := v |} :: history st)
                      else history st)
                /\ angleMode st' = angleMode st
                /\ errorAnimations st' = errorAnimations st)).
Proof.
  intros pow E M D st Hc Hlen exprToEval st'. subst st'.
  rewrite equals_unfold. unfold equals. fold exprToEval. split.
  - intros He. now rewrite (evaluateExpression_empty E M D _ st He).
  - intros c Hne Hrun.
    rewrite (evaluate_conforming E M D pow exprToEval st c Hc Hne Hrun).
    split.
    + intros Hfin. now rewrite (validate_not_finite c st Hfin).
    + intros r -> Hr. cbn [validate]. rewrite Hr.
      set (v := StringToNumber (toFixed r 10)).
      cbn [lastResult expression angleMode errorAnimations history
           syncDisplay set_expression set_lastResult].
      split; [reflexivity|]. split; [reflexivity|].
      assert (Hblank : Str.is_empty exprToEval = false
                       /\ Str.is_empty (trim exprToEval) = false).
      { apply not_blank_accepted. intros Hw. apply Hne. now rewrite Hw. }
      destruct Hblank as [H1 H2].
      split; [|split].
      * destruct (Number_isFinite v) eqn:Hv.
        -- apply addToHistory_firstn; [|exact Hlen].
           unfold accepted. now rewrite Hv, H1, H2.
        -- rewrite addToHistory_rejected; [reflexivity|].
           unfold accepted. now rewrite Hv.
      * unfold addToHistory. now destruct (_ || _).
      * apply errorAnimations_addToHistory.
Qed.

Lemma names_are_bound_to_their_closures_witness :
  evaluateExpression sample_engine sample_math None "sqrt(Ans)"
    (set_lastResult (Some 16%float) initial_state)
  = (Value 4%float, set_lastResult (Some 16%float) initial_state).
Proof.
  destruct (names_are_bound_to_their_closures sample_pow sample_engine
              sample_math None (set_lastResult (Some 16%float) initial_state)
              (reference_engine_conforms sample_pow))
    as (_ & _ & _ & _ & _ & H & _).
  rewrite H. vm_compute. reflexivity.
Defined.

Lemma quiet_commit_is_all_or_nothing_witness :
  let st := appendToExpression "2+3" initial_state in
  let st' := handleAction sample_engine sample_math None "equals" st in
  lastResult st' = Some 5%float
  /\ expression st' = "5"
  /\ history st' = [{| expr := "2+3"; res := 5%float |}].
Proof.
  cbv zeta.
  assert (Hlen : (List.length
                    (history (appendToExpression "2+3" initial_state)) <= 20)%nat)
    by (vm_compute; lia).
  destruct (quiet_commit_is_all_or_nothing sample_pow sample_engine sample_math
              None (appendToExpression "2+3" initial_state)
              (reference_engine_conforms sample_pow) Hlen) as [_ H].
  destruct (H (Normal (VNumber 5%float))) as [_ H5];
    [vm_compute; discriminate|vm_compute; reflexivity|].
  destruct (H5 5%float eq_refl eq_refl) as (H1 & H2 & H3 & _).
  split; [rewrite H1; vm_compute; reflexivity|].
  split; [rewrite H2; vm_compute; reflexivity|].
  rewrite H3. vm_compute. reflexivity.
Defined.
